(** * Convolution kernels of [apps/common/kernel/convolution.h]

    A shallow embedding of the four 2D convolution kernels and of the image
    utilities, with the C integer semantics written out: [uint32_t] values
    are integers in [0, 2^32), [int] and [int32_t] values are integers in
    [-2^31, 2^31), arithmetic wraps modulo 2^32, and an operation that mixes
    a signed and an unsigned operand converts the signed one to unsigned
    first (the usual arithmetic conversions).

    Buffers are the memory a pointer views: a map from element index to
    the 32-bit value held there.  The input, the kernel and the output are
    distinct buffers ([__restrict__]); nothing checks an index against the
    size of an image, as nothing does in the source.

    A loop with stride [numThreads] need not terminate (a lane count of 0
    never advances, a wrapped bound may never be reached), so the strided
    loops take an iteration budget and report when it is exhausted; the
    theorems give a budget that suffices.  A division by zero stops a
    kernel with a fault.  The lanes of one call touch disjoint elements;
    they are run one after the other, in ascending id order. *)

From Stdlib Require Import ZArith List Lia Bool.
Import ListNotations.
Local Open Scope Z_scope.

(** ** 32-bit machine integers *)

Module Word32.

Definition wB : Z := 4294967296.
Definition half : Z := 2147483648.

(** Conversion to [uint32_t]. *)
Definition to_u (z : Z) : Z := z mod wB.

(** Conversion to [int] / [int32_t] (two's complement). *)
Definition to_s (z : Z) : Z := (z + half) mod wB - half.

(** [uint32_t] operators. *)
Definition addu (a b : Z) : Z := to_u (a + b).
Definition subu (a b : Z) : Z := to_u (a - b).
Definition mulu (a b : Z) : Z := to_u (a * b).

(** [int] operators (wrapping on overflow, as the hardware does). *)
Definition addi (a b : Z) : Z := to_s (a + b).
Definition negi (a : Z) : Z := to_s (- a).

End Word32.
Import Word32.

(** ** Buffers *)

Definition buffer := Z -> Z.

Definition store (b : buffer) (idx v : Z) : buffer :=
  fun p => if p =? idx then v else b p.

(** A buffer holding the elements of a list, zero elsewhere. *)
Definition of_list (l : list Z) : buffer :=
  fun p => if p <? 0 then 0 else nth (Z.to_nat p) l 0.

(** ** Outcomes and loops *)

(** A run either completes, stops early with an exit value, or exhausts the
    iteration budget given to its strided loops. *)
Inductive outcome (E A : Type) : Type :=
| Done (a : A)
| Abort (e : E)
| OutOfFuel.
Arguments Done {E A} a.
Arguments Abort {E A} e.
Arguments OutOfFuel {E A}.

Definition bind {E A B} (m : outcome E A) (f : A -> outcome E B) : outcome E B :=
  match m with
  | Done a => f a
  | Abort e => Abort e
  | OutOfFuel => OutOfFuel
  end.

(** The only fault of the kernels. *)
Inductive fault : Type := DivFault.

(** [cnt] iterations of a unit-stride loop that starts at [v], without
    effects other than on the accumulator. *)
Fixpoint loop_up {A} (cnt : nat) (v : Z) (f : Z -> A -> A) (a : A) : A :=
  match cnt with
  | O => a
  | S c => loop_up c (v + 1) f (f v a)
  end.

(** [for (v = lo; v < hi; v++) a = f v a] *)
Definition for_pure {A} (lo hi : Z) (f : Z -> A -> A) (a : A) : A :=
  loop_up (Z.to_nat (hi - lo)) lo f a.

Fixpoint for_up {E A} (cnt : nat) (v : Z) (body : Z -> A -> outcome E A) (a : A)
  : outcome E A :=
  match cnt with
  | O => Done a
  | S c => bind (body v a) (for_up c (v + 1) body)
  end.

(** [for (v = lo; v < hi; v++) body], where [body] may stop the run. *)
Definition for_range {E A} (lo hi : Z) (body : Z -> A -> outcome E A) (a : A)
  : outcome E A :=
  for_up (Z.to_nat (hi - lo)) lo body a.

(** [for (i = start; i < bound; i += step) body] on the unsigned view of
    [i]; the increment wraps, and a zero [step] never leaves the loop. *)
Fixpoint for_stride {E A} (fuel : nat) (i bound step : Z)
    (body : Z -> A -> outcome E A) (a : A) : outcome E A :=
  match fuel with
  | O => OutOfFuel
  | S f =>
      if i <? bound
      then bind (body i a) (for_stride f (addu i step) bound step body)
      else Done a
  end.

(** [while (id < boundary) id += step;] *)
Fixpoint skip_boundary {E} (fuel : nat) (id boundary step : Z) : outcome E Z :=
  match fuel with
  | O => OutOfFuel
  | S f =>
      if id <? boundary
      then skip_boundary f (addu id step) boundary step
      else Done id
  end.

(** ** The convolution kernels *)

(** [for (int i = 0; i < cnt; ++i) weight += k[i];] *)
Definition weight_sum (k : buffer) (cnt : Z) : Z :=
  for_pure 0 cnt (fun iu weight => addu weight (k (to_s iu))) 0.

(** [out[idx] = sum / weight] with [sum] an [int32_t] and [weight] a
    [uint32_t]: the dividend is converted to unsigned, the quotient is
    unsigned and is converted back on the store. *)
Definition quotient (sum weight : Z) : Z := to_s (to_u sum / weight).

Definition store_quotient (out : buffer) (idx sum weight : Z)
  : outcome fault buffer :=
  if weight =? 0 then Abort DivFault
  else Done (store out idx (quotient sum weight)).

(** [sum += v * w] with [sum], [v] signed and [w] unsigned. *)
Definition accumulate (sum v w : Z) : Z :=
  to_s (addu (to_u sum) (mulu (to_u v) w)).

(** The iteration space of [conv2d_parallel], with the loop body left open:
    [int boundary_x = k_x / 2; int boundary_y = k_y / 2;]
    [while (id < boundary_x) id += numThreads;]
    [for (int i = id; i < in_x - boundary_x; i += numThreads)]
    [for (int j = boundary_y; j < in_y - boundary_y; j++) body]
    The comparisons against the [uint32_t] bounds are unsigned; [iu] and
    [ju] are the unsigned views of the [int] counters [i] and [j]. *)
Definition conv2d_parallel_loop {A} (fuel : nat) (in_x in_y k_x k_y : Z)
    (id numThreads : Z) (body : Z -> Z -> A -> outcome fault A) (a : A)
  : outcome fault A :=
  let boundary_x := to_s (k_x / 2) in
  let boundary_y := to_s (k_y / 2) in
  bind (skip_boundary fuel id (to_u boundary_x) numThreads) (fun id =>
  for_stride fuel (to_u (to_s id)) (subu in_x (to_u boundary_x)) numThreads
    (fun iu =>
       let i := to_s iu in
       for_range (to_u boundary_y) (subu in_y (to_u boundary_y))
         (fun ju => let j := to_s ju in body i j)) a).

(** The weighted sum of the centred window at column [i], row [j]:
    [for (int m = -boundary_y; m < (int)(k_y - boundary_y); m++)]
    [for (int n = -boundary_x; n < (int)(k_x - boundary_x); n++)]
    [sum += in[(j + m) * in_x + (i + n)] *
            k[(m + boundary_y) * k_x + (n + boundary_x)];] *)
Definition conv2d_parallel_sum (inp : buffer) (in_x : Z) (k : buffer)
    (k_x k_y : Z) (i j : Z) : Z :=
  let boundary_x := to_s (k_x / 2) in
  let boundary_y := to_s (k_y / 2) in
  for_pure (negi boundary_y) (to_s (subu k_y (to_u boundary_y))) (fun m sum =>
    for_pure (negi boundary_x) (to_s (subu k_x (to_u boundary_x))) (fun n sum =>
      accumulate sum
        (inp (addu (mulu (to_u (addi j m)) in_x) (to_u (addi i n))))
        (k (addu (mulu (to_u (addi m boundary_y)) k_x)
                 (to_u (addi n boundary_x)))))
      sum) 0.

(** [out[j * in_x + i] = sum / weight;] *)
Definition conv2d_parallel_body (inp : buffer) (in_x : Z) (k : buffer)
    (k_x k_y weight : Z) (i j : Z) (out : buffer) : outcome fault buffer :=
  let sum := conv2d_parallel_sum inp in_x k k_x k_y i j in
  store_quotient out (addu (mulu (to_u j) in_x) (to_u i)) sum weight.

Definition conv2d_parallel (fuel : nat) (inp : buffer) (in_x in_y : Z)
    (k : buffer) (k_x k_y : Z) (out : buffer) (id numThreads : Z)
  : outcome fault buffer :=
  let weight := weight_sum k (mulu k_x k_y) in
  conv2d_parallel_loop fuel in_x in_y k_x k_y id numThreads
    (conv2d_parallel_body inp in_x k k_x k_y weight) out.

(** The iteration space of [conv2d_shifted_parallel], all in [uint32_t]:
    [for (uint32_t i = id; i < in_x - (2 * boundary_x); i += numThreads)]
    [for (uint32_t j = 0; j < in_y - (2 * boundary_y); j++) body] *)
Definition conv2d_shifted_loop {A} (fuel : nat) (in_x in_y k_x k_y : Z)
    (id numThreads : Z) (body : Z -> Z -> A -> outcome fault A) (a : A)
  : outcome fault A :=
  let boundary_x := k_x / 2 in
  let boundary_y := k_y / 2 in
  for_stride fuel id (subu in_x (mulu 2 boundary_x)) numThreads
    (fun i => for_range 0 (subu in_y (mulu 2 boundary_y)) (fun j => body i j)) a.

(** [for (uint32_t m = 0; m < k_y; m++) for (uint32_t n = 0; n < k_x; n++)]
    [sum += in[(j + m) * in_x + (i + n)] * k[m * k_x + n];] *)
Definition conv2d_shifted_sum (inp : buffer) (in_x : Z) (k : buffer)
    (k_x k_y : Z) (i j : Z) : Z :=
  for_pure 0 k_y (fun m sum =>
    for_pure 0 k_x (fun n sum =>
      accumulate sum
        (inp (addu (mulu (addu j m) in_x) (addu i n)))
        (k (addu (mulu m k_x) n)))
      sum) 0.

(** [out[(j + boundary_y) * in_x + (i + boundary_x)] = sum / weight;] *)
Definition conv2d_shifted_body (inp : buffer) (in_x : Z) (k : buffer)
    (k_x k_y weight : Z) (i j : Z) (out : buffer) : outcome fault buffer :=
  let boundary_x := k_x / 2 in
  let boundary_y := k_y / 2 in
  let sum := conv2d_shifted_sum inp in_x k k_x k_y i j in
  store_quotient out (addu (mulu (addu j boundary_y) in_x) (addu i boundary_x))
    sum weight.

Definition conv2d_shifted_parallel (fuel : nat) (inp : buffer) (in_x in_y : Z)
    (k : buffer) (k_x k_y : Z) (out : buffer) (id numThreads : Z)
  : outcome fault buffer :=
  let weight := weight_sum k (mulu k_x k_y) in
  conv2d_shifted_loop fuel in_x in_y k_x k_y id numThreads
    (conv2d_shifted_body inp in_x k k_x k_y weight) out.

(** The block of columns [start, end) that lane [id] computes for itself in
    [conv2d_3x3_unrolled_parallel], before clamping:
    [uint32_t div = in_x / numThreads; uint32_t rem = in_x % numThreads;]
    [uint32_t start = div * id; uint32_t end = div * (id + 1);]
    [start += id < rem ? id : rem; end += id < rem ? id : rem;] *)
Definition block_range (in_x id numThreads : Z) : outcome fault (Z * Z) :=
  if numThreads =? 0 then Abort DivFault
  else
    let div := in_x / numThreads in
    let rem := in_x mod numThreads in
    let start := mulu div id in
    let end_ := mulu div (addu id 1) in
    let start := addu start (if id <? rem then id else rem) in
    let end_ := addu end_ (if id <? rem then id else rem) in
    Done (start, end_).

(** [if (start < 1) start = 1; if (end > in_x - 1) end = in_x - 1;] *)
Definition clamp_range (in_x : Z) (r : Z * Z) : Z * Z :=
  let start := if fst r <? 1 then 1 else fst r in
  let end_ := if subu in_x 1 <? snd r then subu in_x 1 else snd r in
  (start, end_).

(** [for (uint32_t i = start; i < end; ++i)]
    [for (uint32_t j = 1; j < in_y - 1; j++) body] *)
Definition conv2d_3x3_unrolled_loop {A} (in_x in_y id numThreads : Z)
    (body : Z -> Z -> A -> outcome fault A) (a : A) : outcome fault A :=
  bind (block_range in_x id numThreads) (fun r =>
  let r := clamp_range in_x r in
  for_range (fst r) (snd r)
    (fun i => for_range 1 (subu in_y 1) (fun j => body i j)) a).

(** [sum = 0; sum += in[(j - 1) * in_x + (i - 1)] * k[0]; ...;
     sum += in[(j + 1) * in_x + (i + 1)] * k[8];] with [i], [j] unsigned. *)
Definition sum_3x3_unrolled (inp : buffer) (in_x : Z) (k : buffer) (i j : Z) : Z :=
  let at_ (dj di : Z) := inp (addu (mulu (addu j dj) in_x) (addu i di)) in
  let sum := 0 in
  let sum := accumulate sum (at_ (-1) (-1)) (k 0) in
  let sum := accumulate sum (at_ (-1) 0) (k 1) in
  let sum := accumulate sum (at_ (-1) 1) (k 2) in
  let sum := accumulate sum (at_ 0 (-1)) (k 3) in
  let sum := accumulate sum (at_ 0 0) (k 4) in
  let sum := accumulate sum (at_ 0 1) (k 5) in
  let sum := accumulate sum (at_ 1 (-1)) (k 6) in
  let sum := accumulate sum (at_ 1 0) (k 7) in
  let sum := accumulate sum (at_ 1 1) (k 8) in
  sum.

(** [out[j * in_x + i] = sum / weight;] *)
Definition conv2d_3x3_unrolled_body (inp : buffer) (in_x : Z) (k : buffer)
    (weight : Z) (i j : Z) (out : buffer) : outcome fault buffer :=
  store_quotient out (addu (mulu j in_x) i) (sum_3x3_unrolled inp in_x k i j)
    weight.

Definition conv2d_3x3_unrolled_parallel (inp : buffer) (in_x in_y : Z)
    (k : buffer) (out : buffer) (id numThreads : Z) : outcome fault buffer :=
  let weight := weight_sum k 9 in
  conv2d_3x3_unrolled_loop in_x in_y id numThreads
    (conv2d_3x3_unrolled_body inp in_x k weight) out.

(** [for (int i = id; i < in_x - 2; i += numThreads)]
    [for (int j = 0; j < in_y - 2; j++) body] *)
Definition conv2d_3x3_shifted_loop {A} (fuel : nat) (in_x in_y : Z)
    (id numThreads : Z) (body : Z -> Z -> A -> outcome fault A) (a : A)
  : outcome fault A :=
  for_stride fuel (to_u (to_s id)) (subu in_x 2) numThreads
    (fun iu =>
       let i := to_s iu in
       for_range 0 (subu in_y 2) (fun ju => let j := to_s ju in body i j)) a.

(** [sum = 0; sum += in[(j + 0) * in_x + (i + 0)] * k[0]; ...;
     sum += in[(j + 2) * in_x + (i + 2)] * k[8];] with [i], [j] of type
    [int]. *)
Definition sum_3x3_shifted (inp : buffer) (in_x : Z) (k : buffer) (i j : Z) : Z :=
  let at_ (dj di : Z) :=
    inp (addu (mulu (to_u (addi j dj)) in_x) (to_u (addi i di))) in
  let sum := 0 in
  let sum := accumulate sum (at_ 0 0) (k 0) in
  let sum := accumulate sum (at_ 0 1) (k 1) in
  let sum := accumulate sum (at_ 0 2) (k 2) in
  let sum := accumulate sum (at_ 1 0) (k 3) in
  let sum := accumulate sum (at_ 1 1) (k 4) in
  let sum := accumulate sum (at_ 1 2) (k 5) in
  let sum := accumulate sum (at_ 2 0) (k 6) in
  let sum := accumulate sum (at_ 2 1) (k 7) in
  let sum := accumulate sum (at_ 2 2) (k 8) in
  sum.

(** [out[(j + 1) * in_x + (i + 1)] = sum / weight;] *)
Definition conv2d_3x3_shifted_body (inp : buffer) (in_x : Z) (k : buffer)
    (weight : Z) (i j : Z) (out : buffer) : outcome fault buffer :=
  store_quotient out
    (addu (mulu (to_u (addi j 1)) in_x) (to_u (addi i 1)))
    (sum_3x3_shifted inp in_x k i j) weight.

Definition conv2d_3x3_shifted_unrolled_parallel (fuel : nat) (inp : buffer)
    (in_x in_y : Z) (k : buffer) (out : buffer) (id numThreads : Z)
  : outcome fault buffer :=
  let weight := weight_sum k 9 in
  conv2d_3x3_shifted_loop fuel in_x in_y id numThreads
    (conv2d_3x3_shifted_body inp in_x k weight) out.

(** ** Image utilities *)

(** The iteration space shared by [init_conv2d_image] and
    [zero_conv2d_image]: rows are dealt to the lanes when the image is
    taller than wide, columns otherwise.  [body] receives the row [i] and
    the column [j].
    [if (img_y > img_x)]
    [  for (int i = id; i < img_y; i += numThreads)]
    [    for (int j = 0; j < img_x; ++j) body]
    [else]
    [  for (int j = id; j < img_x; j += numThreads)]
    [    for (int i = 0; i < img_y; ++i) body] *)
Definition image_fill_loop {A} (fuel : nat) (img_x img_y id numThreads : Z)
    (body : Z -> Z -> A -> outcome fault A) (a : A) : outcome fault A :=
  if img_x <? img_y then
    for_stride fuel (to_u (to_s id)) img_y numThreads
      (fun iu =>
         let i := to_s iu in
         for_range 0 img_x (fun ju => let j := to_s ju in body i j)) a
  else
    for_stride fuel (to_u (to_s id)) img_x numThreads
      (fun ju =>
         let j := to_s ju in
         for_range 0 img_y (fun iu => let i := to_s iu in body i j)) a.

(** [img[i * img_x + j]] with [i], [j] of type [int]. *)
Definition pixel_index (img_x i j : Z) : Z :=
  addu (mulu (to_u i) img_x) (to_u j).

(** [(i % 16) + (j % 4)] *)
Definition init_value (i j : Z) : Z := addi (Z.rem i 16) (Z.rem j 4).

(** [img[i * img_x + j] = (i % 16) + (j % 4);] *)
Definition init_conv2d_image (fuel : nat) (img : buffer) (img_x img_y : Z)
    (id numThreads : Z) : outcome fault buffer :=
  image_fill_loop fuel img_x img_y id numThreads
    (fun i j img => Done (store img (pixel_index img_x i j) (init_value i j)))
    img.

(** [img[i * img_x + j] = 0;] *)
Definition zero_conv2d_image (fuel : nat) (img : buffer) (img_x img_y : Z)
    (id numThreads : Z) : outcome fault buffer :=
  image_fill_loop fuel img_x img_y id numThreads
    (fun i j img => Done (store img (pixel_index img_x i j) 0)) img.

(** The row term [y] that [verify_conv2d_image] expects in row [i]:
    [int32_t y = i % 16; if (i % 16 == 0) y = 4; if (i % 16 == 15) y = 11;] *)
Definition expected_row (i : Z) : Z :=
  let y := Z.rem i 16 in
  let y := if Z.rem i 16 =? 0 then 4 else y in
  let y := if Z.rem i 16 =? 15 then 11 else y in
  y.

(** The column term [x = ((j % 4) / 2) + 1]. *)
Definition expected_col (j : Z) : Z := addi (Z.quot (Z.rem j 4) 2) 1.

(** [x + y] *)
Definition expected_value (i j : Z) : Z := addi (expected_col j) (expected_row i).

(** [return (i + j) == 0 ? -1 : i * img_x + j;] as the [int] returned. *)
Definition failure_code (img_x i j : Z) : Z :=
  to_s (if addi i j =? 0 then to_u (-1) else pixel_index img_x i j).

(** One step of the scan: compare, then leave with the failure code or
    reset the element.  The exit value carries the buffer as it is when the
    function returns.
    [if (img[i * img_x + j] != x + y) return ...; img[i * img_x + j] = 0;] *)
Definition verify_body (img_x : Z) (i j : Z) (img : buffer)
  : outcome (Z * buffer) buffer :=
  if img (pixel_index img_x i j) =? expected_value i j
  then Done (store img (pixel_index img_x i j) 0)
  else Abort (failure_code img_x i j, img).

(** [for (int i = id + 1; i < img_y - 1; i += numThreads)]
    [for (int32_t j = 1; j < img_x - 1; ++j) body] *)
Definition verify_loop (fuel : nat) (img : buffer) (img_x img_y : Z)
    (id numThreads : Z) : outcome (Z * buffer) buffer :=
  for_stride fuel (to_u (to_s (addu id 1))) (subu img_y 1) numThreads
    (fun iu =>
       let i := to_s iu in
       for_range 1 (subu img_x 1)
         (fun ju => let j := to_s ju in verify_body img_x i j)) img.

(** The value returned together with the buffer left behind; [None] when
    the iteration budget is too small. *)
Definition verify_conv2d_image (fuel : nat) (img : buffer) (img_x img_y : Z)
    (id numThreads : Z) : option (Z * buffer) :=
  match verify_loop fuel img img_x img_y id numThreads with
  | Done img' => Some (0, img')
  | Abort r => Some r
  | OutOfFuel => None
  end.

(** ** Running every lane *)

(** The lane ids [0 .. n-1]. *)
Fixpoint zseq (cnt : nat) (v : Z) : list Z :=
  match cnt with
  | O => []
  | S c => v :: zseq c (v + 1)
  end.

Definition lane_ids (numThreads : Z) : list Z := zseq (Z.to_nat numThreads) 0.

(** The lanes write disjoint elements, so the buffer they leave does not
    depend on their interleaving; they are run one after the other. *)
Fixpoint fold_outcome {E A X} (body : X -> A -> outcome E A) (xs : list X) (a : A)
  : outcome E A :=
  match xs with
  | [] => Done a
  | x :: xs' => bind (body x a) (fold_outcome body xs')
  end.

Definition run_lanes {E} (kernel : buffer -> Z -> Z -> outcome E buffer)
    (numThreads : Z) (out : buffer) : outcome E buffer :=
  fold_outcome (fun id o => kernel o id numThreads) (lane_ids numThreads) out.

(** Every lane verifies in turn; the result lists the value each lane
    returned, in lane order. *)
Fixpoint verify_lanes (fuel : nat) (img : buffer) (img_x img_y : Z)
    (ids : list Z) (numThreads : Z) : option (list Z * buffer) :=
  match ids with
  | [] => Some ([], img)
  | id :: ids' =>
      match verify_conv2d_image fuel img img_x img_y id numThreads with
      | None => None
      | Some (code, img') =>
          match verify_lanes fuel img' img_x img_y ids' numThreads with
          | None => None
          | Some (codes, img'') => Some (code :: codes, img'')
          end
      end
  end.

(** ** Iteration spaces, coordinates and write traces *)

Fixpoint stride_from (cnt : nat) (i bound step : Z) : list Z :=
  match cnt with
  | O => []
  | S c => if i <? bound then i :: stride_from c (i + step) bound step else []
  end.

(** The progression [lo, lo + step, lo + 2 step, ...] below [hi]. *)
Definition strided (lo hi step : Z) : list Z :=
  stride_from (Z.to_nat (hi - lo)) lo hi step.

(** The interval [lo, hi) in ascending order. *)
Definition zrange (lo hi : Z) : list Z := zseq (Z.to_nat (hi - lo)) lo.

(** Pairs in the order of a loop over [xs] around a loop over [ys]. *)
Definition grid (xs ys : list Z) : list (Z * Z) :=
  flat_map (fun x => map (pair x) ys) xs.

(** A sequence of stores [(index, value)] applied in order. *)
Definition apply_writes (ws : list (Z * Z)) (out : buffer) : buffer :=
  fold_left (fun o w => store o (fst w) (snd w)) ws out.

(** The coordinates [(i, j)] at which a lane of [conv2d_parallel] executes
    its loop body, in execution order. *)
Definition conv2d_parallel_coords (fuel : nat) (in_x in_y k_x k_y : Z)
    (id numThreads : Z) : outcome fault (list (Z * Z)) :=
  conv2d_parallel_loop fuel in_x in_y k_x k_y id numThreads
    (fun i j acc => Done (acc ++ [(i, j)])) [].

(** The value each kernel stores at column [x], row [y] of its output. *)
Definition conv2d_parallel_pixel (inp : buffer) (in_x : Z) (k : buffer)
    (k_x k_y : Z) (x y : Z) : Z :=
  quotient (conv2d_parallel_sum inp in_x k k_x k_y x y)
    (weight_sum k (mulu k_x k_y)).

Definition conv2d_shifted_pixel (inp : buffer) (in_x : Z) (k : buffer)
    (k_x k_y : Z) (x y : Z) : Z :=
  quotient (conv2d_shifted_sum inp in_x k k_x k_y (x - k_x / 2) (y - k_y / 2))
    (weight_sum k (mulu k_x k_y)).

Definition conv2d_3x3_unrolled_pixel (inp : buffer) (in_x : Z) (k : buffer)
    (x y : Z) : Z :=
  quotient (sum_3x3_unrolled inp in_x k x y) (weight_sum k 9).

Definition conv2d_3x3_shifted_pixel (inp : buffer) (in_x : Z) (k : buffer)
    (x y : Z) : Z :=
  quotient (sum_3x3_shifted inp in_x k (x - 1) (y - 1)) (weight_sum k 9).

(** The valid interior: the coordinates at which the whole window lies
    inside the image. *)
Definition interior (in_x in_y bx by_ : Z) (x y : Z) : Prop :=
  bx <= x < in_x - bx /\ by_ <= y < in_y - by_.

(** The output elements outside the valid interior: their index is the
    linear index of no interior coordinate. *)
Definition border (in_x in_y bx by_ : Z) (p : Z) : Prop :=
  forall x y, interior in_x in_y bx by_ x y -> p <> y * in_x + x.

(** Column [x] lies in the block that lane [id] computes for itself. *)
Definition block_owns (in_x numThreads id x : Z) : Prop :=
  match block_range in_x id numThreads with
  | Done r => fst r <= x < snd r
  | _ => False
  end.

(** The assumptions under which the 32-bit arithmetic of the loops does not
    wrap: the dimensions and every linear index of the image are
    representable as [int], and so is the lane count. *)
Definition fits (in_x in_y : Z) : Prop :=
  0 <= in_x < half /\ 0 <= in_y < half /\ in_x * in_y < half.

Definition lanes (numThreads : Z) : Prop := 1 <= numThreads < half.

(** The sum, as an integer, of the [k_x * k_y] input values under the
    window centred at column [x], row [y]. *)
Definition window_total (inp : buffer) (in_x k_x k_y x y : Z) : Z :=
  for_pure 0 k_y (fun m total =>
    for_pure 0 k_x (fun n total =>
      total + inp ((y - k_y / 2 + m) * in_x + (x - k_x / 2 + n))) total) 0.

(** The sum, as an integer, of the first [cnt] weights of a kernel. *)
Definition kernel_total (k : buffer) (cnt : Z) : Z :=
  for_pure 0 cnt (fun i total => total + k i) 0.

(** A kernel whose [cnt] weights are all one. *)
Definition all_ones (k : buffer) (cnt : Z) : Prop :=
  forall p, 0 <= p < cnt -> k p = 1.

(** The order in which lane [id] of [verify_conv2d_image] visits the
    elements, as (row, column) pairs: the rows [id + 1], [id + 1 +
    numThreads], ... below [img_y - 1], each with the columns
    [1 .. img_x - 2]. *)
Definition verify_scan (img_x img_y id numThreads : Z) : list (Z * Z) :=
  grid (strided (id + 1) (img_y - 1) numThreads) (zrange 1 (img_x - 1)).

(** The linear index of the element at (row, column) [c]. *)
Definition linear (img_x : Z) (c : Z * Z) : Z := fst c * img_x + snd c.

(** The element at (row, column) [c] holds the value the verification
    expects there. *)
Definition matches (img_x : Z) (img : buffer) (c : Z * Z) : bool :=
  img (linear img_x c) =? expected_value (fst c) (snd c).

(** One step of the verification at an element whose index does not wrap:
    reset a matching element, or leave with its linear index. *)
Definition verify_check (img_x : Z) (c : Z * Z) (img : buffer)
  : outcome (Z * buffer) buffer :=
  if matches img_x img c then Done (store img (linear img_x c) 0)
  else Abort (linear img_x c, img).

(** The first element of a scan that does not match, and the value a lane
    returns for it: its linear index, or 0 when every element matches. *)
Definition first_mismatch (img_x : Z) (img : buffer) (scan : list (Z * Z))
  : option (Z * Z) :=
  find (fun c => negb (matches img_x img c)) scan.

Definition lane_code (img_x img_y numThreads : Z) (img : buffer) (id : Z) : Z :=
  match first_mismatch img_x img (verify_scan img_x img_y id numThreads) with
  | None => 0
  | Some c => linear img_x c
  end.

(** Resetting the elements at the given (row, column) pairs. *)
Definition reset_all (img_x : Z) (cs : list (Z * Z)) (img : buffer) : buffer :=
  apply_writes (map (fun c => (linear img_x c, 0)) cs) img.

(** The element a completed run leaves at index [p]. *)
Definition read {E} (r : outcome E buffer) (p : Z) : option Z :=
  match r with
  | Done o => Some (o p)
  | _ => None
  end.

(** The weighted sum, as an integer, of the window of the pixel at column
    [x], row [y]: the input under the [k_x] by [k_y] window whose top left
    corner lies [k_x / 2] columns and [k_y / 2] rows before the pixel, each
    value times the weight stored at the same place of the kernel. *)
Definition window_dot (inp : buffer) (in_x : Z) (k : buffer) (k_x k_y x y : Z)
  : Z :=
  for_pure 0 k_y (fun m total =>
    for_pure 0 k_x (fun n total =>
      total + inp ((y - k_y / 2 + m) * in_x + (x - k_x / 2 + n))
              * k (m * k_x + n)) total) 0.

(** A 3x3 kernel with weight 1 at its centre and 0 elsewhere. *)
Definition centre_only (k : buffer) : Prop :=
  k 4 = 1 /\ forall p, 0 <= p < 9 -> p <> 4 -> k p = 0.

(** Column [x] is the one that follows the block of one of the first
    [in_x % numThreads] lanes: with [d = in_x / numThreads], the column
    [(d + 1) * id + d] for a lane [id < in_x % numThreads]. *)
Definition skipped_column (in_x numThreads x : Z) : Prop :=
  exists id, 0 <= id < in_x mod numThreads /\
             x = (in_x / numThreads + 1) * id + in_x / numThreads.

(** Two buffers hold the same first [n] elements. *)
Definition agree_below (n : Z) (a b : buffer) : Prop :=
  forall p, 0 <= p < n -> a p = b p.

(** The lane of [init_conv2d_image] and [zero_conv2d_image] that fills the
    element of row [i], column [j]: rows are dealt out round-robin when the
    image is taller than wide, columns otherwise. *)
Definition fill_lane (img_x img_y numThreads i j : Z) : Z :=
  if img_x <? img_y then i mod numThreads else j mod numThreads.

(** The value a lane of the verification returns when it runs alone on
    [img] (0 when the iteration budget is too small). *)
Definition verify_code (fuel : nat) (img : buffer) (img_x img_y : Z)
    (numThreads id : Z) : Z :=
  match verify_conv2d_image fuel img img_x img_y id numThreads with
  | Some (code, _) => code
  | None => 0
  end.

(** The value [v] stored for the [int32_t] sum [sum] and the [uint32_t]
    divisor [weight] is the signed reading of the unsigned quotient of
    [sum + 2^32] by [weight]; for a divisor between 2 and 2^31 it is
    positive while the quotient of the signed division, truncated toward
    zero, is not; for the divisor 1 it is that quotient. *)
Definition stored_as_unsigned (v sum weight : Z) : Prop :=
  v = to_s ((sum + wB) / weight) /\
  (2 <= weight <= half -> 0 < v /\ Z.quot sum weight <= 0) /\
  (weight = 1 -> v = Z.quot sum weight).

(** Sample data: the all-ones 3x3 kernel, the smoothing kernel
    (1 2 1) x (1 2 1), the kernel that copies the centre pixel, an input
    whose element [p] holds [p], and buffers holding one value
    everywhere. *)
Definition ones_3x3 : buffer := of_list [1; 1; 1; 1; 1; 1; 1; 1; 1].
Definition smooth_3x3 : buffer := of_list [1; 2; 1; 2; 4; 2; 1; 2; 1].
Definition centre_3x3 : buffer := of_list [0; 0; 0; 0; 1; 0; 0; 0; 0].
Definition ramp : buffer := fun p => p.
Definition constant (v : Z) : buffer := fun _ => v.

(** A 3x3 kernel whose weights, 2^31 twice and seven zeros, sum to 2^32. *)
Definition wrap_3x3 : buffer :=
  of_list [2147483648; 2147483648; 0; 0; 0; 0; 0; 0; 0].

(** * Properties *)

(** ** Sample runs *)

(** A 4x3 ramp image under the all-ones 3x3 kernel: the two interior
    pixels are the window averages 45 / 9 and 54 / 9; the other elements
    keep the 0 of the output buffer.  All four variants agree here (one
    lane, so the block partition has no remainder). *)
Example conv2d_parallel_4x3 :
  match run_lanes (fun o => conv2d_parallel 5 ramp 4 3 ones_3x3 3 3 o)
          1 (constant 0) with
  | Done out => map out [0; 1; 2; 3; 4; 5; 6; 7; 8; 9; 10; 11]
  | _ => []
  end = [0; 0; 0; 0; 0; 5; 6; 0; 0; 0; 0; 0].
Proof. vm_compute. reflexivity. Qed.

Example conv2d_shifted_4x3 :
  match run_lanes (fun o => conv2d_shifted_parallel 5 ramp 4 3 ones_3x3 3 3 o)
          1 (constant 0) with
  | Done out => map out [0; 1; 2; 3; 4; 5; 6; 7; 8; 9; 10; 11]
  | _ => []
  end = [0; 0; 0; 0; 0; 5; 6; 0; 0; 0; 0; 0].
Proof. vm_compute. reflexivity. Qed.

Example conv2d_3x3_unrolled_4x3 :
  match run_lanes (conv2d_3x3_unrolled_parallel ramp 4 3 ones_3x3)
          1 (constant 0) with
  | Done out => map out [0; 1; 2; 3; 4; 5; 6; 7; 8; 9; 10; 11]
  | _ => []
  end = [0; 0; 0; 0; 0; 5; 6; 0; 0; 0; 0; 0].
Proof. vm_compute. reflexivity. Qed.

Example conv2d_3x3_shifted_4x3 :
  match run_lanes (conv2d_3x3_shifted_unrolled_parallel 5 ramp 4 3 ones_3x3)
          1 (constant 0) with
  | Done out => map out [0; 1; 2; 3; 4; 5; 6; 7; 8; 9; 10; 11]
  | _ => []
  end = [0; 0; 0; 0; 0; 5; 6; 0; 0; 0; 0; 0].
Proof. vm_compute. reflexivity. Qed.

(** Without lanes to add, the strided loops never leave: no budget is
    enough. *)
Example zero_lane_count_never_returns :
  conv2d_shifted_parallel 100 ramp 4 3 ones_3x3 1 1 (constant 0) 0 0
  = OutOfFuel.
Proof. vm_compute. reflexivity. Qed.

(** The initialisation of a 5x2 image by two lanes (columns are dealt
    out), and its zeroing. *)
Example init_5x2 :
  match run_lanes (fun o => init_conv2d_image 6 o 5 2) 2 (constant 9) with
  | Done img => map img [0; 1; 2; 3; 4; 5; 6; 7; 8; 9; 10]
  | _ => []
  end = [0; 1; 2; 3; 0; 1; 2; 3; 4; 1; 9].
Proof. vm_compute. reflexivity. Qed.

Example zero_5x2 :
  match run_lanes (fun o => zero_conv2d_image 6 o 5 2) 2 (constant 9) with
  | Done img => map img [0; 1; 2; 3; 4; 5; 6; 7; 8; 9; 10]
  | _ => []
  end = [0; 0; 0; 0; 0; 0; 0; 0; 0; 0; 9].
Proof. vm_compute. reflexivity. Qed.

(** The value returned for a mismatch: the linear index, and -1 for the
    element of row 0, column 0 (which no lane scans). *)
Example failure_codes :
  failure_code 5 1 3 = 8 /\ failure_code 5 0 0 = -1.
Proof. split; reflexivity. Qed.

(** The pattern the verification expects in rows 0, 1, 15 and 16, columns
    0 to 3. *)
Example expected_pattern :
  map (fun i => map (expected_value i) [0; 1; 2; 3]) [0; 1; 15; 16]
  = [[5; 5; 6; 6]; [2; 2; 3; 3]; [12; 12; 13; 13]; [5; 5; 6; 6]].
Proof. vm_compute. reflexivity. Qed.

(** ** Machine arithmetic *)

Lemma to_u_range z : 0 <= to_u z < wB.
Proof. unfold to_u, wB. apply Z.mod_pos_bound. lia. Qed.

Lemma to_u_small z : 0 <= z < wB -> to_u z = z.
Proof. intros. unfold to_u. apply Z.mod_small. assumption. Qed.

Lemma to_s_small z : - half <= z < half -> to_s z = z.
Proof.
  intros. unfold to_s. rewrite Z.mod_small; unfold half, wB in *; lia.
Qed.

Lemma to_s_range z : - half <= to_s z < half.
Proof.
  unfold to_s. pose proof (Z.mod_pos_bound (z + half) wB).
  unfold wB, half in *. lia.
Qed.

Lemma to_u_shift z q : to_u (z + q * wB) = to_u z.
Proof. unfold to_u. apply Z_mod_plus_full. Qed.

Lemma to_s_shift z q : to_s (z + q * wB) = to_s z.
Proof.
  unfold to_s. replace (z + q * wB + half) with (z + half + q * wB) by ring.
  now rewrite Z_mod_plus_full.
Qed.

Lemma to_u_spec z : exists q, to_u z = z + q * wB.
Proof.
  exists (- (z / wB)). unfold to_u.
  pose proof (Z.div_mod z wB). unfold wB in *. lia.
Qed.

Lemma to_s_spec z : exists q, to_s z = z + q * wB.
Proof.
  exists (- ((z + half) / wB)). unfold to_s.
  pose proof (Z.div_mod (z + half) wB). unfold wB in *. lia.
Qed.

Lemma to_u_to_s z : to_u (to_s z) = to_u z.
Proof. destruct (to_s_spec z) as [q ->]. apply to_u_shift. Qed.

Lemma to_s_to_u z : to_s (to_u z) = to_s z.
Proof. destruct (to_u_spec z) as [q ->]. apply to_s_shift. Qed.

Lemma to_u_idem z : to_u (to_u z) = to_u z.
Proof. apply to_u_small, to_u_range. Qed.

Lemma to_u_add a b : to_u (to_u a + to_u b) = to_u (a + b).
Proof. unfold to_u. symmetry. apply Z.add_mod. unfold wB; lia. Qed.

Lemma to_u_mul a b : to_u (to_u a * to_u b) = to_u (a * b).
Proof. unfold to_u. symmetry. apply Z.mul_mod. unfold wB; lia. Qed.

Lemma to_u_add_l a b : to_u (to_u a + b) = to_u (a + b).
Proof. unfold to_u. apply Z.add_mod_idemp_l. unfold wB; lia. Qed.

Lemma to_u_add_r a b : to_u (a + to_u b) = to_u (a + b).
Proof. unfold to_u. apply Z.add_mod_idemp_r. unfold wB; lia. Qed.

Lemma to_u_mul_l a b : to_u (to_u a * b) = to_u (a * b).
Proof. unfold to_u. apply Z.mul_mod_idemp_l. unfold wB; lia. Qed.

Lemma to_u_mul_r a b : to_u (a * to_u b) = to_u (a * b).
Proof. unfold to_u. apply Z.mul_mod_idemp_r. unfold wB; lia. Qed.

(** A linear index stays inside an image of fewer than [bound] elements. *)
Lemma index_bound in_x in_y x y bound :
  0 <= x < in_x -> 0 <= y < in_y -> in_x * in_y <= bound ->
  0 <= y * in_x + x < bound.
Proof. intros. nia. Qed.

Lemma index_inj in_x x y x' y' :
  0 <= x < in_x -> 0 <= x' < in_x -> y * in_x + x = y' * in_x + x' ->
  x = x' /\ y = y'.
Proof.
  intros Hx Hx' E.
  assert (y = y') by nia. subst. lia.
Qed.

(** ** Loops as folds over their iteration space *)

Lemma In_zseq cnt : forall v x, In x (zseq cnt v) <-> v <= x < v + Z.of_nat cnt.
Proof.
  induction cnt as [|c IH]; intros v x; simpl.
  - lia.
  - rewrite IH. lia.
Qed.

Lemma In_zrange lo hi x : In x (zrange lo hi) <-> lo <= x < hi.
Proof. unfold zrange. rewrite In_zseq. lia. Qed.

Lemma In_stride_from cnt : forall i bound step x,
  1 <= step -> (Z.to_nat (bound - i) <= cnt)%nat ->
  (In x (stride_from cnt i bound step) <->
   i <= x < bound /\ (x - i) mod step = 0).
Proof.
  induction cnt as [|c IH]; intros i bound step x Hs Hc; simpl.
  - split; [tauto | lia].
  - destruct (Z.ltb_spec i bound) as [Hlt|Hge]; simpl.
    + rewrite IH by lia. split.
      * intros [<- | [Hr Hm]].
        -- rewrite Z.sub_diag, Z.mod_0_l by lia. lia.
        -- split; [lia|].
           replace (x - i) with (x - (i + step) + 1 * step) by ring.
           now rewrite Z_mod_plus_full.
      * intros [Hr Hm].
        destruct (Z.eq_dec i x) as [->|Hne]; [now left | right].
        apply Z.mod_divide in Hm; [|lia]. destruct Hm as [q Hq].
        assert (1 <= q) by nia.
        split; [nia|].
        replace (x - (i + step)) with ((q - 1) * step) by lia.
        apply Z_mod_mult.
    + split; [tauto | lia].
Qed.

Lemma In_strided lo hi step x :
  1 <= step ->
  (In x (strided lo hi step) <-> lo <= x < hi /\ (x - lo) mod step = 0).
Proof. intros. unfold strided. apply In_stride_from; lia. Qed.

Lemma stride_from_stable c1 : forall c2 i bound step,
  1 <= step ->
  (Z.to_nat (bound - i) <= c1)%nat -> (Z.to_nat (bound - i) <= c2)%nat ->
  stride_from c1 i bound step = stride_from c2 i bound step.
Proof.
  induction c1 as [|c IH]; intros c2 i bound step Hs H1 H2.
  - destruct c2 as [|c2]; simpl; [reflexivity|].
    destruct (Z.ltb_spec i bound); [lia | reflexivity].
  - destruct c2 as [|c2]; simpl.
    + destruct (Z.ltb_spec i bound); [lia | reflexivity].
    + destruct (Z.ltb_spec i bound); [|reflexivity].
      f_equal. apply IH; lia.
Qed.

Lemma stride_from_enough cnt i bound step :
  1 <= step -> (Z.to_nat (bound - i) <= cnt)%nat ->
  stride_from cnt i bound step = strided i bound step.
Proof. intros. unfold strided. apply stride_from_stable; lia. Qed.

Section Loops.
Context {E A : Type}.
Implicit Types (body : Z -> A -> outcome E A) (a : A).

Lemma for_up_fold cnt : forall v body a,
  for_up cnt v body a = fold_outcome body (zseq cnt v) a.
Proof.
  induction cnt as [|c IH]; intros; simpl; [reflexivity|].
  destruct (body v a); simpl; auto.
Qed.

Lemma for_range_fold lo hi body a :
  for_range lo hi body a = fold_outcome body (zrange lo hi) a.
Proof. apply for_up_fold. Qed.

Lemma for_stride_fold_cnt cnt : forall fuel i bound step body a,
  0 <= i -> 1 <= step -> bound + step <= wB ->
  (Z.to_nat (bound - i) <= cnt)%nat -> (cnt < fuel)%nat ->
  for_stride fuel i bound step body a
  = fold_outcome body (stride_from cnt i bound step) a.
Proof.
  induction cnt as [|c IH]; intros fuel i bound step body a Hi Hs Hb Hc Hf;
    (destruct fuel as [|f]; [lia|]); simpl.
  - destruct (Z.ltb_spec i bound); [lia | reflexivity].
  - destruct (Z.ltb_spec i bound) as [Hlt|Hge]; [|reflexivity].
    simpl. destruct (body i a); simpl; auto.
    unfold addu. rewrite to_u_small by lia.
    apply IH; lia.
Qed.

(** With enough fuel a strided loop visits exactly its progression. *)
Lemma for_stride_fold fuel i bound step body a :
  0 <= i -> 1 <= step -> bound + step <= wB ->
  (Z.to_nat (bound - i) < fuel)%nat ->
  for_stride fuel i bound step body a
  = fold_outcome body (strided i bound step) a.
Proof.
  intros. unfold strided. apply for_stride_fold_cnt; lia.
Qed.

Lemma fold_outcome_ext {X} (f g : X -> A -> outcome E A) xs : forall a,
  (forall x a, In x xs -> f x a = g x a) ->
  fold_outcome f xs a = fold_outcome g xs a.
Proof.
  induction xs as [|x xs IH]; intros a H; simpl; [reflexivity|].
  rewrite (H x a) by now left.
  destruct (g x a); simpl; auto. apply IH. intros; apply H; now right.
Qed.

Lemma fold_outcome_app {X} (f : X -> A -> outcome E A) xs ys a :
  fold_outcome f (xs ++ ys) a
  = bind (fold_outcome f xs a) (fold_outcome f ys).
Proof.
  revert a. induction xs as [|x xs IH]; intros a; simpl; [reflexivity|].
  destruct (f x a); simpl; auto.
Qed.

Lemma fold_outcome_row (f : Z -> Z -> A -> outcome E A) x ys : forall a,
  fold_outcome (f x) ys a
  = fold_outcome (fun c => f (fst c) (snd c)) (map (pair x) ys) a.
Proof.
  induction ys as [|y ys IHy]; intros a; simpl; [reflexivity|].
  destruct (f x y a); simpl; auto.
Qed.

(** Two nested loops are one loop over the grid of their indices. *)
Lemma fold_outcome_grid (f : Z -> Z -> A -> outcome E A) ys xs : forall a,
  fold_outcome (fun x => fold_outcome (f x) ys) xs a
  = fold_outcome (fun c => f (fst c) (snd c)) (grid xs ys) a.
Proof.
  induction xs as [|x xs IH]; intros a; simpl; [reflexivity|].
  rewrite fold_outcome_app, <- fold_outcome_row.
  destruct (fold_outcome (f x) ys a); simpl; auto.
Qed.

(** A loop whose body never stops is a plain fold. *)
Lemma fold_outcome_done {X} (f : X -> A -> outcome E A) (g : X -> A -> A) xs :
  forall a,
  (forall x a, In x xs -> f x a = Done (g x a)) ->
  fold_outcome f xs a = Done (fold_left (fun a x => g x a) xs a).
Proof.
  induction xs as [|x xs IH]; intros a H; simpl; [reflexivity|].
  rewrite (H x a) by now left. simpl. apply IH. intros; apply H; now right.
Qed.

(** A loop whose body never aborts does not abort. *)
Lemma fold_outcome_no_abort {X} (f : X -> A -> outcome E A) xs : forall a e,
  (forall x a e, f x a <> Abort e) -> fold_outcome f xs a <> Abort e.
Proof.
  induction xs as [|x xs IH]; intros a e H; simpl; [discriminate|].
  destruct (f x a) eqn:Ef; simpl; [apply IH; assumption | | discriminate].
  exfalso. eapply H; eassumption.
Qed.

Lemma for_stride_no_abort fuel : forall i bound step body a e,
  (forall x a e, body x a <> Abort e) ->
  for_stride fuel i bound step body a <> Abort e.
Proof.
  induction fuel as [|f IH]; intros i bound step body a e H; simpl;
    [discriminate|].
  destruct (i <? bound); [|discriminate].
  destruct (body i a) eqn:Eb; simpl; [apply IH; assumption | | discriminate].
  exfalso. eapply H; eassumption.
Qed.
End Loops.

Lemma In_grid xs ys c : In c (grid xs ys) <-> In (fst c) xs /\ In (snd c) ys.
Proof.
  unfold grid. rewrite in_flat_map. destruct c as [x y]; simpl. split.
  - intros [x' [Hx Hy]]. apply in_map_iff in Hy as [y' [Heq Hy']].
    inversion Heq; subst. auto.
  - intros [Hx Hy]. exists x. split; [assumption|]. now apply in_map.
Qed.

(** ** Write traces *)

Lemma apply_writes_app ws1 ws2 out :
  apply_writes (ws1 ++ ws2) out = apply_writes ws2 (apply_writes ws1 out).
Proof. unfold apply_writes. apply fold_left_app. Qed.

(** An element no store of the trace addresses keeps its value. *)
Lemma apply_writes_miss ws : forall out p,
  (forall w, In w ws -> fst w <> p) -> apply_writes ws out p = out p.
Proof.
  induction ws as [|w ws IH]; intros out p H; simpl; [reflexivity|].
  unfold apply_writes in *. simpl. rewrite IH by (intros; apply H; now right).
  unfold store. destruct (Z.eqb_spec p (fst w)); [|reflexivity].
  exfalso. apply (H w); [now left | congruence].
Qed.

(** An element addressed by the trace, always with the same value, ends up
    holding that value. *)
Lemma apply_writes_hit ws : forall out p v,
  In (p, v) ws -> (forall v', In (p, v') ws -> v' = v) ->
  apply_writes ws out p = v.
Proof.
  induction ws as [|w ws IH] using rev_ind; intros out p v Hin Hv;
    [destruct Hin|].
  rewrite apply_writes_app. unfold apply_writes at 1. simpl.
  unfold store. destruct (Z.eqb_spec p (fst w)) as [Heq|Hne].
  - apply Hv. apply in_or_app. right. left.
    destruct w; simpl in *; congruence.
  - apply in_app_or in Hin as [Hin|[Hin|[]]].
    + apply IH; [assumption|]. intros; apply Hv, in_or_app; now left.
    + subst w. simpl in Hne. congruence.
Qed.

Lemma fold_outcome_writes {E X} (f : X -> buffer -> outcome E buffer)
    (w : X -> Z * Z) xs out :
  (forall x o, In x xs -> f x o = Done (store o (fst (w x)) (snd (w x)))) ->
  fold_outcome f xs out = Done (apply_writes (map w xs) out).
Proof.
  intros H.
  rewrite (fold_outcome_done f (fun x o => store o (fst (w x)) (snd (w x))))
    by assumption.
  f_equal. unfold apply_writes. revert out.
  induction xs as [|x xs IH]; intros out; simpl; [reflexivity|].
  apply IH. intros; apply H; now right.
Qed.

(** ** The lane ids *)

Lemma In_lane_ids n id : In id (lane_ids n) <-> 0 <= id < n.
Proof. unfold lane_ids. rewrite In_zseq. lia. Qed.

(** Running the lanes one after the other concatenates their traces. *)
Lemma fold_lanes_writes {E} (kernel : Z -> buffer -> outcome E buffer)
    (W : Z -> list (Z * Z)) ids : forall out,
  (forall id o, In id ids -> kernel id o = Done (apply_writes (W id) o)) ->
  fold_outcome kernel ids out = Done (apply_writes (flat_map W ids) out).
Proof.
  induction ids as [|id ids IH]; intros out H; simpl; [reflexivity|].
  rewrite (H id out) by now left. simpl.
  rewrite apply_writes_app. apply IH. intros; apply H; now right.
Qed.

(** ** Congruences *)

Lemma mod0_trans a b c n :
  1 <= n -> (a - b) mod n = 0 -> (b - c) mod n = 0 -> (a - c) mod n = 0.
Proof.
  intros Hn H1 H2.
  apply Z.mod_divide in H1; [|lia]. apply Z.mod_divide in H2; [|lia].
  apply Z.mod_divide; [lia|].
  replace (a - c) with ((a - b) + (b - c)) by ring.
  now apply Z.divide_add_r.
Qed.

Lemma mod0_sym a b n : 1 <= n -> (a - b) mod n = 0 -> (b - a) mod n = 0.
Proof.
  intros Hn H. apply Z.mod_divide in H; [|lia]. apply Z.mod_divide; [lia|].
  replace (b - a) with (- (a - b)) by ring. now apply Z.divide_opp_r.
Qed.

(** Two values of one residue class less than a stride apart are equal. *)
Lemma mod0_close a b n :
  1 <= n -> (a - b) mod n = 0 -> - n < a - b < n -> a = b.
Proof.
  intros Hn H Hr. apply Z.mod_divide in H; [|lia]. destruct H as [q Hq].
  assert (Hq0 : q = 0) by (destruct (Z_lt_le_dec q 1); nia).
  subst q. lia.
Qed.

Lemma mod0_residue x n : 1 <= n -> (x - x mod n) mod n = 0.
Proof.
  intros. rewrite Zminus_mod_idemp_r, Z.sub_diag. apply Z.mod_0_l. lia.
Qed.

(** ** Skipping the left boundary *)

Lemma skip_boundary_spec {E} fuel : forall id b n,
  0 <= id < wB -> 1 <= n -> b + n <= wB ->
  (Z.to_nat (b - id) < fuel)%nat ->
  exists first,
    skip_boundary (E := E) fuel id b n = Done first /\
    id <= first < wB /\ b <= first /\ (first - id) mod n = 0 /\
    (first = id \/ first - n < b).
Proof.
  induction fuel as [|f IH]; intros id b n Hid Hn Hb Hf; [lia|].
  simpl. destruct (Z.ltb_spec id b) as [Hlt|Hge].
  - unfold addu. rewrite to_u_small by lia.
    destruct (IH (id + n) b n) as (first & Hrun & Hr & Hbf & Hm & Hmin);
      try lia.
    exists first.
    split; [assumption|]. split; [lia|]. split; [lia|]. split; [|right; lia].
    replace (first - id) with (first - (id + n) + 1 * n) by ring.
    now rewrite Z_mod_plus_full.
  - exists id.
    split; [reflexivity|]. split; [lia|]. split; [lia|]. split; [|now left].
    rewrite Z.sub_diag. apply Z.mod_0_l. lia.
Qed.

(** ** The iteration space of the centred kernel *)

Section CentredLoop.
Variables in_x in_y k_x k_y numThreads : Z.
Hypothesis Hfit : fits in_x in_y.
Hypothesis Hlanes : lanes numThreads.
Hypothesis Hkx : 0 <= k_x /\ k_x / 2 <= in_x.
Hypothesis Hky : 0 <= k_y /\ k_y / 2 <= in_y.

Let bx := k_x / 2.
Let by_ := k_y / 2.

Lemma boundary_signed : to_s bx = bx /\ to_s by_ = by_ /\ 0 <= bx /\ 0 <= by_.
Proof.
  destruct Hfit as (Hx & Hy & _).
  assert (0 <= bx) by (apply Z.div_pos; lia).
  assert (0 <= by_) by (apply Z.div_pos; lia).
  subst bx by_. rewrite !to_s_small by lia. lia.
Qed.

(** The lane of id [id] executes its body on the grid of the columns
    [x] of [bx, in_x - bx) with [x >= id] in the residue class of [id],
    and of all rows of [by, in_y - by). *)
Lemma conv2d_parallel_loop_spec fuel id :
  0 <= id < half -> (Z.to_nat in_x < fuel)%nat ->
  exists cols,
    (forall x, In x cols <->
       bx <= x < in_x - bx /\ id <= x /\ (x - id) mod numThreads = 0) /\
    forall A (body : Z -> Z -> A -> outcome fault A) (a : A),
      conv2d_parallel_loop fuel in_x in_y k_x k_y id numThreads body a
      = fold_outcome (fun c => body (fst c) (snd c))
          (grid cols (zrange by_ (in_y - by_))) a.
Proof.
  intros Hid Hfuel.
  destruct boundary_signed as (Sx & Sy & Px & Py).
  destruct Hfit as (Hx & Hy & Hxy). destruct Hlanes as [Hn1 Hn2].
  unfold wB, half in *.
  destruct (skip_boundary_spec (E := fault) fuel id bx numThreads)
    as (first & Hskip & Hf1 & Hf2 & Hf3 & Hf4); unfold wB; try lia.
  exists (strided first (in_x - bx) numThreads). split.
  - intros x. rewrite In_strided by lia. split.
    + intros [Hr Hm]. split; [lia|]. split; [lia|].
      eapply mod0_trans; eauto.
    + intros (Hr & Hge & Hm). 
      assert (Hxf : (x - first) mod numThreads = 0).
      { eapply mod0_trans; [lia | exact Hm |]. apply mod0_sym; [lia|assumption]. }
      assert (first <= x).
      { destruct Hf4 as [->|Hmin]; [lia|].
        destruct (Z_lt_le_dec x first) as [Hlt|]; [|assumption].
        assert (x = first) by (apply (mod0_close x first numThreads); lia).
        lia. }
      split; [lia | assumption].
  - intros A body a. unfold conv2d_parallel_loop.
    fold bx by_. rewrite Sx, Sy.
    rewrite (to_u_small bx), (to_u_small by_) by (unfold wB; lia).
    rewrite Hskip. simpl.
    rewrite to_u_to_s, (to_u_small first) by (unfold wB; lia).
    unfold subu. rewrite !to_u_small by (unfold wB; lia).
    rewrite for_stride_fold by (unfold wB; lia).
    rewrite <- fold_outcome_grid.
    apply fold_outcome_ext. intros iu o Hin.
    apply In_strided in Hin; [|lia].
    rewrite for_range_fold.
    rewrite (to_s_small iu) by (unfold half; lia).
    apply fold_outcome_ext. intros ju o' Hj.
    apply In_zrange in Hj.
    rewrite (to_s_small ju) by (unfold half; lia). reflexivity.
Qed.
End CentredLoop.

(** ** Traces that write pixels of an image *)

Lemma finite_choice {W} (P : Z -> W -> Prop) ids :
  (forall id, In id ids -> exists w, P id w) ->
  forall d : W, exists f, forall id, In id ids -> P id (f id).
Proof.
  induction ids as [|i ids IH]; intros H d.
  - exists (fun _ => d). intros id [].
  - destruct (H i (or_introl eq_refl)) as [w Hw].
    destruct IH with (d := d) as [f Hf]; [intros; apply H; now right|].
    exists (fun x => if Z.eq_dec x i then w else f x).
    intros id Hin. destruct (Z.eq_dec id i) as [->|Hne]; [assumption|].
    destruct Hin as [<-|Hin]; [congruence | now apply Hf].
Qed.

Section PixelTrace.
Variables (in_x : Z) (D : Z -> Z -> Prop) (pix : Z -> Z -> Z).
Variable ws : list (Z * Z).
Hypothesis D_col : forall x y, D x y -> 0 <= x < in_x.
Hypothesis ws_pixels :
  forall w, In w ws -> exists x y, D x y /\ w = (y * in_x + x, pix x y).

Lemma pixel_trace_frame out p :
  (forall x y, D x y -> p <> y * in_x + x) -> apply_writes ws out p = out p.
Proof.
  intros H. apply apply_writes_miss. intros w Hin.
  destruct (ws_pixels w Hin) as (x & y & HD & ->). simpl.
  intro Heq. apply (H x y HD). congruence.
Qed.

Lemma pixel_trace_hit out x y :
  D x y -> In (y * in_x + x, pix x y) ws ->
  apply_writes ws out (y * in_x + x) = pix x y.
Proof.
  intros HD Hin. apply apply_writes_hit; [assumption|].
  intros v' Hin'. destruct (ws_pixels _ Hin') as (x' & y' & HD' & Heq).
  inversion Heq as [[Hidx Hv]].
  destruct (index_inj in_x x y x' y') as [-> ->]; eauto.
Qed.
End PixelTrace.

Lemma pixel_index_small in_x in_y x y :
  fits in_x in_y -> 0 <= x < in_x -> 0 <= y < in_y ->
  pixel_index in_x y x = y * in_x + x.
Proof.
  intros (Hx & Hy & Hxy) Rx Ry. unfold pixel_index, addu, mulu.
  assert (0 <= y * in_x + x < half) by (apply (index_bound in_x in_y); lia).
  unfold half, wB in *.
  rewrite (to_u_small y), (to_u_small x) by (unfold wB; lia).
  rewrite to_u_add_l. apply to_u_small. unfold wB; lia.
Qed.

Lemma store_quotient_done out idx sum weight :
  weight <> 0 ->
  store_quotient out idx sum weight = Done (store out idx (quotient sum weight)).
Proof.
  intros H. unfold store_quotient.
  destruct (Z.eqb_spec weight 0); [contradiction | reflexivity].
Qed.

(** What the lanes leave behind when each lane [id] writes the pixels of
    the domain [D] that it owns ([L id]): every owned pixel of the domain
    holds its value, and everything outside the domain is untouched. *)
Lemma run_lanes_pixels {E} (kernel : buffer -> Z -> Z -> outcome E buffer)
    (in_x n : Z) (D : Z -> Z -> Prop) (L : Z -> Z -> Z -> Prop)
    (pix : Z -> Z -> Z) (out : buffer) :
  (forall x y, D x y -> 0 <= x < in_x) ->
  (forall id, 0 <= id < n ->
     exists ws,
       (forall w, In w ws <->
          exists x y, (D x y /\ L id x y) /\ w = (y * in_x + x, pix x y)) /\
       forall o, kernel o id n = Done (apply_writes ws o)) ->
  exists out',
    run_lanes kernel n out = Done out' /\
    (forall x y, D x y -> (exists id, 0 <= id < n /\ L id x y) ->
                 out' (y * in_x + x) = pix x y) /\
    (forall p, (forall x y, D x y -> p <> y * in_x + x) -> out' p = out p).
Proof.
  intros Hcol Hlane.
  destruct (finite_choice
    (fun id ws =>
       (forall w, In w ws <->
          exists x y, (D x y /\ L id x y) /\ w = (y * in_x + x, pix x y)) /\
       forall o, kernel o id n = Done (apply_writes ws o)) (lane_ids n))
    with (d := @nil (Z * Z)) as [W HW].
  { intros id Hin. apply In_lane_ids in Hin. now apply Hlane. }
  exists (apply_writes (flat_map W (lane_ids n)) out).
  assert (Htrace : forall w, In w (flat_map W (lane_ids n)) ->
            exists x y, D x y /\ w = (y * in_x + x, pix x y)).
  { intros w Hin. apply in_flat_map in Hin as (id & Hid & Hw).
    apply (HW id Hid) in Hw as (x & y & (HD & _) & ->). eauto. }
  split; [|split].
  - unfold run_lanes. apply fold_lanes_writes.
    intros id o Hin. apply (HW id Hin).
  - intros x y HD (id & Hid & HL).
    apply (pixel_trace_hit in_x D pix); auto.
    apply in_flat_map. exists id.
    assert (Hl : In id (lane_ids n)) by now apply In_lane_ids.
    split; [assumption|]. apply (HW _ Hl). exists x, y. auto.
  - intros p Hp. apply (pixel_trace_frame in_x D pix); auto.
Qed.

(** ** The centred kernel, lane by lane *)

Section Centred.
Variables (inp k : buffer) (in_x in_y k_x k_y numThreads : Z).
Hypothesis Hfit : fits in_x in_y.
Hypothesis Hlanes : lanes numThreads.
Hypothesis Hkx : 0 <= k_x /\ k_x / 2 <= in_x.
Hypothesis Hky : 0 <= k_y /\ k_y / 2 <= in_y.
Hypothesis Hweight : weight_sum k (mulu k_x k_y) <> 0.

Let bx := k_x / 2.
Let by_ := k_y / 2.
Let pix := conv2d_parallel_pixel inp in_x k k_x k_y.

Lemma conv2d_parallel_lane fuel id :
  0 <= id < half -> (Z.to_nat in_x < fuel)%nat ->
  exists ws,
    (forall w, In w ws <->
       exists x y, (interior in_x in_y bx by_ x y /\
                    id <= x /\ (x - id) mod numThreads = 0) /\
                   w = (y * in_x + x, pix x y)) /\
    forall out,
      conv2d_parallel fuel inp in_x in_y k k_x k_y out id numThreads
      = Done (apply_writes ws out).
Proof.
  intros Hid Hfuel.
  destruct (conv2d_parallel_loop_spec in_x in_y k_x k_y numThreads
              Hfit Hlanes Hkx Hky fuel id Hid Hfuel) as (cols & Hcols & Hrun).
  fold bx by_ in Hcols, Hrun.
  destruct (boundary_signed in_x in_y k_x k_y Hfit Hkx Hky)
    as (_ & _ & Px & Py). fold bx by_ in Px, Py.
  set (wr := fun c : Z * Z => (snd c * in_x + fst c, pix (fst c) (snd c))).
  exists (map wr (grid cols (zrange by_ (in_y - by_)))). split.
  - intros w. rewrite in_map_iff. split.
    + intros ([x y] & <- & Hin). apply In_grid in Hin as [Hc Hr]. simpl in *.
      apply Hcols in Hc. apply In_zrange in Hr.
      exists x, y. unfold interior. tauto.
    + intros (x & y & ((Hc & Hr) & Hge & Hm) & ->).
      exists (x, y). split; [reflexivity|].
      apply In_grid. simpl. split; [apply Hcols; tauto | now apply In_zrange].
  - intros out. unfold conv2d_parallel. rewrite Hrun.
    apply fold_outcome_writes. intros [x y] o Hin. simpl.
    apply In_grid in Hin as [Hc Hr]. simpl in *.
    apply Hcols in Hc. apply In_zrange in Hr.
    unfold conv2d_parallel_body.
    change (addu (mulu (to_u y) in_x) (to_u x)) with (pixel_index in_x y x).
    rewrite (pixel_index_small in_x in_y) by (assumption || lia).
    now rewrite store_quotient_done.
Qed.

(** All lanes together write every pixel of the valid interior, and
    nothing else. *)
Lemma conv2d_parallel_run fuel out :
  (Z.to_nat in_x < fuel)%nat ->
  exists out',
    run_lanes (fun o => conv2d_parallel fuel inp in_x in_y k k_x k_y o)
      numThreads out = Done out' /\
    (forall x y, interior in_x in_y bx by_ x y ->
                 out' (y * in_x + x) = pix x y) /\
    (forall p, (forall x y, interior in_x in_y bx by_ x y ->
                            p <> y * in_x + x) -> out' p = out p).
Proof.
  intros Hfuel. destruct Hlanes as [Hn1 Hn2].
  destruct (boundary_signed in_x in_y k_x k_y Hfit Hkx Hky)
    as (_ & _ & Px & Py). fold bx by_ in Px, Py.
  destruct (run_lanes_pixels
    (fun o => conv2d_parallel fuel inp in_x in_y k k_x k_y o)
    in_x numThreads (interior in_x in_y bx by_)
    (fun id x _ => id <= x /\ (x - id) mod numThreads = 0) pix out)
    as (out' & Hrun & Hhit & Hframe).
  { unfold interior. intros; lia. }
  { intros id Hid. apply conv2d_parallel_lane; [lia | assumption]. }
  exists out'. split; [assumption|]. split; [|assumption].
  intros x y HD. apply Hhit; [assumption|].
  exists (x mod numThreads).
  assert (0 <= x mod numThreads < numThreads) by (apply Z.mod_pos_bound; lia).
  split; [assumption|]. split; [|apply mod0_residue; lia].
  unfold interior in HD. pose proof (Z.mod_le x numThreads). lia.
Qed.
End Centred.

Lemma index_small in_x in_y x y :
  fits in_x in_y -> 0 <= x < in_x -> 0 <= y < in_y ->
  addu (mulu y in_x) x = y * in_x + x.
Proof.
  intros (Hx & Hy & Hxy) Rx Ry. unfold addu, mulu.
  assert (0 <= y * in_x + x < half) by (apply (index_bound in_x in_y); lia).
  rewrite to_u_add_l. apply to_u_small. unfold half, wB in *; lia.
Qed.

(** ** The shifted kernel, lane by lane *)

Section Shifted.
Variables (inp k : buffer) (in_x in_y k_x k_y numThreads : Z).
Hypothesis Hfit : fits in_x in_y.
Hypothesis Hlanes : lanes numThreads.
Hypothesis Hkx : 0 <= k_x /\ 2 * (k_x / 2) <= in_x.
Hypothesis Hky : 0 <= k_y /\ 2 * (k_y / 2) <= in_y.

Let bx := k_x / 2.
Let by_ := k_y / 2.

Lemma conv2d_shifted_loop_spec fuel id :
  0 <= id < half -> (Z.to_nat in_x < fuel)%nat ->
  forall A (body : Z -> Z -> A -> outcome fault A) (a : A),
    conv2d_shifted_loop fuel in_x in_y k_x k_y id numThreads body a
    = fold_outcome (fun c => body (fst c) (snd c))
        (grid (strided id (in_x - 2 * bx) numThreads)
              (zrange 0 (in_y - 2 * by_))) a.
Proof.
  intros Hid Hfuel A body a.
  destruct Hfit as (Hx & Hy & Hxy). destruct Hlanes as [Hn1 Hn2].
  assert (0 <= bx) by (apply Z.div_pos; lia).
  assert (0 <= by_) by (apply Z.div_pos; lia).
  unfold conv2d_shifted_loop. fold bx by_. unfold subu, mulu.
  unfold half, wB in *.
  rewrite (to_u_small (2 * bx)), (to_u_small (2 * by_)) by (unfold wB; lia).
  rewrite !to_u_small by (unfold wB; lia).
  rewrite for_stride_fold by (unfold wB; lia).
  rewrite <- fold_outcome_grid.
  apply fold_outcome_ext. intros i o _. apply for_range_fold.
Qed.

Hypothesis Hweight : weight_sum k (mulu k_x k_y) <> 0.
Let pix := conv2d_shifted_pixel inp in_x k k_x k_y.

Lemma conv2d_shifted_lane fuel id :
  0 <= id < half -> (Z.to_nat in_x < fuel)%nat ->
  exists ws,
    (forall w, In w ws <->
       exists x y, (interior in_x in_y bx by_ x y /\
                    id <= x - bx /\ (x - bx - id) mod numThreads = 0) /\
                   w = (y * in_x + x, pix x y)) /\
    forall out,
      conv2d_shifted_parallel fuel inp in_x in_y k k_x k_y out id numThreads
      = Done (apply_writes ws out).
Proof.
  intros Hid Hfuel.
  pose proof (conv2d_shifted_loop_spec fuel id Hid Hfuel) as Hrun.
  assert (Px : 0 <= bx) by (apply Z.div_pos; lia).
  assert (Py : 0 <= by_) by (apply Z.div_pos; lia).
  destruct Hlanes as [Hn1 Hn2].
  set (wr := fun c : Z * Z =>
    ((snd c + by_) * in_x + (fst c + bx), pix (fst c + bx) (snd c + by_))).
  exists (map wr (grid (strided id (in_x - 2 * bx) numThreads)
                       (zrange 0 (in_y - 2 * by_)))). split.
  - intros w. rewrite in_map_iff. split.
    + intros ([i j] & <- & Hin). apply In_grid in Hin as [Hc Hr]. cbn [fst snd] in *.
      apply In_strided in Hc; [|lia]. apply In_zrange in Hr.
      exists (i + bx), (j + by_). unfold interior.
      replace (i + bx - bx) with i by ring.
      split; [|reflexivity]. split; [lia | tauto].
    + intros (x & y & ((Hc & Hr) & Hge & Hm) & ->).
      exists (x - bx, y - by_). unfold wr; cbn [fst snd].
      replace (x - bx + bx) with x by ring.
      replace (y - by_ + by_) with y by ring.
      split; [reflexivity|].
      apply In_grid. cbn [fst snd]. split.
      * apply In_strided; [lia|]. split; [lia | assumption].
      * apply In_zrange. lia.
  - intros out. unfold conv2d_shifted_parallel. rewrite Hrun.
    apply fold_outcome_writes. intros [i j] o Hin. unfold wr. cbn [fst snd].
    apply In_grid in Hin as [Hc Hr]. cbn [fst snd] in *.
    apply In_strided in Hc; [|lia]. apply In_zrange in Hr.
    unfold conv2d_shifted_body. fold bx by_.
    destruct Hfit as (Hx & Hy & Hxy). unfold half, wB in *.
    unfold addu at 2 3.
    rewrite (to_u_small (j + by_)), (to_u_small (i + bx)) by (unfold wB; lia).
    rewrite (index_small in_x in_y) by (assumption || lia).
    rewrite store_quotient_done by assumption.
    unfold pix, conv2d_shifted_pixel. fold bx by_.
    replace (i + bx - bx) with i by ring.
    replace (j + by_ - by_) with j by ring. reflexivity.
Qed.

Lemma conv2d_shifted_run fuel out :
  (Z.to_nat in_x < fuel)%nat ->
  exists out',
    run_lanes (fun o => conv2d_shifted_parallel fuel inp in_x in_y k k_x k_y o)
      numThreads out = Done out' /\
    (forall x y, interior in_x in_y bx by_ x y ->
                 out' (y * in_x + x) = pix x y) /\
    (forall p, (forall x y, interior in_x in_y bx by_ x y ->
                            p <> y * in_x + x) -> out' p = out p).
Proof.
  intros Hfuel. destruct Hlanes as [Hn1 Hn2].
  assert (Px : 0 <= bx) by (apply Z.div_pos; lia).
  destruct (run_lanes_pixels
    (fun o => conv2d_shifted_parallel fuel inp in_x in_y k k_x k_y o)
    in_x numThreads (interior in_x in_y bx by_)
    (fun id x _ => id <= x - bx /\ (x - bx - id) mod numThreads = 0) pix out)
    as (out' & Hrun & Hhit & Hframe).
  { unfold interior. intros; lia. }
  { intros id Hid. apply conv2d_shifted_lane; [lia | assumption]. }
  exists out'. split; [assumption|]. split; [|assumption].
  intros x y HD. apply Hhit; [assumption|].
  exists ((x - bx) mod numThreads).
  assert (0 <= (x - bx) mod numThreads < numThreads)
    by (apply Z.mod_pos_bound; lia).
  split; [assumption|]. split; [|apply mod0_residue; lia].
  unfold interior in HD. pose proof (Z.mod_le (x - bx) numThreads). lia.
Qed.
End Shifted.

(** ** The two window sums agree *)

Lemma loop_up_shift {A} cnt : forall v d (f g : Z -> A -> A) a,
  (forall t acc, v <= t < v + Z.of_nat cnt -> f t acc = g (t + d) acc) ->
  loop_up cnt v f a = loop_up cnt (v + d) g a.
Proof.
  induction cnt as [|c IH]; intros v d f g a H; simpl; [reflexivity|].
  rewrite (H v a) by lia.
  replace (v + d + 1) with (v + 1 + d) by ring.
  apply IH. intros; apply H; lia.
Qed.

Lemma for_pure_reindex {A} lo hi lo' hi' (f g : Z -> A -> A) a :
  hi - lo = hi' - lo' ->
  (forall t acc, lo <= t < hi -> f t acc = g (t + (lo' - lo)) acc) ->
  for_pure lo hi f a = for_pure lo' hi' g a.
Proof.
  intros Hlen H. unfold for_pure. rewrite <- Hlen.
  replace lo' with (lo + (lo' - lo)) at 1 by ring.
  apply loop_up_shift. intros; apply H; lia.
Qed.

Lemma half_kernel k_x : 0 <= k_x -> 0 <= k_x / 2 /\ 0 <= k_x - 2 * (k_x / 2) <= 1.
Proof.
  intros. pose proof (Z.div_mod k_x 2). pose proof (Z.mod_pos_bound k_x 2).
  assert (0 <= k_x / 2) by (apply Z.div_pos; lia). lia.
Qed.

Section SameWindow.
Variables (inp k : buffer) (in_x in_y k_x k_y : Z).
Hypothesis Hfit : fits in_x in_y.
Hypothesis Hkx : 0 <= k_x /\ 2 * (k_x / 2) <= in_x.
Hypothesis Hky : 0 <= k_y /\ 2 * (k_y / 2) <= in_y.

Let bx := k_x / 2.
Let by_ := k_y / 2.

Lemma centred_shifted_sum x y :
  interior in_x in_y bx by_ x y ->
  conv2d_parallel_sum inp in_x k k_x k_y x y
  = conv2d_shifted_sum inp in_x k k_x k_y (x - bx) (y - by_).
Proof.
  intros [Rx Ry].
  destruct Hfit as (Hx & Hy & Hxy).
  destruct (half_kernel k_x) as [Px Qx]; [tauto|].
  destruct (half_kernel k_y) as [Py Qy]; [tauto|].
  fold bx in Px, Qx. fold by_ in Py, Qy.
  unfold conv2d_parallel_sum, conv2d_shifted_sum. fold bx by_.
  unfold half, wB in *.
  rewrite (to_s_small bx), (to_s_small by_) by (unfold half; lia).
  unfold negi, subu.
  rewrite (to_u_small bx), (to_u_small by_) by (unfold wB; lia).
  rewrite (to_u_small (k_x - bx)), (to_u_small (k_y - by_))
    by (unfold wB; lia).
  rewrite !to_s_small by (unfold half; lia).
  apply for_pure_reindex; [ring|]. intros m acc Hm.
  apply for_pure_reindex; [ring|]. intros n acc' Hn.
  replace (m + (0 - - by_)) with (m + by_) by ring.
  replace (n + (0 - - bx)) with (n + bx) by ring.
  assert (Rm : 0 <= y + m < in_y) by lia.
  assert (Rn : 0 <= x + n < in_x) by lia.
  unfold addi.
  rewrite (to_s_small (y + m)), (to_s_small (x + n)),
    (to_s_small (m + by_)), (to_s_small (n + bx)) by (unfold half; lia).
  rewrite (to_u_small (y + m)), (to_u_small (x + n)),
    (to_u_small (m + by_)), (to_u_small (n + bx)) by (unfold wB; lia).
  assert (Ey : addu (y - by_) (m + by_) = y + m).
  { unfold addu. replace (y - by_ + (m + by_)) with (y + m) by ring.
    apply to_u_small. unfold wB; lia. }
  assert (Ex : addu (x - bx) (n + bx) = x + n).
  { unfold addu. replace (x - bx + (n + bx)) with (x + n) by ring.
    apply to_u_small. unfold wB; lia. }
  rewrite Ey, Ex. reflexivity.
Qed.

Lemma centred_shifted_pixel x y :
  interior in_x in_y bx by_ x y ->
  conv2d_parallel_pixel inp in_x k k_x k_y x y
  = conv2d_shifted_pixel inp in_x k k_x k_y x y.
Proof.
  intros H. unfold conv2d_parallel_pixel, conv2d_shifted_pixel.
  fold bx by_. now rewrite centred_shifted_sum.
Qed.
End SameWindow.

(** ** Ownership of output coordinates in [conv2d_parallel] *)

Lemma fold_outcome_collect {E X} (xs : list X) : forall acc : list X,
  fold_outcome (E := E) (fun x acc => Done (acc ++ [x])) xs acc
  = Done (acc ++ xs).
Proof.
  induction xs as [|x xs IH]; intros acc; simpl.
  - now rewrite app_nil_r.
  - rewrite IH. now rewrite <- app_assoc.
Qed.

(** The coordinates at which a lane of [conv2d_parallel] runs its loop
    body, and the stores it performs there. *)
Lemma conv2d_parallel_coords_spec in_x in_y k_x k_y numThreads fuel id :
  fits in_x in_y -> lanes numThreads ->
  0 <= k_x /\ k_x / 2 <= in_x -> 0 <= k_y /\ k_y / 2 <= in_y ->
  0 <= id < half -> (Z.to_nat in_x < fuel)%nat ->
  exists W,
    conv2d_parallel_coords fuel in_x in_y k_x k_y id numThreads = Done W /\
    (forall x y, In (x, y) W <->
       interior in_x in_y (k_x / 2) (k_y / 2) x y /\
       id <= x /\ (x - id) mod numThreads = 0) /\
    (forall inp k out,
       weight_sum k (mulu k_x k_y) <> 0 ->
       conv2d_parallel fuel inp in_x in_y k k_x k_y out id numThreads
       = Done (apply_writes
                 (map (fun c => (snd c * in_x + fst c,
                                 conv2d_parallel_pixel inp in_x k k_x k_y
                                   (fst c) (snd c))) W) out)).
Proof.
  intros Hfit Hlanes Hkx Hky Hid Hfuel.
  destruct (conv2d_parallel_loop_spec in_x in_y k_x k_y numThreads
              Hfit Hlanes Hkx Hky fuel id Hid Hfuel) as (cols & Hcols & Hrun).
  destruct (boundary_signed in_x in_y k_x k_y Hfit Hkx Hky)
    as (_ & _ & Px & Py).
  assert (Hin : forall x y,
            In (x, y) (grid cols (zrange (k_y / 2) (in_y - k_y / 2))) <->
            interior in_x in_y (k_x / 2) (k_y / 2) x y /\
            id <= x /\ (x - id) mod numThreads = 0).
  { intros x y. rewrite In_grid, Hcols, In_zrange. unfold interior.
    cbn [fst snd]. tauto. }
  exists (grid cols (zrange (k_y / 2) (in_y - k_y / 2))).
  split; [|split].
  - unfold conv2d_parallel_coords. rewrite Hrun.
    rewrite (fold_outcome_ext _ (fun c acc => Done (acc ++ [c]))).
    + apply fold_outcome_collect.
    + intros [x y] acc _. reflexivity.
  - exact Hin.
  - intros inp k out Hw. unfold conv2d_parallel. rewrite Hrun.
    apply fold_outcome_writes. intros [x y] o Hc. cbn [fst snd].
    apply Hin in Hc as ([Hx Hy] & _).
    unfold conv2d_parallel_body.
    change (addu (mulu (to_u y) in_x) (to_u x)) with (pixel_index in_x y x).
    rewrite (pixel_index_small in_x in_y) by (assumption || lia).
    rewrite store_quotient_done by assumption. reflexivity.
Qed.

(** C5.  In a call of [conv2d_parallel] with at least one lane, on an image
    whose dimensions fit the 32-bit arithmetic and are not smaller than the
    kernel's half-widths: every lane of [0, numThreads) runs to completion,
    and what it does to the output is to store, at each coordinate at
    which its loop body runs, the pixel computed there; two distinct lanes
    run their loop body at disjoint sets of coordinates; and the union of
    these sets over all lanes is exactly the valid-output domain, the
    columns [k_x/2, in_x - k_x/2) crossed with the rows
    [k_y/2, in_y - k_y/2). *)
Theorem conv2d_parallel_lanes_partition :
  forall in_x in_y k_x k_y numThreads fuel,
    fits in_x in_y -> lanes numThreads ->
    0 <= k_x /\ k_x / 2 <= in_x -> 0 <= k_y /\ k_y / 2 <= in_y ->
    (Z.to_nat in_x < fuel)%nat ->
    let coords := conv2d_parallel_coords fuel in_x in_y k_x k_y in
    (forall id, 0 <= id < numThreads ->
       exists W,
         coords id numThreads = Done W /\
         forall inp k out,
           0 < weight_sum k (mulu k_x k_y) ->
           conv2d_parallel fuel inp in_x in_y k k_x k_y out id numThreads
           = Done (apply_writes
                     (map (fun c => (snd c * in_x + fst c,
                                     conv2d_parallel_pixel inp in_x k k_x k_y
                                       (fst c) (snd c))) W) out)) /\
    (forall id1 id2 W1 W2,
       0 <= id1 < numThreads -> 0 <= id2 < numThreads -> id1 <> id2 ->
       coords id1 numThreads = Done W1 -> coords id2 numThreads = Done W2 ->
       forall c, In c W1 -> ~ In c W2) /\
    (forall x y,
       interior in_x in_y (k_x / 2) (k_y / 2) x y <->
       exists id W, 0 <= id < numThreads /\
                    coords id numThreads = Done W /\ In (x, y) W).
Proof.
  intros in_x in_y k_x k_y n fuel Hfit Hlanes Hkx Hky Hfuel coords.
  assert (Hlane : forall id, 0 <= id < n ->
            exists W, coords id n = Done W /\
              (forall x y, In (x, y) W <->
                 interior in_x in_y (k_x / 2) (k_y / 2) x y /\
                 id <= x /\ (x - id) mod n = 0) /\
              (forall inp k out,
                 weight_sum k (mulu k_x k_y) <> 0 ->
                 conv2d_parallel fuel inp in_x in_y k k_x k_y out id n
                 = Done (apply_writes
                           (map (fun c => (snd c * in_x + fst c,
                                           conv2d_parallel_pixel inp in_x k
                                             k_x k_y (fst c) (snd c))) W)
                           out))).
  { intros id Hid. apply conv2d_parallel_coords_spec; try assumption.
    destruct Hlanes. lia. }
  assert (Hspec : forall id, 0 <= id < n ->
            exists W, coords id n = Done W /\
              forall x y, In (x, y) W <->
                interior in_x in_y (k_x / 2) (k_y / 2) x y /\
                id <= x /\ (x - id) mod n = 0).
  { intros id Hid. destruct (Hlane id Hid) as (W & HW & Hin & _). eauto. }
  split; [|split].
  - intros id Hid. destruct (Hlane id Hid) as (W & HW & _ & Hrun).
    exists W. split; [assumption|]. intros inp k out Hw. apply Hrun. lia.
  - destruct Hlanes as [Hn1 Hn2].
    intros id1 id2 W1 W2 H1 H2 Hne E1 E2 [x y] In1 In2.
    destruct (Hspec id1 H1) as (W1' & E1' & C1).
    destruct (Hspec id2 H2) as (W2' & E2' & C2).
    rewrite E1 in E1'. rewrite E2 in E2'.
    inversion E1'; inversion E2'; subst W1' W2'.
    apply C1 in In1 as (_ & _ & M1). apply C2 in In2 as (_ & _ & M2).
    apply Hne. apply (mod0_close id1 id2 n); [lia | | lia].
    eapply mod0_trans; [lia | | exact M2].
    apply mod0_sym; [lia | exact M1].
  - destruct Hlanes as [Hn1 Hn2]. intros x y. split.
    + intros HD. exists (x mod n).
      assert (Hr : 0 <= x mod n < n) by (apply Z.mod_pos_bound; lia).
      destruct (Hspec _ Hr) as (W & HW & C). exists W.
      split; [assumption|]. split; [assumption|]. apply C.
      split; [assumption|]. split; [|apply mod0_residue; lia].
      pose proof (Z.mod_le x n). unfold interior in HD.
      assert (0 <= k_x / 2) by (apply Z.div_pos; lia). lia.
    + intros (id & W & Hid & HW & Hin).
      destruct (Hspec id Hid) as (W' & HW' & C).
      rewrite HW in HW'. inversion HW'; subst W'.
      now apply C in Hin.
Qed.

Lemma conv2d_parallel_lanes_partition_witness :
  let coords := conv2d_parallel_coords 6 5 5 3 3 in
  (forall id, 0 <= id < 2 ->
     exists W,
       coords id 2 = Done W /\
       forall inp k out,
         0 < weight_sum k (mulu 3 3) ->
         conv2d_parallel 6 inp 5 5 k 3 3 out id 2
         = Done (apply_writes
                   (map (fun c => (snd c * 5 + fst c,
                                   conv2d_parallel_pixel inp 5 k 3 3
                                     (fst c) (snd c))) W) out)) /\
  (forall id1 id2 W1 W2,
     0 <= id1 < 2 -> 0 <= id2 < 2 -> id1 <> id2 ->
     coords id1 2 = Done W1 -> coords id2 2 = Done W2 ->
     forall c, In c W1 -> ~ In c W2) /\
  (forall x y,
     interior 5 5 (3 / 2) (3 / 2) x y <->
     exists id W, 0 <= id < 2 /\ coords id 2 = Done W /\ In (x, y) W).
Proof.
  apply (conv2d_parallel_lanes_partition 5 5 3 3 2 6).
  - unfold fits, half. lia.
  - unfold lanes, half. lia.
  - split; [lia | now vm_compute].
  - split; [lia | now vm_compute].
  - simpl. lia.
Defined.

(** An index either addresses a pixel of the interior or it does not. *)
Lemma interior_index_dec in_x in_y bx by_ p :
  0 <= bx ->
  (exists x y, interior in_x in_y bx by_ x y /\ p = y * in_x + x) \/
  (forall x y, interior in_x in_y bx by_ x y -> p <> y * in_x + x).
Proof.
  intros Hb. destruct (Z_le_gt_dec in_x 0) as [Hz|Hnz].
  - right. intros x y [Hc _]. lia.
  - set (x := p mod in_x). set (y := p / in_x).
    assert (Hp : p = y * in_x + x).
    { unfold x, y. rewrite Z.mul_comm. apply Z.div_mod. lia. }
    assert (Rx : 0 <= x < in_x) by (apply Z.mod_pos_bound; lia).
    destruct (Z_le_dec bx x), (Z_lt_dec x (in_x - bx)),
      (Z_le_dec by_ y), (Z_lt_dec y (in_y - by_));
      try (left; exists x, y; unfold interior; split; [lia | assumption]);
      right; intros x' y' [Hc Hr] Heq; rewrite Hp in Heq;
      destruct (index_inj in_x x y x' y'); lia.
Qed.

(** ** The centred and the shifted kernel compute the same image *)

(** C1.  For every input image, every kernel with a positive weight sum
    whose window fits the image (odd-sized or not), and every lane count:
    run over all lane ids, [conv2d_parallel] and [conv2d_shifted_parallel]
    complete and leave the same value at every coordinate of the valid
    interior, the coordinates both treat as valid.  Outside the interior
    neither writes, so from equal output buffers they produce equal
    buffers. *)
Theorem conv2d_centred_shifted_agree :
  forall inp k in_x in_y k_x k_y numThreads out1 out2 fuel,
    fits in_x in_y -> lanes numThreads ->
    0 <= k_x /\ 2 * (k_x / 2) <= in_x -> 0 <= k_y /\ 2 * (k_y / 2) <= in_y ->
    0 < weight_sum k (mulu k_x k_y) ->
    (Z.to_nat in_x < fuel)%nat ->
    exists o1 o2,
      run_lanes (fun o => conv2d_parallel fuel inp in_x in_y k k_x k_y o)
        numThreads out1 = Done o1 /\
      run_lanes (fun o => conv2d_shifted_parallel fuel inp in_x in_y k k_x k_y o)
        numThreads out2 = Done o2 /\
      (forall x y, interior in_x in_y (k_x / 2) (k_y / 2) x y ->
                   o1 (y * in_x + x) = o2 (y * in_x + x)) /\
      (forall p, out1 p = out2 p -> o1 p = o2 p).
Proof.
  intros inp k in_x in_y k_x k_y n out1 out2 fuel
    Hfit Hlanes Hkx Hky Hw Hfuel.
  assert (Hw' : weight_sum k (mulu k_x k_y) <> 0) by lia.
  assert (Hkx' : 0 <= k_x /\ k_x / 2 <= in_x).
  { destruct (half_kernel k_x); lia. }
  assert (Hky' : 0 <= k_y /\ k_y / 2 <= in_y).
  { destruct (half_kernel k_y); lia. }
  destruct (conv2d_parallel_run inp k in_x in_y k_x k_y n
              Hfit Hlanes Hkx' Hky' Hw' fuel out1 Hfuel)
    as (o1 & R1 & V1 & F1).
  destruct (conv2d_shifted_run inp k in_x in_y k_x k_y n
              Hfit Hlanes Hkx Hky Hw' fuel out2 Hfuel)
    as (o2 & R2 & V2 & F2).
  assert (Hsame : forall x y, interior in_x in_y (k_x / 2) (k_y / 2) x y ->
            o1 (y * in_x + x) = o2 (y * in_x + x)).
  { intros x y HD. rewrite V1, V2 by assumption.
    now apply (centred_shifted_pixel inp k in_x in_y k_x k_y Hfit Hkx Hky). }
  exists o1, o2. repeat split; try assumption.
  intros p Hp.
  assert (Hb : 0 <= k_x / 2) by (apply Z.div_pos; lia).
  destruct (interior_index_dec in_x in_y (k_x / 2) (k_y / 2) p Hb)
    as [(x & y & HD & ->)|Hout].
  - now apply Hsame.
  - rewrite F1, F2; assumption.
Qed.

Lemma conv2d_centred_shifted_agree_witness :
  exists o1 o2,
    run_lanes (fun o => conv2d_parallel 6 ramp 5 3 ones_3x3 3 3 o)
      2 (constant 0) = Done o1 /\
    run_lanes (fun o => conv2d_shifted_parallel 6 ramp 5 3 ones_3x3 3 3 o)
      2 (constant 0) = Done o2 /\
    (forall x y, interior 5 3 (3 / 2) (3 / 2) x y ->
                 o1 (y * 5 + x) = o2 (y * 5 + x)) /\
    (forall p, constant 0 p = constant 0 p -> o1 p = o2 p).
Proof.
  apply (conv2d_centred_shifted_agree ramp ones_3x3 5 3 3 3 2
           (constant 0) (constant 0) 6).
  - unfold fits, half. lia.
  - unfold lanes, half. lia.
  - split; [lia | now vm_compute].
  - split; [lia | now vm_compute].
  - now vm_compute.
  - simpl. lia.
Defined.

(** ** The unrolled 3x3 kernels, lane by lane *)

Section Unrolled3x3.
Variables (inp k : buffer) (in_x in_y numThreads : Z).
Hypothesis Hfit : fits in_x in_y.
Hypothesis Hweight : weight_sum k 9 <> 0.

Lemma conv2d_3x3_unrolled_lane id :
  1 <= in_x -> 1 <= in_y -> numThreads <> 0 ->
  exists ws,
    (forall w, In w ws <->
       exists x y, (interior in_x in_y 1 1 x y /\
                    block_owns in_x numThreads id x) /\
                   w = (y * in_x + x,
                        conv2d_3x3_unrolled_pixel inp in_x k x y)) /\
    forall out,
      conv2d_3x3_unrolled_parallel inp in_x in_y k out id numThreads
      = Done (apply_writes ws out).
Proof.
  intros Hx1 Hy1 Hn.
  destruct Hfit as (Hx & Hy & Hxy). unfold half in *.
  unfold conv2d_3x3_unrolled_parallel, conv2d_3x3_unrolled_loop, block_owns.
  destruct (block_range in_x id numThreads) as [[s e]| |] eqn:Eb;
    try (unfold block_range in Eb;
         destruct (Z.eqb_spec numThreads 0); [contradiction | discriminate]).
  cbn [bind fst snd].
  unfold clamp_range, subu. cbn [fst snd].
  rewrite (to_u_small (in_x - 1)), (to_u_small (in_y - 1)) by (unfold wB; lia).
  set (s' := if s <? 1 then 1 else s).
  set (e' := if in_x - 1 <? e then in_x - 1 else e).
  assert (Hs : forall x, s' <= x <-> 1 <= x /\ s <= x).
  { intros x. unfold s'. destruct (Z.ltb_spec s 1); lia. }
  assert (He : forall x, x < e' <-> x < in_x - 1 /\ x < e).
  { intros x. unfold e'. destruct (Z.ltb_spec (in_x - 1) e); lia. }
  set (wr := fun c : Z * Z =>
    (snd c * in_x + fst c,
     conv2d_3x3_unrolled_pixel inp in_x k (fst c) (snd c))).
  exists (map wr (grid (zrange s' e') (zrange 1 (in_y - 1)))). split.
  - intros w. rewrite in_map_iff. split.
    + intros ([x y] & <- & Hin). apply In_grid in Hin as [Hc Hr].
      cbn [fst snd] in *. apply In_zrange in Hc, Hr.
      destruct Hc as [Hc1 Hc2]. apply Hs in Hc1. apply He in Hc2.
      exists x, y. unfold interior. split; [lia | reflexivity].
    + intros (x & y & ((Hc & Hr) & Ho) & ->).
      exists (x, y). split; [reflexivity|].
      apply In_grid. cbn [fst snd]. rewrite !In_zrange.
      split; [|lia]. split; [apply Hs | apply He]; lia.
  - intros out. rewrite for_range_fold.
    rewrite (fold_outcome_ext _
      (fun i => fold_outcome
         (conv2d_3x3_unrolled_body inp in_x k (weight_sum k 9) i)
         (zrange 1 (in_y - 1))))
      by (intros; apply for_range_fold).
    rewrite fold_outcome_grid.
    apply fold_outcome_writes. intros [x y] o Hin. unfold wr. cbn [fst snd].
    apply In_grid in Hin as [Hc Hr]. cbn [fst snd] in *.
    apply In_zrange in Hc, Hr.
    destruct Hc as [Hc1 Hc2]. apply Hs in Hc1. apply He in Hc2.
    unfold conv2d_3x3_unrolled_body.
    rewrite (index_small in_x in_y) by (assumption || lia).
    rewrite store_quotient_done by assumption.
    unfold conv2d_3x3_unrolled_pixel. reflexivity.
Qed.

Hypothesis Hlanes : lanes numThreads.

Lemma conv2d_3x3_shifted_lane fuel id :
  2 <= in_x -> 2 <= in_y ->
  0 <= id < half -> (Z.to_nat in_x < fuel)%nat ->
  exists ws,
    (forall w, In w ws <->
       exists x y, (interior in_x in_y 1 1 x y /\
                    id <= x - 1 /\ (x - 1 - id) mod numThreads = 0) /\
                   w = (y * in_x + x,
                        conv2d_3x3_shifted_pixel inp in_x k x y)) /\
    forall out,
      conv2d_3x3_shifted_unrolled_parallel fuel inp in_x in_y k out id
        numThreads = Done (apply_writes ws out).
Proof.
  intros Hx2 Hy2 Hid Hfuel.
  destruct Hfit as (Hx & Hy & Hxy). destruct Hlanes as [Hn1 Hn2].
  unfold half in *.
  set (wr := fun c : Z * Z =>
    ((snd c + 1) * in_x + (fst c + 1),
     conv2d_3x3_shifted_pixel inp in_x k (fst c + 1) (snd c + 1))).
  exists (map wr (grid (strided id (in_x - 2) numThreads)
                       (zrange 0 (in_y - 2)))). split.
  - intros w. rewrite in_map_iff. split.
    + intros ([i j] & <- & Hin). apply In_grid in Hin as [Hc Hr].
      cbn [fst snd] in *.
      apply In_strided in Hc; [|lia]. apply In_zrange in Hr.
      exists (i + 1), (j + 1). unfold interior.
      replace (i + 1 - 1) with i by ring.
      split; [|reflexivity]. split; [lia | tauto].
    + intros (x & y & ((Hc & Hr) & Hge & Hm) & ->).
      exists (x - 1, y - 1). unfold wr; cbn [fst snd].
      replace (x - 1 + 1) with x by ring.
      replace (y - 1 + 1) with y by ring.
      split; [reflexivity|].
      apply In_grid. cbn [fst snd]. split.
      * apply In_strided; [lia|]. split; [lia | assumption].
      * apply In_zrange. lia.
  - intros out.
    unfold conv2d_3x3_shifted_unrolled_parallel, conv2d_3x3_shifted_loop.
    unfold subu.
    rewrite to_u_to_s, (to_u_small id), (to_u_small (in_x - 2)),
      (to_u_small (in_y - 2)) by (unfold wB; lia).
    rewrite for_stride_fold by (unfold wB; lia).
    rewrite (fold_outcome_ext _
      (fun i => fold_outcome
         (conv2d_3x3_shifted_body inp in_x k (weight_sum k 9) i)
         (zrange 0 (in_y - 2)))).
    2:{ intros iu o Hin. apply In_strided in Hin; [|lia].
        rewrite for_range_fold, (to_s_small iu) by (unfold half; lia).
        apply fold_outcome_ext. intros ju o' Hj. apply In_zrange in Hj.
        now rewrite (to_s_small ju) by (unfold half; lia). }
    rewrite fold_outcome_grid.
    apply fold_outcome_writes. intros [i j] o Hin. unfold wr. cbn [fst snd].
    apply In_grid in Hin as [Hc Hr]. cbn [fst snd] in *.
    apply In_strided in Hc; [|lia]. apply In_zrange in Hr.
    unfold conv2d_3x3_shifted_body, addi.
    rewrite (to_s_small (j + 1)), (to_s_small (i + 1)) by (unfold half; lia).
    change (addu (mulu (to_u (j + 1)) in_x) (to_u (i + 1)))
      with (pixel_index in_x (j + 1) (i + 1)).
    rewrite (pixel_index_small in_x in_y)
      by (unfold fits, half; lia).
    rewrite store_quotient_done by assumption.
    unfold conv2d_3x3_shifted_pixel.
    replace (i + 1 - 1) with i by ring.
    replace (j + 1 - 1) with j by ring. reflexivity.
Qed.
End Unrolled3x3.

(** ** Boundary exclusion *)

(** C6.  For each of the four convolution variants, every input and every
    lane (image dimensions within the 32-bit range and not smaller than
    the window, positive weight sum): the lane completes, and every output
    element outside the variant's valid interior -- a border of
    [k_x / 2] columns and [k_y / 2] rows for the general variants, of one
    pixel on every side for the 3x3 variants -- holds after the call the
    value it held before. *)
Theorem conv2d_border_preserved :
  forall inp k in_x in_y k_x k_y numThreads out id fuel,
    fits in_x in_y -> lanes numThreads -> 0 <= id < numThreads ->
    (Z.to_nat in_x < fuel)%nat ->
    (0 <= k_x /\ 2 * (k_x / 2) <= in_x -> 0 <= k_y /\ 2 * (k_y / 2) <= in_y ->
     0 < weight_sum k (mulu k_x k_y) ->
     (exists o,
        conv2d_parallel fuel inp in_x in_y k k_x k_y out id numThreads = Done o /\
        forall p, border in_x in_y (k_x / 2) (k_y / 2) p -> o p = out p) /\
     (exists o,
        conv2d_shifted_parallel fuel inp in_x in_y k k_x k_y out id numThreads
        = Done o /\
        forall p, border in_x in_y (k_x / 2) (k_y / 2) p -> o p = out p)) /\
    (2 <= in_x -> 2 <= in_y -> 0 < weight_sum k 9 ->
     (exists o,
        conv2d_3x3_unrolled_parallel inp in_x in_y k out id numThreads = Done o /\
        forall p, border in_x in_y 1 1 p -> o p = out p) /\
     (exists o,
        conv2d_3x3_shifted_unrolled_parallel fuel inp in_x in_y k out id
          numThreads = Done o /\
        forall p, border in_x in_y 1 1 p -> o p = out p)).
Proof.
  intros inp k in_x in_y k_x k_y n out id fuel Hfit Hlanes Hid Hfuel.
  assert (Hid' : 0 <= id < half) by (destruct Hlanes; lia).
  assert (Hframe : forall bx by_ (L : Z -> Z -> Prop) pix ws p,
    0 <= bx ->
    (forall w, In w ws <->
       exists x y, (interior in_x in_y bx by_ x y /\ L x y) /\
                   w = (y * in_x + x, pix x y)) ->
    border in_x in_y bx by_ p -> apply_writes ws out p = out p).
  { intros bx by_ L pix ws p Hb Hws Hp.
    apply (pixel_trace_frame in_x (interior in_x in_y bx by_) pix).
    - intros w Hin. apply Hws in Hin as (x & y & (HD & _) & ->). eauto.
    - exact Hp. }
  split.
  - intros Hkx Hky Hw.
    assert (Hw' : weight_sum k (mulu k_x k_y) <> 0) by lia.
    destruct (half_kernel k_x) as [Px Qx]; [tauto|].
    destruct (half_kernel k_y) as [Py Qy]; [tauto|].
    split.
    + destruct (conv2d_parallel_lane inp k in_x in_y k_x k_y n Hfit Hlanes)
        with (fuel := fuel) (id := id) as (ws & Hws & Hrun);
        try assumption; try lia.
      exists (apply_writes ws out). split; [apply Hrun|].
      intros p Hp.
      eapply Hframe with (L := fun x _ => _); [| exact Hws | exact Hp]. lia.
    + destruct (conv2d_shifted_lane inp k in_x in_y k_x k_y n Hfit Hlanes)
        with (fuel := fuel) (id := id) as (ws & Hws & Hrun);
        try assumption.
      exists (apply_writes ws out). split; [apply Hrun|].
      intros p Hp.
      eapply Hframe with (L := fun x _ => _); [| exact Hws | exact Hp]. lia.
  - intros Hx2 Hy2 Hw.
    assert (Hw' : weight_sum k 9 <> 0) by lia.
    split.
    + destruct (conv2d_3x3_unrolled_lane inp k in_x in_y n Hfit Hw' id)
        as (ws & Hws & Hrun); try lia.
      exists (apply_writes ws out). split; [apply Hrun|].
      intros p Hp.
      eapply Hframe with (L := fun x _ => _); [| exact Hws | exact Hp]. lia.
    + destruct (conv2d_3x3_shifted_lane inp k in_x in_y n Hfit Hw' Hlanes
                  fuel id) as (ws & Hws & Hrun); try assumption.
      exists (apply_writes ws out). split; [apply Hrun|].
      intros p Hp.
      eapply Hframe with (L := fun x _ => _); [| exact Hws | exact Hp]. lia.
Qed.

Lemma conv2d_border_preserved_witness :
  ((exists o,
      conv2d_parallel 6 ramp 5 5 ones_3x3 3 3 (constant 7) 1 2 = Done o /\
      forall p, border 5 5 (3 / 2) (3 / 2) p -> o p = constant 7 p) /\
   (exists o,
      conv2d_shifted_parallel 6 ramp 5 5 ones_3x3 3 3 (constant 7) 1 2 = Done o /\
      forall p, border 5 5 (3 / 2) (3 / 2) p -> o p = constant 7 p)) /\
  ((exists o,
      conv2d_3x3_unrolled_parallel ramp 5 5 ones_3x3 (constant 7) 1 2 = Done o /\
      forall p, border 5 5 1 1 p -> o p = constant 7 p) /\
   (exists o,
      conv2d_3x3_shifted_unrolled_parallel 6 ramp 5 5 ones_3x3 (constant 7) 1 2
      = Done o /\
      forall p, border 5 5 1 1 p -> o p = constant 7 p)).
Proof.
  destruct (conv2d_border_preserved ramp ones_3x3 5 5 3 3 2 (constant 7) 1 6)
    as [General Fixed].
  - unfold fits, half. lia.
  - unfold lanes, half. lia.
  - lia.
  - simpl. lia.
  - split.
    + apply General; [split; [lia | now vm_compute] ..| now vm_compute].
    + apply Fixed; [lia | lia | now vm_compute].
Defined.

(** ** The block partition of [conv2d_3x3_unrolled_parallel] *)

(** Both ends of a block receive the same share [min id rem] of the
    remainder, so every block is [in_x / numThreads] columns wide. *)
Lemma block_range_closed in_x numThreads id :
  0 <= in_x < wB -> 1 <= numThreads < wB -> 0 <= id < numThreads ->
  block_range in_x id numThreads
  = Done (in_x / numThreads * id + Z.min id (in_x mod numThreads),
          in_x / numThreads * (id + 1) + Z.min id (in_x mod numThreads)).
Proof.
  intros Hx Hn Hid. unfold block_range.
  destruct (Z.eqb_spec numThreads 0); [lia|].
  pose proof (Z.div_mod in_x numThreads ltac:(lia)) as Hdm.
  pose proof (Z.mod_pos_bound in_x numThreads ltac:(lia)) as Hm.
  assert (Hd : 0 <= in_x / numThreads) by (apply Z.div_pos; lia).
  set (d := in_x / numThreads) in *. set (r := in_x mod numThreads) in *.
  assert (Hmin : (if id <? r then id else r) = Z.min id r).
  { destruct (Z.ltb_spec id r); lia. }
  rewrite Hmin.
  assert (d * (id + 1) + Z.min id r <= in_x) by nia.
  assert (0 <= d * id) by nia.
  unfold addu, mulu.
  rewrite (to_u_small (id + 1)) by lia.
  rewrite (to_u_small (d * id)), (to_u_small (d * (id + 1))) by nia.
  rewrite !to_u_small by nia. reflexivity.
Qed.

(** C3 (code fails the claim).  With [in_x = 5] and two lanes the blocks
    are [0, 2) and [3, 5): their sizes sum to 4, not 5, column 2 belongs to
    no lane, and after clamping the lanes own [1, 2) and [3, 4), which
    leaves column 2 of the interior [1, 4) uncovered. *)
Theorem block_partition_gap :
  block_range 5 0 2 = Done (0, 2) /\
  block_range 5 1 2 = Done (3, 5) /\
  clamp_range 5 (0, 2) = (1, 2) /\
  clamp_range 5 (3, 5) = (3, 4) /\
  ~ block_owns 5 2 0 2 /\ ~ block_owns 5 2 1 2.
Proof.
  repeat split; try reflexivity;
    intros H; vm_compute in H; destruct H as [H1 H2];
    solve [discriminate H2 | now apply H1].
Qed.

(** C2 (code fails the claim).  On a 5x3 image with two lanes, the kernel
    that copies the centre pixel and an output buffer of zeros, the block
    variant never writes the interior pixel of column 2 (index 7), which
    keeps its 0, while the strided shifted variant stores the input value
    7 there. *)
Theorem conv2d_3x3_variants_differ :
  read (run_lanes (fun o => conv2d_3x3_unrolled_parallel ramp 5 3 centre_3x3 o)
          2 (constant 0)) 7 = Some 0 /\
  read (run_lanes
          (fun o => conv2d_3x3_shifted_unrolled_parallel 6 ramp 5 3 centre_3x3 o)
          2 (constant 0)) 7 = Some 7.
Proof. split; vm_compute; reflexivity. Qed.

(** ** Division faults *)

Lemma skip_boundary_no_abort {E} fuel : forall id b n (e : E),
  skip_boundary fuel id b n <> Abort e.
Proof.
  induction fuel as [|f IH]; intros id b n e; simpl; [discriminate|].
  destruct (id <? b); [apply IH | discriminate].
Qed.

Lemma for_range_no_abort {E A} lo hi (body : Z -> A -> outcome E A) a e :
  (forall x a e, body x a <> Abort e) -> for_range lo hi body a <> Abort e.
Proof. intros H. rewrite for_range_fold. now apply fold_outcome_no_abort. Qed.

Lemma store_quotient_no_abort out idx sum weight e :
  weight <> 0 -> store_quotient out idx sum weight <> Abort e.
Proof. intros H. now rewrite store_quotient_done. Qed.

Lemma store_quotient_fault out idx sum :
  store_quotient out idx sum 0 = Abort DivFault.
Proof. reflexivity. Qed.

Lemma fold_outcome_first_abort {E A X} (f : X -> A -> outcome E A) xs x a e :
  In x xs -> (forall x a, f x a = Abort e) -> fold_outcome f xs a = Abort e.
Proof.
  intros Hin H. destruct xs as [|x0 xs]; [destruct Hin|].
  simpl. now rewrite H.
Qed.

Lemma loop_up_rel {A B} (R : A -> B -> Prop) (f : Z -> A -> A)
    (g : Z -> B -> B) cnt : forall v a b,
  R a b ->
  (forall t a b, v <= t < v + Z.of_nat cnt -> R a b -> R (f t a) (g t b)) ->
  R (loop_up cnt v f a) (loop_up cnt v g b).
Proof.
  induction cnt as [|c IH]; intros v a b Hab H; simpl; [assumption|].
  apply IH.
  - apply H; [lia | assumption].
  - intros; apply H; [lia | assumption].
Qed.

Lemma for_pure_rel {A B} (R : A -> B -> Prop) (f : Z -> A -> A)
    (g : Z -> B -> B) lo hi a b :
  R a b ->
  (forall t a b, lo <= t < hi -> R a b -> R (f t a) (g t b)) ->
  R (for_pure lo hi f a) (for_pure lo hi g b).
Proof.
  intros Hab H. unfold for_pure. apply loop_up_rel; [assumption|].
  intros; apply H; [lia | assumption].
Qed.

(** The divisor is the sum of the weights whenever that sum fits 32 bits. *)
Lemma weight_sum_exact k cnt :
  cnt < half -> 0 <= kernel_total k cnt < wB ->
  weight_sum k cnt = kernel_total k cnt.
Proof.
  intros Hc Ht.
  assert (Hcongr : to_u (weight_sum k cnt) = to_u (kernel_total k cnt)).
  { unfold weight_sum, kernel_total.
    apply (for_pure_rel (fun a b => to_u a = to_u b)); [reflexivity|].
    intros i w t Hi Hwt. unfold addu.
    rewrite to_s_small by (unfold half in *; lia).
    rewrite to_u_idem, <- to_u_add_l, Hwt, to_u_add_l. reflexivity. }
  rewrite (to_u_small (kernel_total k cnt)) in Hcongr by assumption.
  rewrite <- Hcongr. symmetry. apply to_u_small.
  unfold weight_sum, for_pure.
  destruct (Z.to_nat (cnt - 0)) as [|c]; [simpl; unfold wB; lia|].
  assert (H : forall c v (a : Z),
            0 <= loop_up (S c) v
                   (fun iu weight => addu weight (k (to_s iu))) a < wB).
  { clear. induction c as [|c IH]; intros v a.
    - simpl. apply to_u_range.
    - change (loop_up (S (S c)) v ?f a) with (loop_up (S c) (v + 1) f (f v a)).
      apply IH. }
  apply H.
Qed.

(** ** The quotient is unsigned *)

Lemma loop_up_inv {A} (P : A -> Prop) (f : Z -> A -> A) cnt : forall v a,
  P a -> (forall v a, P a -> P (f v a)) -> P (loop_up cnt v f a).
Proof.
  induction cnt as [|c IH]; intros v a Ha Hf; simpl; auto.
Qed.

Lemma for_pure_inv {A} (P : A -> Prop) (f : Z -> A -> A) lo hi a :
  P a -> (forall v a, P a -> P (f v a)) -> P (for_pure lo hi f a).
Proof. apply loop_up_inv. Qed.

Lemma int_range_0 : - half <= 0 < half.
Proof. unfold half. lia. Qed.

Lemma conv2d_parallel_sum_range inp in_x k k_x k_y i j :
  - half <= conv2d_parallel_sum inp in_x k k_x k_y i j < half.
Proof.
  unfold conv2d_parallel_sum.
  apply for_pure_inv; [apply int_range_0|]. intros m a Ha.
  apply for_pure_inv; [assumption|]. intros; apply to_s_range.
Qed.

Lemma conv2d_shifted_sum_range inp in_x k k_x k_y i j :
  - half <= conv2d_shifted_sum inp in_x k k_x k_y i j < half.
Proof.
  unfold conv2d_shifted_sum.
  apply for_pure_inv; [apply int_range_0|]. intros m a Ha.
  apply for_pure_inv; [assumption|]. intros; apply to_s_range.
Qed.

(** A negative [int32_t] dividend is divided as the unsigned [sum + 2^32]. *)
Lemma quotient_negative sum weight :
  - half <= sum < 0 -> quotient sum weight = to_s ((sum + wB) / weight).
Proof.
  intros H. unfold quotient. f_equal. f_equal.
  replace sum with (sum + wB + (-1) * wB) at 1 by ring.
  rewrite to_u_shift. apply to_u_small. unfold half, wB in *. lia.
Qed.

(** ** Normalisation by an all-ones kernel *)

(** The divisor computed for an all-ones kernel is its number of weights. *)
Lemma weight_sum_all_ones k cnt :
  0 <= cnt < half -> all_ones k cnt -> weight_sum k cnt = cnt.
Proof.
  intros Hc Hk. unfold weight_sum, for_pure.
  rewrite Z.sub_0_r.
  assert (H : forall c v, 0 <= v -> v + Z.of_nat c <= cnt ->
            loop_up c v (fun iu weight => addu weight (k (to_s iu))) v
            = v + Z.of_nat c).
  { induction c as [|c IH]; intros v Hv Hle; simpl; [lia|].
    rewrite to_s_small by (unfold half in *; lia).
    rewrite Hk by lia.
    replace (addu v 1) with (v + 1)
      by (unfold addu; rewrite to_u_small; unfold half, wB in *; lia).
    rewrite IH by lia. lia. }
  rewrite (H (Z.to_nat cnt) 0) by lia. lia.
Qed.

(** Adding a weight-one term keeps the accumulator congruent to the sum. *)
Lemma accumulate_one sum total v :
  to_u sum = to_u total -> to_u (accumulate sum v 1) = to_u (total + v).
Proof.
  intros H. unfold accumulate, addu, mulu.
  rewrite to_u_to_s, to_u_idem, Z.mul_1_r, to_u_idem, to_u_add.
  rewrite <- to_u_add_l, H, to_u_add_l. reflexivity.
Qed.

Section AllOnes.
Variables (inp k : buffer) (in_x in_y k_x k_y : Z).
Hypothesis Hfit : fits in_x in_y.
Hypothesis Hkx : 1 <= k_x <= in_x.
Hypothesis Hky : 1 <= k_y <= in_y.
Hypothesis Hones : all_ones k (k_x * k_y).

Lemma all_ones_weight : weight_sum k (mulu k_x k_y) = k_x * k_y.
Proof.
  destruct Hfit as (Hx & Hy & Hxy).
  assert (0 <= k_x * k_y < half) by nia.
  unfold mulu. rewrite to_u_small by (unfold half, wB in *; lia).
  now apply weight_sum_all_ones.
Qed.

Lemma all_ones_sum x y :
  interior in_x in_y (k_x / 2) (k_y / 2) x y ->
  to_u (conv2d_parallel_sum inp in_x k k_x k_y x y)
  = to_u (window_total inp in_x k_x k_y x y).
Proof.
  intros HD.
  destruct (half_kernel k_x) as [Px Qx]; [lia|].
  destruct (half_kernel k_y) as [Py Qy]; [lia|].
  rewrite (centred_shifted_sum inp k in_x in_y k_x k_y) by (assumption || lia).
  destruct HD as [Rx Ry]. destruct Hfit as (Hx & Hy & Hxy).
  unfold conv2d_shifted_sum, window_total.
  apply (for_pure_rel (fun a b => to_u a = to_u b)); [reflexivity|].
  intros m a b Hm Hab.
  apply (for_pure_rel (fun a b => to_u a = to_u b)); [assumption|].
  intros n a' b' Hn Hab'.
  assert (Ey : addu (y - k_y / 2) m = y - k_y / 2 + m).
  { unfold addu. apply to_u_small. unfold half, wB in *. lia. }
  assert (Ex : addu (x - k_x / 2) n = x - k_x / 2 + n).
  { unfold addu. apply to_u_small. unfold half, wB in *. lia. }
  rewrite Ey, Ex.
  rewrite (index_small in_x in_y) by (unfold fits; lia).
  assert (Ek : k (addu (mulu m k_x) n) = 1).
  { assert (0 <= m * k_x + n < k_x * k_y) by nia.
    assert (k_x * k_y < half) by nia.
    unfold addu, mulu. rewrite to_u_add_l.
    rewrite to_u_small by (unfold half, wB in *; lia).
    now apply Hones. }
  rewrite Ek. now apply accumulate_one.
Qed.

Lemma all_ones_pixel x y :
  interior in_x in_y (k_x / 2) (k_y / 2) x y ->
  0 <= window_total inp in_x k_x k_y x y < half ->
  conv2d_parallel_pixel inp in_x k k_x k_y x y
  = Z.quot (window_total inp in_x k_x k_y x y) (k_x * k_y).
Proof.
  intros HD Ht. unfold conv2d_parallel_pixel, quotient.
  rewrite all_ones_weight, all_ones_sum by assumption.
  rewrite to_u_small by (unfold half, wB in *; lia).
  assert (1 <= k_x * k_y) by nia.
  rewrite Z.quot_div_nonneg by lia.
  apply to_s_small.
  assert (0 <= window_total inp in_x k_x k_y x y / (k_x * k_y)
          <= window_total inp in_x k_x k_y x y).
  { split; [apply Z.div_pos; lia | apply Z.div_le_upper_bound; nia]. }
  unfold half in *. lia.
Qed.
End AllOnes.

(** C7, as stated, fails: on a 3x3 image of -1's the all-ones 3x3 kernel
    stores 477218587 at the one valid coordinate (index 4), while the
    truncating average of the window is -9 / 9 = -1. *)
Lemma conv2d_average_negative_sum :
  read (run_lanes (fun o => conv2d_parallel 4 (constant (-1)) 3 3 ones_3x3 3 3 o)
          1 (constant 0)) 4 = Some 477218587 /\
  Z.quot (window_total (constant (-1)) 3 3 3 1 1) (3 * 3) = -1.
Proof. split; vm_compute; reflexivity. Qed.

(** C7, amended.  For every input image and every all-ones kernel of size
    [k_x] by [k_y] no larger than the image, at every valid output
    coordinate whose window holds input values with a sum in [0, 2^31),
    the value the convolution (all lanes of [conv2d_parallel]) stores is
    the truncating-integer average: that sum divided by [k_x * k_y] with
    truncating division. *)
Theorem conv2d_average_nonnegative_sum :
  forall inp k in_x in_y k_x k_y numThreads out fuel x y,
    fits in_x in_y -> lanes numThreads ->
    1 <= k_x <= in_x -> 1 <= k_y <= in_y ->
    all_ones k (k_x * k_y) ->
    (Z.to_nat in_x < fuel)%nat ->
    interior in_x in_y (k_x / 2) (k_y / 2) x y ->
    0 <= window_total inp in_x k_x k_y x y < half ->
    exists out',
      run_lanes (fun o => conv2d_parallel fuel inp in_x in_y k k_x k_y o)
        numThreads out = Done out' /\
      out' (y * in_x + x)
      = Z.quot (window_total inp in_x k_x k_y x y) (k_x * k_y).
Proof.
  intros inp k in_x in_y k_x k_y n out fuel x y
    Hfit Hlanes Hkx Hky Hones Hfuel HD Ht.
  destruct (half_kernel k_x) as [Px Qx]; [lia|].
  destruct (half_kernel k_y) as [Py Qy]; [lia|].
  assert (Hw : weight_sum k (mulu k_x k_y) <> 0).
  { rewrite (all_ones_weight k in_x in_y k_x k_y) by assumption. nia. }
  destruct (conv2d_parallel_run inp k in_x in_y k_x k_y n Hfit Hlanes)
    with (fuel := fuel) (out := out) as (out' & Hrun & Hval & _);
    try assumption; try lia.
  exists out'. split; [assumption|].
  rewrite Hval by assumption.
  now apply (all_ones_pixel inp k in_x in_y k_x k_y).
Qed.

Lemma conv2d_average_nonnegative_sum_witness :
  exists out',
    run_lanes (fun o => conv2d_parallel 6 ramp 5 5 ones_3x3 3 3 o)
      2 (constant 0) = Done out' /\
    out' (2 * 5 + 3) = Z.quot (window_total ramp 5 3 3 3 2) (3 * 3).
Proof.
  apply (conv2d_average_nonnegative_sum ramp ones_3x3 5 5 3 3 2 (constant 0)
           6 3 2).
  - unfold fits, half. lia.
  - unfold lanes, half. lia.
  - lia.
  - lia.
  - intros p Hp. unfold ones_3x3, of_list.
    assert (Hc : p = 0 \/ p = 1 \/ p = 2 \/ p = 3 \/ p = 4 \/ p = 5 \/
                 p = 6 \/ p = 7 \/ p = 8) by lia.
    repeat (destruct Hc as [-> | Hc]; [reflexivity|]). now subst p.
  - simpl. lia.
  - unfold interior. now vm_compute.
  - now vm_compute.
Defined.

(** ** The scan of [verify_conv2d_image] *)

Lemma NoDup_zseq cnt : forall v, NoDup (zseq cnt v).
Proof.
  induction cnt as [|c IH]; intros v; simpl; constructor; [|apply IH].
  rewrite In_zseq. lia.
Qed.

Lemma NoDup_strided lo hi step : 1 <= step -> NoDup (strided lo hi step).
Proof.
  intros Hs. unfold strided. generalize (Z.to_nat (hi - lo)) as cnt.
  intros cnt. revert lo.
  induction cnt as [|c IH]; intros lo; simpl; [constructor|].
  destruct (lo <? hi); constructor; [|apply IH].
  intros Hin.
  assert (Hge : forall c' i x, In x (stride_from c' i hi step) -> i <= x).
  { induction c' as [|c' IHc]; intros i x; simpl; [intros []|].
    destruct (i <? hi); [|intros []].
    intros [<-|Hx]; [lia|]. apply IHc in Hx. lia. }
  apply Hge in Hin. lia.
Qed.

Lemma NoDup_grid xs ys : NoDup xs -> NoDup ys -> NoDup (grid xs ys).
Proof.
  intros Hxs Hys. induction Hxs as [|x xs Hx Hxs IH]; simpl; [constructor|].
  apply NoDup_app.
  - clear -Hys. induction Hys as [|y ys Hy Hys IH]; simpl; constructor; auto.
    rewrite in_map_iff. intros (y' & Heq & Hin). congruence.
  - exact IH.
  - intros [x' y] Hin Hin'. apply in_map_iff in Hin as (y' & Heq & _).
    apply In_grid in Hin' as [Hin' _]. cbn [fst] in Hin'. congruence.
Qed.

Lemma NoDup_map_inj {A B} (f : A -> B) l :
  (forall x y, In x l -> In y l -> f x = f y -> x = y) ->
  NoDup l -> NoDup (map f l).
Proof.
  intros Hinj Hl. induction Hl as [|x l Hx Hl IH]; simpl; constructor.
  - rewrite in_map_iff. intros (y & Heq & Hin).
    apply Hx. rewrite <- (Hinj y x); auto; [now right | now left].
  - apply IH. intros; apply Hinj; auto; now right.
Qed.

Lemma In_verify_scan img_x img_y id n c :
  1 <= n ->
  (In c (verify_scan img_x img_y id n) <->
   (id + 1 <= fst c < img_y - 1 /\ (fst c - (id + 1)) mod n = 0) /\
   1 <= snd c < img_x - 1).
Proof.
  intros Hn. unfold verify_scan.
  rewrite In_grid, In_strided, In_zrange by assumption. reflexivity.
Qed.

Lemma NoDup_verify_scan img_x img_y id n :
  1 <= n -> NoDup (map (linear img_x) (verify_scan img_x img_y id n)).
Proof.
  intros Hn. apply NoDup_map_inj.
  - intros [i j] [i' j'] Hc Hc' Heq.
    apply In_verify_scan in Hc, Hc'; try assumption.
    unfold linear in Heq. cbn [fst snd] in *.
    destruct (index_inj img_x j i j' i'); try lia. congruence.
  - apply NoDup_grid; [now apply NoDup_strided | apply NoDup_zseq].
Qed.

(** Resetting other elements does not change whether an element matches. *)
Lemma matches_reset img_x cs img c :
  ~ In (linear img_x c) (map (linear img_x) cs) ->
  matches img_x (reset_all img_x cs img) c = matches img_x img c.
Proof.
  intros Hnin. unfold matches, reset_all.
  rewrite apply_writes_miss; [reflexivity|].
  intros w Hin. apply in_map_iff in Hin as (c' & <- & Hc'). cbn [fst].
  intro Heq. apply Hnin. rewrite <- Heq. now apply in_map.
Qed.

Section Scan.
Variable img_x : Z.
Let check := verify_check img_x.

Lemma scan_matching cs : forall img,
  NoDup (map (linear img_x) cs) ->
  (forall c, In c cs -> matches img_x img c = true) ->
  fold_outcome check cs img = Done (reset_all img_x cs img).
Proof.
  induction cs as [|c cs IH]; intros img Hnd Hm; [reflexivity|].
  simpl. unfold check at 1, verify_check. rewrite (Hm c) by now left. simpl.
  inversion Hnd as [|? ? Hnin Hnd']; subst.
  rewrite IH; [reflexivity | assumption |].
  intros c' Hc'.
  change (store img (linear img_x c) 0) with (reset_all img_x [c] img).
  rewrite matches_reset; [apply Hm; now right|].
  simpl. intros [Heq|[]]. apply Hnin. rewrite Heq. now apply in_map.
Qed.

(** The scan stops at the first element that does not match, having reset
    the elements before it. *)
Lemma scan_first_mismatch pre c post img :
  NoDup (map (linear img_x) (pre ++ c :: post)) ->
  (forall c', In c' pre -> matches img_x img c' = true) ->
  matches img_x img c = false ->
  fold_outcome check (pre ++ c :: post) img
  = Abort (linear img_x c, reset_all img_x pre img).
Proof.
  intros Hnd Hpre Hc.
  rewrite fold_outcome_app, scan_matching; try assumption.
  - simpl. unfold check at 1, verify_check.
    rewrite matches_reset, Hc; [reflexivity|].
    rewrite map_app in Hnd. simpl in Hnd.
    apply NoDup_remove_2 in Hnd. intro Hin. apply Hnd.
    apply in_or_app. now left.
  - rewrite map_app in Hnd. now apply NoDup_app_remove_r in Hnd.
Qed.
End Scan.

(** ** One lane of the verification *)

Section VerifyLane.
Variables (img_x img_y numThreads : Z).
Hypothesis Hfit : fits img_x img_y.
Hypothesis Hx1 : 1 <= img_x.
Hypothesis Hy1 : 1 <= img_y.
Hypothesis Hlanes : lanes numThreads.

Lemma verify_body_check i j img :
  1 <= i < img_y - 1 -> 1 <= j < img_x - 1 ->
  verify_body img_x i j img = verify_check img_x (i, j) img.
Proof.
  intros Hi Hj. destruct Hfit as (Hx & Hy & Hxy).
  assert (Hidx : 0 <= i * img_x + j < half)
    by (apply (index_bound img_x img_y); lia).
  unfold verify_body, verify_check, matches, linear, failure_code.
  cbn [fst snd].
  rewrite (pixel_index_small img_x img_y) by (assumption || lia).
  assert (Hsum : addi i j <> 0).
  { unfold addi. rewrite to_s_small; unfold half in *; nia. }
  destruct (Z.eqb_spec (addi i j) 0); [contradiction|].
  rewrite to_s_small by (unfold half in *; lia). reflexivity.
Qed.

Lemma verify_loop_scan fuel img id :
  0 <= id < numThreads -> (Z.to_nat img_y < fuel)%nat ->
  verify_loop fuel img img_x img_y id numThreads
  = fold_outcome (verify_check img_x)
      (verify_scan img_x img_y id numThreads) img.
Proof.
  intros Hid Hfuel.
  destruct Hfit as (Hx & Hy & Hxy). destruct Hlanes as [Hn1 Hn2].
  unfold half in *.
  unfold verify_loop, verify_scan, addu, subu.
  rewrite (to_u_small (id + 1)), to_u_to_s, (to_u_small (id + 1)),
    (to_u_small (img_y - 1)), (to_u_small (img_x - 1)) by (unfold wB; lia).
  rewrite for_stride_fold by (unfold wB; lia).
  rewrite (fold_outcome_ext _
    (fun i => fold_outcome (fun j => verify_check img_x (i, j))
                (zrange 1 (img_x - 1)))).
  - rewrite (fold_outcome_grid (fun i j => verify_check img_x (i, j))).
    apply fold_outcome_ext. intros [i j] a _. reflexivity.
  - intros iu a Hin. apply In_strided in Hin; [|lia].
    rewrite for_range_fold, (to_s_small iu) by (unfold half; lia).
    apply fold_outcome_ext. intros ju a' Hj. apply In_zrange in Hj.
    rewrite (to_s_small ju) by (unfold half; lia).
    apply verify_body_check; lia.
Qed.

(** A lane whose scanned elements all match returns 0 and has reset them. *)
Lemma verify_lane_success fuel img id :
  0 <= id < numThreads -> (Z.to_nat img_y < fuel)%nat ->
  (forall c, In c (verify_scan img_x img_y id numThreads) ->
             matches img_x img c = true) ->
  verify_conv2d_image fuel img img_x img_y id numThreads
  = Some (0, reset_all img_x (verify_scan img_x img_y id numThreads) img).
Proof.
  intros Hid Hfuel Hm. unfold verify_conv2d_image.
  rewrite verify_loop_scan, scan_matching; auto.
  apply NoDup_verify_scan. destruct Hlanes; lia.
Qed.

(** A lane returns the linear index of the first element of its scan that
    does not match, and has reset the elements before it. *)
Lemma verify_lane_failure fuel img id pre c post :
  0 <= id < numThreads -> (Z.to_nat img_y < fuel)%nat ->
  verify_scan img_x img_y id numThreads = pre ++ c :: post ->
  (forall c', In c' pre -> matches img_x img c' = true) ->
  matches img_x img c = false ->
  verify_conv2d_image fuel img img_x img_y id numThreads
  = Some (linear img_x c, reset_all img_x pre img).
Proof.
  intros Hid Hfuel Hscan Hpre Hc. unfold verify_conv2d_image.
  rewrite verify_loop_scan, Hscan, scan_first_mismatch; auto.
  rewrite <- Hscan. apply NoDup_verify_scan. destruct Hlanes; lia.
Qed.

Lemma verify_scan_index id c :
  0 <= id -> In c (verify_scan img_x img_y id numThreads) ->
  0 < linear img_x c < half.
Proof.
  intros Hid Hin. destruct Hlanes as [Hn1 Hn2].
  apply In_verify_scan in Hin; [|lia]. destruct Hfit as (Hx & Hy & Hxy).
  destruct c as [i j]. unfold linear. cbn [fst snd] in *.
  assert (0 <= i * img_x + j < half)
    by (apply (index_bound img_x img_y); lia).
  nia.
Qed.
End VerifyLane.

(** C8.  On an image whose dimensions are positive and fit the 32-bit
    arithmetic, a lane of [verify_conv2d_image] returns 0 when every
    element it scans matches the expected pattern; otherwise, at the first
    element (row [i], column [j]) of its scan order that does not match,
    it returns -1 if the linear index [i * img_x + j] is 0 and that index
    otherwise -- and the index of a scanned element is positive. *)
Theorem verify_return_code :
  forall img img_x img_y numThreads id fuel,
    fits img_x img_y -> 1 <= img_x -> 1 <= img_y -> lanes numThreads ->
    0 <= id < numThreads -> (Z.to_nat img_y < fuel)%nat ->
    ((forall c, In c (verify_scan img_x img_y id numThreads) ->
                matches img_x img c = true) ->
     exists img',
       verify_conv2d_image fuel img img_x img_y id numThreads
       = Some (0, img')) /\
    (forall pre i j post,
       verify_scan img_x img_y id numThreads = pre ++ (i, j) :: post ->
       (forall c, In c pre -> matches img_x img c = true) ->
       matches img_x img (i, j) = false ->
       exists img',
         verify_conv2d_image fuel img img_x img_y id numThreads
         = Some ((if i * img_x + j =? 0 then -1 else i * img_x + j), img') /\
         0 < i * img_x + j).
Proof.
  intros img img_x img_y n id fuel Hfit Hx1 Hy1 Hlanes Hid Hfuel. split.
  - intros Hm. eexists.
    apply (verify_lane_success img_x img_y n); assumption.
  - intros pre i j post Hscan Hpre Hc.
    assert (Hpos : 0 < linear img_x (i, j) < half).
    { apply (verify_scan_index img_x img_y n Hfit Hlanes id); [lia|].
      rewrite Hscan. apply in_or_app. right. now left. }
    unfold linear in Hpos. cbn [fst snd] in Hpos.
    destruct (Z.eqb_spec (i * img_x + j) 0); [lia|].
    eexists. split; [|lia].
    apply (verify_lane_failure img_x img_y n Hfit Hx1 Hy1 Hlanes
             fuel img id pre (i, j) post); assumption.
Qed.

Lemma verify_return_code_witness :
  (exists img',
     verify_conv2d_image 4 (of_list [0; 0; 0; 0; 0; 2; 3; 0; 0; 0; 0; 0])
       4 3 0 1 = Some (0, img')) /\
  (exists img',
     verify_conv2d_image 4 (of_list [0; 0; 0; 0; 0; 2; 9; 0; 0; 0; 0; 0])
       4 3 0 1 = Some ((if 1 * 4 + 2 =? 0 then -1 else 1 * 4 + 2), img') /\
     0 < 1 * 4 + 2).
Proof.
  split.
  - apply (verify_return_code (of_list [0; 0; 0; 0; 0; 2; 3; 0; 0; 0; 0; 0])
             4 3 1 0 4).
    + unfold fits, half. lia.
    + lia.
    + lia.
    + unfold lanes, half. lia.
    + lia.
    + simpl. lia.
    + intros c Hin. vm_compute in Hin.
      destruct Hin as [<-|[<-|[]]]; reflexivity.
  - apply (verify_return_code (of_list [0; 0; 0; 0; 0; 2; 9; 0; 0; 0; 0; 0])
             4 3 1 0 4) with (pre := [(1, 1)]) (post := []).
    + unfold fits, half. lia.
    + lia.
    + lia.
    + unfold lanes, half. lia.
    + lia.
    + simpl. lia.
    + reflexivity.
    + intros c [<-|[]]. reflexivity.
    + reflexivity.
Defined.

(** ** All lanes of the verification *)

Lemma find_split {A} (f : A -> bool) l : forall c,
  find f l = Some c ->
  exists pre post, l = pre ++ c :: post /\
                   (forall x, In x pre -> f x = false) /\ f c = true.
Proof.
  induction l as [|a l IH]; intros c Hf; [discriminate|].
  simpl in Hf. destruct (f a) eqn:Ea.
  - inversion Hf; subst. exists [], l. repeat split; auto. intros x [].
  - destruct (IH c Hf) as (pre & post & -> & Hpre & Hc).
    exists (a :: pre), post. repeat split; auto.
    intros x [<-|Hx]; auto.
Qed.

Lemma find_first {A} (f : A -> bool) pre c post :
  (forall x, In x pre -> f x = false) -> f c = true ->
  find f (pre ++ c :: post) = Some c.
Proof.
  intros Hpre Hc. induction pre as [|a pre IH]; simpl.
  - now rewrite Hc.
  - rewrite (Hpre a) by now left. apply IH. intros; apply Hpre; now right.
Qed.

Lemma find_all_false {A} (f : A -> bool) l :
  (forall x, In x l -> f x = false) -> find f l = None.
Proof.
  intros H. induction l as [|a l IH]; simpl; [reflexivity|].
  rewrite (H a) by now left. apply IH. intros; apply H; now right.
Qed.

Lemma find_ext_in {A} (f g : A -> bool) l :
  (forall x, In x l -> f x = g x) -> find f l = find g l.
Proof.
  intros H. induction l as [|a l IH]; simpl; [reflexivity|].
  rewrite (H a) by now left. destruct (g a); [reflexivity|].
  apply IH. intros; apply H; now right.
Qed.

(** A reset leaves an element at 0 or as it was. *)
Lemma reset_all_value img_x cs img p :
  reset_all img_x cs img p = 0 \/ reset_all img_x cs img p = img p.
Proof.
  unfold reset_all. revert img.
  induction cs as [|c cs IH]; intros img; [now right|].
  simpl. destruct (IH (store img (linear img_x c) 0)) as [H|H];
    [now left|]. unfold apply_writes in *. rewrite H. unfold store.
  destruct (p =? linear img_x c); auto.
Qed.

Lemma reset_all_hit img_x cs img c :
  In c cs -> reset_all img_x cs img (linear img_x c) = 0.
Proof.
  intros Hin. unfold reset_all. apply apply_writes_hit.
  - apply in_map_iff. exists c. auto.
  - intros v' Hv. apply in_map_iff in Hv as (c' & Heq & _). congruence.
Qed.

Lemma reset_all_miss img_x cs img p :
  (forall c, In c cs -> linear img_x c <> p) -> reset_all img_x cs img p = img p.
Proof.
  intros H. unfold reset_all. apply apply_writes_miss.
  intros w Hin. apply in_map_iff in Hin as (c & <- & Hc). now apply H.
Qed.

Section VerifyLanes.
Variables (img_x img_y numThreads : Z) (fuel : nat).
Hypothesis Hfit : fits img_x img_y.
Hypothesis Hx1 : 1 <= img_x.
Hypothesis Hy1 : 1 <= img_y.
Hypothesis Hlanes : lanes numThreads.
Hypothesis Hfuel : (Z.to_nat img_y < fuel)%nat.

Let scan := fun id => verify_scan img_x img_y id numThreads.

(** Two lanes scan elements of different indices. *)
Lemma verify_scans_apart id1 id2 c1 c2 :
  0 <= id1 < numThreads -> 0 <= id2 < numThreads -> id1 <> id2 ->
  In c1 (scan id1) -> In c2 (scan id2) -> linear img_x c1 <> linear img_x c2.
Proof.
  intros H1 H2 Hne Hc1 Hc2 Heq. destruct Hlanes as [Hn1 Hn2].
  apply In_verify_scan in Hc1, Hc2; try lia.
  destruct c1 as [i1 j1], c2 as [i2 j2]. unfold linear in Heq.
  cbn [fst snd] in *.
  destruct (index_inj img_x j1 i1 j2 i2) as [_ ->]; try lia.
  apply Hne. apply (mod0_close id1 id2 numThreads); [lia | | lia].
  replace (id1 - id2) with ((id1 + 1) - (id2 + 1)) by ring.
  eapply mod0_trans; [lia | | apply (proj2 (proj1 Hc2))].
  apply mod0_sym; [lia | apply (proj2 (proj1 Hc1))].
Qed.

(** What one lane returns and leaves behind, on any buffer. *)
Lemma verify_lane_code img id :
  0 <= id < numThreads ->
  exists cs,
    incl cs (scan id) /\
    verify_conv2d_image fuel img img_x img_y id numThreads
    = Some (lane_code img_x img_y numThreads img id, reset_all img_x cs img) /\
    (lane_code img_x img_y numThreads img id = 0 -> cs = scan id).
Proof.
  intros Hid. unfold lane_code, first_mismatch. fold (scan id).
  destruct (find _ (scan id)) as [c|] eqn:Ef.
  - apply find_split in Ef as (pre & post & Hscan & Hpre & Hc).
    exists pre. split; [|split].
    + intros x Hx. rewrite Hscan. apply in_or_app. now left.
    + apply (verify_lane_failure img_x img_y numThreads Hfit Hx1 Hy1 Hlanes
               fuel img id pre c post); auto.
      * intros c' Hc'. apply Hpre in Hc'. now apply negb_false_iff in Hc'.
      * now apply negb_true_iff in Hc.
    + intros H0.
      assert (0 < linear img_x c < half).
      { apply (verify_scan_index img_x img_y numThreads Hfit Hlanes id);
          [lia|]. fold (scan id). rewrite Hscan.
        apply in_or_app. right. now left. }
      lia.
  - exists (scan id). split; [apply incl_refl | split; [|reflexivity]].
    apply (verify_lane_success img_x img_y numThreads); auto.
    intros c Hc. eapply find_none in Ef; [|exact Hc].
    now apply negb_false_iff in Ef.
Qed.

(** Every lane returns the code of its own scan of the buffer as it was
    before any lane ran; elements outside all scans are untouched, and the
    elements of a lane that returned 0 are all reset. *)
Lemma verify_lanes_codes ids : forall img,
  NoDup ids -> (forall id, In id ids -> 0 <= id < numThreads) ->
  exists img',
    verify_lanes fuel img img_x img_y ids numThreads
    = Some (map (lane_code img_x img_y numThreads img) ids, img') /\
    (forall p, img' p = 0 \/ img' p = img p) /\
    (forall id c, In id ids -> lane_code img_x img_y numThreads img id = 0 ->
                  In c (scan id) -> img' (linear img_x c) = 0).
Proof.
  induction ids as [|id ids IH]; intros img Hnd Hids.
  - exists img. simpl. split; [reflexivity|]. split; [now right|].
    intros ? ? [].
  - inversion Hnd as [|? ? Hnin Hnd']; subst.
    assert (Hid : 0 <= id < numThreads) by (apply Hids; now left).
    destruct (verify_lane_code img id Hid) as (cs & Hincl & Hrun & Hall).
    set (img1 := reset_all img_x cs img) in *.
    destruct (IH img1 Hnd') as (img' & Hrest & Hval & Hzero).
    { intros; apply Hids; now right. }
    assert (Hsame : forall id2, In id2 ids ->
              lane_code img_x img_y numThreads img1 id2
              = lane_code img_x img_y numThreads img id2).
    { intros id2 Hin2. unfold lane_code, first_mismatch. fold (scan id2).
      rewrite (find_ext_in _ (fun c => negb (matches img_x img c))).
      - reflexivity.
      - intros c Hc. f_equal. unfold img1. apply matches_reset.
        rewrite in_map_iff. intros (c' & Heq & Hc').
        apply (verify_scans_apart id id2 c' c); auto.
        + apply Hids. now right.
        + intros ->. contradiction. }
    exists img'. split; [|split].
    + simpl. rewrite Hrun. fold img1. rewrite Hrest.
      f_equal. f_equal. f_equal. apply map_ext_in. exact Hsame.
    + intros p. destruct (Hval p) as [H|H]; [now left|].
      rewrite H. apply reset_all_value.
    + intros id2 c [<-|Hin2] Hcode Hc.
      * destruct (Hval (linear img_x c)) as [H|H]; [assumption|].
        rewrite H. unfold img1. rewrite (Hall Hcode).
        now apply reset_all_hit.
      * apply (Hzero id2 c Hin2); [|assumption].
        now rewrite Hsame.
Qed.
End VerifyLanes.

(** ** Initialisation *)

Section Init.
Variables (img_x img_y numThreads : Z) (fuel : nat).
Hypothesis Hfit : fits img_x img_y.
Hypothesis Hlanes : lanes numThreads.
Hypothesis Hfuel : (Z.to_nat (Z.max img_x img_y) < fuel)%nat.

(** The lane that fills the element at column [x], row [y]: rows are
    dealt out when the image is taller than wide, columns otherwise. *)
Let owner (id x y : Z) : Prop :=
  if img_x <? img_y then id <= y /\ (y - id) mod numThreads = 0
  else id <= x /\ (x - id) mod numThreads = 0.

Lemma image_fill_loop_spec id :
  0 <= id < half ->
  exists cs,
    (forall c, In c cs <->
       (0 <= snd c < img_x /\ 0 <= fst c < img_y) /\ owner id (snd c) (fst c)) /\
    forall A (body : Z -> Z -> A -> outcome fault A) (a : A),
      image_fill_loop fuel img_x img_y id numThreads body a
      = fold_outcome (fun c => body (fst c) (snd c)) cs a.
Proof.
  intros Hid. destruct Hfit as (Hx & Hy & Hxy). destruct Hlanes as [Hn1 Hn2].
  unfold half in *. unfold image_fill_loop, owner.
  destruct (Z.ltb_spec img_x img_y) as [Hlt|Hge].
  - exists (grid (strided id img_y numThreads) (zrange 0 img_x)). split.
    + intros [i j]. rewrite In_grid, In_strided, In_zrange by lia.
      cbn [fst snd]. lia.
    + intros A body a.
      rewrite to_u_to_s, (to_u_small id) by (unfold wB; lia).
      rewrite for_stride_fold by (unfold wB; lia).
      rewrite <- fold_outcome_grid.
      apply fold_outcome_ext. intros iu o Hin.
      apply In_strided in Hin; [|lia].
      rewrite for_range_fold, (to_s_small iu) by (unfold half; lia).
      apply fold_outcome_ext. intros ju o' Hj. apply In_zrange in Hj.
      now rewrite (to_s_small ju) by (unfold half; lia).
  - exists (map (fun c => (snd c, fst c))
              (grid (strided id img_x numThreads) (zrange 0 img_y))). split.
    + intros [i j]. rewrite in_map_iff. cbn [fst snd]. split.
      * intros ([j' i'] & Heq & Hin). inversion Heq; subst.
        apply In_grid in Hin. cbn [fst snd] in Hin.
        rewrite In_strided, In_zrange in Hin by lia. lia.
      * intros Hc. exists (j, i). split; [reflexivity|].
        apply In_grid. cbn [fst snd].
        rewrite In_strided, In_zrange by lia. lia.
    + intros A body a.
      rewrite to_u_to_s, (to_u_small id) by (unfold wB; lia).
      rewrite for_stride_fold by (unfold wB; lia).
      rewrite (fold_outcome_ext _
        (fun j => fold_outcome (fun i => body i j) (zrange 0 img_y))).
      * rewrite (fold_outcome_grid (fun j i => body i j)).
        generalize (grid (strided id img_x numThreads) (zrange 0 img_y)).
        intros l. revert a.
        induction l as [|c l IH]; intros a; simpl; [reflexivity|].
        destruct (body (snd c) (fst c) a); simpl; auto.
      * intros ju o Hin. apply In_strided in Hin; [|lia].
        rewrite for_range_fold, (to_s_small ju) by (unfold half; lia).
        apply fold_outcome_ext. intros iu o' Hi. apply In_zrange in Hi.
        now rewrite (to_s_small iu) by (unfold half; lia).
Qed.

(** After every lane has run, each element of the image holds the
    pattern value of its row and column. *)
Lemma init_run img :
  exists img1,
    run_lanes (fun o => init_conv2d_image fuel o img_x img_y) numThreads img
    = Done img1 /\
    forall i j, 0 <= i < img_y -> 0 <= j < img_x ->
                img1 (i * img_x + j) = init_value i j.
Proof.
  destruct Hlanes as [Hn1 Hn2].
  destruct (run_lanes_pixels
    (fun o => init_conv2d_image fuel o img_x img_y) img_x numThreads
    (fun x y => 0 <= x < img_x /\ 0 <= y < img_y) owner
    (fun x y => init_value y x) img) as (img1 & Hrun & Hhit & _).
  { intros; lia. }
  { intros id Hid.
    destruct (image_fill_loop_spec id) as (cs & Hcs & Hloop); [lia|].
    exists (map (fun c => (fst c * img_x + snd c, init_value (fst c) (snd c)))
              cs). split.
    - intros w. rewrite in_map_iff. split.
      + intros ([i j] & <- & Hin). apply Hcs in Hin. cbn [fst snd] in *.
        exists j, i. tauto.
      + intros (x & y & (HD & HL) & ->). exists (y, x).
        split; [reflexivity|]. apply Hcs. cbn [fst snd]. tauto.
    - intros o. unfold init_conv2d_image. rewrite Hloop.
      apply fold_outcome_writes. intros [i j] o' Hin. cbn [fst snd].
      apply Hcs in Hin. cbn [fst snd] in Hin.
      now rewrite (pixel_index_small img_x img_y) by (assumption || lia). }
  exists img1. split; [assumption|].
  intros i j Hi Hj. apply Hhit; [lia|].
  unfold owner. destruct (img_x <? img_y).
  - exists (i mod numThreads).
    pose proof (Z.mod_pos_bound i numThreads ltac:(lia)).
    pose proof (Z.mod_le i numThreads ltac:(lia) ltac:(lia)).
    split; [lia|]. split; [lia | apply mod0_residue; lia].
  - exists (j mod numThreads).
    pose proof (Z.mod_pos_bound j numThreads ltac:(lia)).
    pose proof (Z.mod_le j numThreads ltac:(lia) ltac:(lia)).
    split; [lia|]. split; [lia | apply mod0_residue; lia].
Qed.
End Init.

(** ** Initialisation followed by verification *)

(** On the interior of an image at most 4 wide and 16 high the pattern
    written by the initialisation is the pattern the verification
    expects. *)
Lemma init_value_expected i j :
  1 <= i <= 14 -> 1 <= j <= 2 -> init_value i j = expected_value i j.
Proof.
  intros Hi Hj. unfold init_value, expected_value, expected_col, expected_row.
  rewrite (Z.rem_small i 16), (Z.rem_small j 4) by lia.
  destruct (Z.eqb_spec i 0); [lia|]. destruct (Z.eqb_spec i 15); [lia|].
  assert (Hc : j = 1 \/ j = 2) by lia.
  destruct Hc as [-> | ->].
  - change (addi (Z.quot 1 2) 1) with 1. unfold addi. f_equal. ring.
  - change (addi (Z.quot 2 2) 1) with 2. unfold addi. f_equal. ring.
Qed.

(** C4, as stated, fails: on a 5x5 image with one lane, verification right
    after initialisation returns 8, the index of row 1, column 3, where
    the initial value 1 + 3 differs from the expected 2 + 1. *)
Lemma init_verify_mismatch_5x5 :
  match run_lanes (fun o => init_conv2d_image 6 o 5 5) 1 (constant 0) with
  | Done img1 => option_map fst (verify_lanes 6 img1 5 5 (lane_ids 1) 1)
  | _ => None
  end = Some [8].
Proof. vm_compute. reflexivity. Qed.

(** C4, amended.  For every image buffer of positive dimensions that is
    at most 4 wide and 16 high, or has no interior element, and every lane
    count: running [init_conv2d_image]
    over all lanes and then [verify_conv2d_image] over all lanes returns 0
    from every lane and leaves every checked interior element zeroed;
    running init, then replacing the value of one interior element by a
    different one, then verify returns that element's linear index
    [r * img_x + c] from the lane [(r - 1) mod numThreads], the one that
    scans its row, and 0 from every other lane. *)
Theorem init_verify_round_trip :
  forall img img_x img_y numThreads fuel,
    fits img_x img_y -> 1 <= img_x -> 1 <= img_y ->
    img_x <= 4 /\ img_y <= 16 \/ img_x <= 2 \/ img_y <= 2 ->
    lanes numThreads -> (Z.to_nat (Z.max img_x img_y) < fuel)%nat ->
    exists img1,
      run_lanes (fun o => init_conv2d_image fuel o img_x img_y) numThreads img
      = Done img1 /\
      (exists img2,
         verify_lanes fuel img1 img_x img_y (lane_ids numThreads) numThreads
         = Some (map (fun _ => 0) (lane_ids numThreads), img2) /\
         forall i j, 1 <= i < img_y - 1 -> 1 <= j < img_x - 1 ->
                     img2 (i * img_x + j) = 0) /\
      (forall r c v,
         1 <= r < img_y - 1 -> 1 <= c < img_x - 1 ->
         v <> img1 (r * img_x + c) ->
         exists img2,
           verify_lanes fuel (store img1 (r * img_x + c) v) img_x img_y
             (lane_ids numThreads) numThreads
           = Some (map (fun id => if id =? (r - 1) mod numThreads
                                  then r * img_x + c else 0)
                     (lane_ids numThreads), img2)).
Proof.
  intros img img_x img_y n fuel Hfit Hx1 Hy1 Hsmall Hlanes Hfuel.
  assert (Hfuely : (Z.to_nat img_y < fuel)%nat) by lia.
  destruct (init_run img_x img_y n fuel Hfit Hlanes Hfuel img)
    as (img1 & Hinit & Hval).
  assert (Hn : 1 <= n) by (destruct Hlanes; lia).
  assert (Hids : forall id, In id (lane_ids n) -> 0 <= id < n)
    by (intros id; apply In_lane_ids).
  assert (Hnd : NoDup (lane_ids n)) by apply NoDup_zseq.
  assert (Hmatch : forall c, 1 <= fst c < img_y - 1 -> 1 <= snd c < img_x - 1 ->
            matches img_x img1 c = true).
  { intros [i j] Hi Hj. unfold matches, linear. cbn [fst snd] in *.
    rewrite Hval by lia. rewrite init_value_expected by lia.
    apply Z.eqb_refl. }
  exists img1. split; [assumption|]. split.
  - destruct (verify_lanes_codes img_x img_y n fuel Hfit Hx1 Hy1 Hlanes
                Hfuely (lane_ids n) img1 Hnd Hids)
      as (img2 & Hrun & _ & Hzero).
    assert (Hcode : forall id, In id (lane_ids n) ->
              lane_code img_x img_y n img1 id = 0).
    { intros id Hid. unfold lane_code, first_mismatch.
      rewrite find_all_false; [reflexivity|].
      intros c Hc. apply In_verify_scan in Hc; [|lia].
      rewrite Hmatch; [reflexivity | apply Hids in Hid; lia | lia]. }
    exists img2. split.
    + rewrite Hrun. f_equal. f_equal. now apply map_ext_in.
    + intros i j Hi Hj.
      assert (Hl : 0 <= (i - 1) mod n < n) by (apply Z.mod_pos_bound; lia).
      apply In_lane_ids in Hl.
      apply (Hzero ((i - 1) mod n) (i, j) Hl (Hcode _ Hl)).
      apply In_verify_scan; [lia|]. cbn [fst snd].
      pose proof (Z.mod_le (i - 1) n ltac:(lia) ltac:(lia)).
      split; [|lia]. split; [lia|].
      replace (i - ((i - 1) mod n + 1)) with (i - 1 - (i - 1) mod n) by ring.
      apply mod0_residue; lia.
  - intros r c v Hr Hc Hv.
    set (bad := store img1 (r * img_x + c) v).
    destruct (verify_lanes_codes img_x img_y n fuel Hfit Hx1 Hy1 Hlanes
                Hfuely (lane_ids n) bad Hnd Hids) as (img2 & Hrun & _).
    assert (Hbad : matches img_x bad (r, c) = false).
    { unfold matches, linear, bad, store. cbn [fst snd].
      rewrite Z.eqb_refl. apply Z.eqb_neq.
      rewrite <- init_value_expected, <- Hval by lia. exact Hv. }
    assert (Hgood : forall c', 1 <= fst c' < img_y - 1 ->
              1 <= snd c' < img_x - 1 -> c' <> (r, c) ->
              matches img_x bad c' = true).
    { intros [i j] Hi Hj Hne. rewrite <- (Hmatch (i, j) Hi Hj).
      unfold matches, linear, bad, store. cbn [fst snd] in *.
      destruct (Z.eqb_spec (i * img_x + j) (r * img_x + c)) as [Heq|];
        [|reflexivity].
      destruct (index_inj img_x j i c r); try lia. congruence. }
    exists img2. rewrite Hrun. f_equal. f_equal.
    apply map_ext_in. intros id Hid. apply Hids in Hid.
    unfold lane_code, first_mismatch.
    destruct (Z.eqb_spec id ((r - 1) mod n)) as [Heq|Hne].
    + assert (Hin : In (r, c) (verify_scan img_x img_y id n)).
      { apply In_verify_scan; [lia|]. cbn [fst snd]. subst id.
        pose proof (Z.mod_le (r - 1) n ltac:(lia) ltac:(lia)).
        split; [|lia]. split; [lia|].
        replace (r - ((r - 1) mod n + 1)) with (r - 1 - (r - 1) mod n) by ring.
        apply mod0_residue; lia. }
      destruct (in_split _ _ Hin) as (pre & post & Hscan).
      rewrite Hscan, find_first; [reflexivity | | now rewrite Hbad].
      intros c' Hc'.
      assert (Hnd' : NoDup (verify_scan img_x img_y id n)).
      { eapply NoDup_map_inv. apply (NoDup_verify_scan img_x img_y id n Hn). }
      rewrite Hscan in Hnd'. apply NoDup_remove_2 in Hnd'.
      assert (In c' (verify_scan img_x img_y id n)).
      { rewrite Hscan. apply in_or_app. now left. }
      apply In_verify_scan in H; [|lia].
      rewrite Hgood; [reflexivity | lia | lia |].
      intros ->. apply Hnd'. apply in_or_app. now left.
    + rewrite find_all_false; [reflexivity|].
      intros c' Hc'. apply In_verify_scan in Hc'; [|lia].
      rewrite Hgood; [reflexivity | lia | lia |].
      intros ->. cbn [fst snd] in Hc'. apply Hne.
      assert (Hr' : 0 <= (r - 1) mod n < n) by (apply Z.mod_pos_bound; lia).
      apply (mod0_close id ((r - 1) mod n) n); [lia | | lia].
      apply mod0_sym; [lia|].
      replace ((r - 1) mod n - id) with ((r - (id + 1)) - (r - 1 - (r - 1) mod n))
        by ring.
      apply Z.mod_divide; [lia|]. apply Z.divide_sub_r.
      * apply Z.mod_divide; [lia | tauto].
      * apply Z.mod_divide; [lia | apply mod0_residue; lia].
Qed.

Lemma init_verify_round_trip_witness :
  exists img1,
    run_lanes (fun o => init_conv2d_image 5 o 4 4) 2 (constant 9) = Done img1 /\
    (exists img2,
       verify_lanes 5 img1 4 4 (lane_ids 2) 2
       = Some (map (fun _ => 0) (lane_ids 2), img2) /\
       forall i j, 1 <= i < 4 - 1 -> 1 <= j < 4 - 1 -> img2 (i * 4 + j) = 0) /\
    (forall r c v,
       1 <= r < 4 - 1 -> 1 <= c < 4 - 1 -> v <> img1 (r * 4 + c) ->
       exists img2,
         verify_lanes 5 (store img1 (r * 4 + c) v) 4 4 (lane_ids 2) 2
         = Some (map (fun id => if id =? (r - 1) mod 2 then r * 4 + c else 0)
                   (lane_ids 2), img2)).
Proof.
  apply (init_verify_round_trip (constant 9) 4 4 2 5).
  - unfold fits, half. lia.
  - lia.
  - lia.
  - lia.
  - unfold lanes, half. lia.
  - simpl. lia.
Defined.

(** ** The two 3x3 kernels when the lane count divides the width *)

Section SameWindow3x3.
Variables (inp k : buffer) (in_x in_y : Z).
Hypothesis Hfit : fits in_x in_y.

Lemma unrolled_index x y dx dy :
  0 <= x + dx < in_x -> 0 <= y + dy < in_y ->
  addu (mulu (addu y dy) in_x) (addu x dx) = (y + dy) * in_x + (x + dx).
Proof.
  intros Rx Ry. destruct Hfit as (Hx & Hy & Hxy). unfold half in *.
  unfold addu at 2 3.
  rewrite (to_u_small (y + dy)), (to_u_small (x + dx)) by (unfold wB; lia).
  apply (index_small in_x in_y); unfold fits, half; lia.
Qed.

Lemma shifted_index x y dx dy :
  0 <= x - 1 -> 0 <= y - 1 ->
  0 <= x - 1 + dx < in_x -> 0 <= y - 1 + dy < in_y ->
  addu (mulu (to_u (addi (y - 1) dy)) in_x) (to_u (addi (x - 1) dx))
  = (y - 1 + dy) * in_x + (x - 1 + dx).
Proof.
  intros Px Py Rx Ry. destruct Hfit as (Hx & Hy & Hxy). unfold half in *.
  unfold addi.
  rewrite (to_s_small (y - 1 + dy)), (to_s_small (x - 1 + dx))
    by (unfold half; lia).
  change (addu (mulu (to_u (y - 1 + dy)) in_x) (to_u (x - 1 + dx)))
    with (pixel_index in_x (y - 1 + dy) (x - 1 + dx)).
  apply (pixel_index_small in_x in_y); unfold fits, half; lia.
Qed.

Lemma unrolled_shifted_sum x y :
  interior in_x in_y 1 1 x y ->
  sum_3x3_unrolled inp in_x k x y = sum_3x3_shifted inp in_x k (x - 1) (y - 1).
Proof.
  intros [Rx Ry]. unfold sum_3x3_unrolled, sum_3x3_shifted.
  rewrite !unrolled_index by lia.
  rewrite !shifted_index by lia.
  repeat match goal with
  | |- context [inp ?a] =>
      let b := constr:(a) in
      progress (ring_simplify b)
  end.
  reflexivity.
Qed.

Lemma unrolled_shifted_pixel x y :
  interior in_x in_y 1 1 x y ->
  conv2d_3x3_unrolled_pixel inp in_x k x y
  = conv2d_3x3_shifted_pixel inp in_x k x y.
Proof.
  intros H. unfold conv2d_3x3_unrolled_pixel, conv2d_3x3_shifted_pixel.
  now rewrite unrolled_shifted_sum.
Qed.
End SameWindow3x3.

Section Run3x3.
Variables (inp k : buffer) (in_x in_y numThreads : Z).
Hypothesis Hfit : fits in_x in_y.
Hypothesis Hlanes : lanes numThreads.
Hypothesis Hx2 : 2 <= in_x.
Hypothesis Hy2 : 2 <= in_y.
Hypothesis Hweight : weight_sum k 9 <> 0.

(** All lanes of the block variant: an interior pixel is computed exactly
    when its column lies in the block of some lane. *)
Lemma conv2d_3x3_unrolled_run out :
  exists out',
    run_lanes (conv2d_3x3_unrolled_parallel inp in_x in_y k) numThreads out
    = Done out' /\
    (forall x y, interior in_x in_y 1 1 x y ->
       (exists id, 0 <= id < numThreads /\ block_owns in_x numThreads id x) ->
       out' (y * in_x + x) = conv2d_3x3_unrolled_pixel inp in_x k x y) /\
    (forall p, border in_x in_y 1 1 p -> out' p = out p).
Proof.
  destruct Hlanes as [Hn1 Hn2].
  apply (run_lanes_pixels (conv2d_3x3_unrolled_parallel inp in_x in_y k)
           in_x numThreads (interior in_x in_y 1 1)
           (fun id x _ => block_owns in_x numThreads id x)).
  - unfold interior. intros; lia.
  - intros id Hid.
    apply (conv2d_3x3_unrolled_lane inp k in_x in_y numThreads Hfit Hweight);
      lia.
Qed.

Lemma conv2d_3x3_shifted_run fuel out :
  (Z.to_nat in_x < fuel)%nat ->
  exists out',
    run_lanes (conv2d_3x3_shifted_unrolled_parallel fuel inp in_x in_y k)
      numThreads out = Done out' /\
    (forall x y, interior in_x in_y 1 1 x y ->
       out' (y * in_x + x) = conv2d_3x3_shifted_pixel inp in_x k x y) /\
    (forall p, border in_x in_y 1 1 p -> out' p = out p).
Proof.
  intros Hfuel. destruct Hlanes as [Hn1 Hn2].
  destruct (run_lanes_pixels
    (conv2d_3x3_shifted_unrolled_parallel fuel inp in_x in_y k)
    in_x numThreads (interior in_x in_y 1 1)
    (fun id x _ => id <= x - 1 /\ (x - 1 - id) mod numThreads = 0)
    (conv2d_3x3_shifted_pixel inp in_x k) out)
    as (out' & Hrun & Hhit & Hframe).
  { unfold interior. intros; lia. }
  { intros id Hid.
    apply (conv2d_3x3_shifted_lane inp k in_x in_y numThreads Hfit Hweight
             Hlanes); try assumption. lia. }
  exists out'. split; [assumption|]. split; [|assumption].
  intros x y HD. apply Hhit; [assumption|].
  exists ((x - 1) mod numThreads).
  assert (0 <= (x - 1) mod numThreads < numThreads)
    by (apply Z.mod_pos_bound; lia).
  split; [assumption|]. split; [|apply mod0_residue; lia].
  unfold interior in HD. pose proof (Z.mod_le (x - 1) numThreads). lia.
Qed.

(** When the lane count divides the width, every column lies in a block. *)
Lemma block_cover_divisible x :
  in_x mod numThreads = 0 -> 0 <= x < in_x ->
  exists id, 0 <= id < numThreads /\ block_owns in_x numThreads id x.
Proof.
  intros Hrem Hx. destruct Hfit as (Hxr & _). destruct Hlanes as [Hn1 Hn2].
  unfold half in *.
  pose proof (Z.div_mod in_x numThreads ltac:(lia)) as Hdm.
  rewrite Hrem in Hdm.
  assert (Hd : 0 < in_x / numThreads) by nia.
  set (d := in_x / numThreads) in *.
  exists (x / d).
  pose proof (Z.div_mod x d ltac:(lia)) as Hxd.
  pose proof (Z.mod_pos_bound x d ltac:(lia)) as Hxm.
  assert (Hq : 0 <= x / d) by (apply Z.div_pos; lia).
  assert (Hid : 0 <= x / d < numThreads) by nia.
  split; [assumption|].
  unfold block_owns.
  rewrite block_range_closed by (unfold wB; lia).
  fold d. rewrite Hrem. cbn [fst snd].
  replace (Z.min (x / d) 0) with 0 by lia. nia.
Qed.
End Run3x3.

(** X1.  When the lane count divides the image width (so that the block
    partition has no remainder to distribute), the block-partitioned 3x3
    variant and the strided shifted 3x3 variant, each run over all lanes
    from the same output buffer, complete and produce identical output
    arrays. *)
Theorem conv2d_3x3_agree_when_divisible :
  forall inp k in_x in_y numThreads out fuel,
    fits in_x in_y -> lanes numThreads -> 2 <= in_x -> 2 <= in_y ->
    0 < weight_sum k 9 -> in_x mod numThreads = 0 ->
    (Z.to_nat in_x < fuel)%nat ->
    exists o1 o2,
      run_lanes (conv2d_3x3_unrolled_parallel inp in_x in_y k) numThreads out
      = Done o1 /\
      run_lanes (conv2d_3x3_shifted_unrolled_parallel fuel inp in_x in_y k)
        numThreads out = Done o2 /\
      forall p, o1 p = o2 p.
Proof.
  intros inp k in_x in_y n out fuel Hfit Hlanes Hx2 Hy2 Hw Hrem Hfuel.
  assert (Hw' : weight_sum k 9 <> 0) by lia.
  destruct (conv2d_3x3_unrolled_run inp k in_x in_y n Hfit Hlanes Hx2 Hy2
              Hw' out) as (o1 & R1 & V1 & F1).
  destruct (conv2d_3x3_shifted_run inp k in_x in_y n Hfit Hlanes Hx2 Hy2
              Hw' fuel out Hfuel) as (o2 & R2 & V2 & F2).
  exists o1, o2. split; [assumption|]. split; [assumption|].
  intros p.
  destruct (interior_index_dec in_x in_y 1 1 p ltac:(lia))
    as [(x & y & HD & ->)|Hout].
  - rewrite V1, V2; try assumption.
    + now apply (unrolled_shifted_pixel inp k in_x in_y Hfit).
    + apply (block_cover_divisible in_x in_y n); try assumption.
      unfold interior in HD. lia.
  - rewrite F1, F2; auto.
Qed.

Lemma conv2d_3x3_agree_when_divisible_witness :
  exists o1 o2,
    run_lanes (conv2d_3x3_unrolled_parallel ramp 6 3 ones_3x3) 2 (constant 0)
    = Done o1 /\
    run_lanes (conv2d_3x3_shifted_unrolled_parallel 7 ramp 6 3 ones_3x3)
      2 (constant 0) = Done o2 /\
    forall p, o1 p = o2 p.
Proof.
  apply (conv2d_3x3_agree_when_divisible ramp ones_3x3 6 3 2 (constant 0) 7).
  - unfold fits, half. lia.
  - unfold lanes, half. lia.
  - lia.
  - lia.
  - now vm_compute.
  - reflexivity.
  - simpl. lia.
Defined.

(** X2.  Every lane's block, before clamping, is exactly
    [in_x / numThreads] columns wide: both ends are shifted by the same
    share [min id (in_x % numThreads)] of the remainder, so the blocks
    together hold [in_x - in_x % numThreads] columns. *)
Theorem block_range_width :
  forall in_x numThreads id,
    0 <= in_x < wB -> 1 <= numThreads < wB -> 0 <= id < numThreads ->
    exists s e,
      block_range in_x id numThreads = Done (s, e) /\
      s = in_x / numThreads * id + Z.min id (in_x mod numThreads) /\
      e - s = in_x / numThreads.
Proof.
  intros in_x n id Hx Hn Hid.
  rewrite block_range_closed by assumption.
  eexists. eexists. split; [reflexivity|]. split; [reflexivity|]. ring.
Qed.

Lemma block_range_width_witness :
  exists s e,
    block_range 7 1 3 = Done (s, e) /\
    s = 7 / 3 * 1 + Z.min 1 (7 mod 3) /\ e - s = 7 / 3.
Proof.
  apply (block_range_width 7 3 1); unfold wB; lia.
Defined.

(** An end-to-end run: a 5x5 image filled by the initialisation (two
    lanes) and convolved by the shifted 3x3 variant with the kernel
    {0,0,0,0,1,0,0,0,0} reproduces the nine interior elements of the
    image, and leaves the border of the zeroed output untouched. *)
Example identity_kernel_example :
  match run_lanes (fun o => init_conv2d_image 6 o 5 5) 2 (constant 0) with
  | Done img =>
      match run_lanes
              (conv2d_3x3_shifted_unrolled_parallel 6 img 5 5 centre_3x3)
              2 (constant 0) with
      | Done out =>
          map out [6; 7; 8; 11; 12; 13; 16; 17; 18]
          = map img [6; 7; 8; 11; 12; 13; 16; 17; 18] /\
          map out [0; 1; 2; 3; 4; 5; 9; 10; 14; 15; 19; 20; 21; 22; 23; 24]
          = map (constant 0)
              [0; 1; 2; 3; 4; 5; 9; 10; 14; 15; 19; 20; 21; 22; 23; 24]
      | _ => False
      end
  | _ => False
  end.
Proof. vm_compute. split; reflexivity. Qed.

(** X4.  Run over all lanes, the initialisation completes and fills every
    element of the image with [(i mod 16) + (j mod 4)], [i] the row and
    [j] the column. *)
Theorem init_fills_pattern :
  forall img img_x img_y numThreads fuel,
    fits img_x img_y -> lanes numThreads ->
    (Z.to_nat (Z.max img_x img_y) < fuel)%nat ->
    exists img1,
      run_lanes (fun o => init_conv2d_image fuel o img_x img_y) numThreads img
      = Done img1 /\
      forall i j, 0 <= i < img_y -> 0 <= j < img_x ->
                  img1 (i * img_x + j) = i mod 16 + j mod 4.
Proof.
  intros img img_x img_y n fuel Hfit Hlanes Hfuel.
  destruct (init_run img_x img_y n fuel Hfit Hlanes Hfuel img)
    as (img1 & Hrun & Hval).
  exists img1. split; [assumption|].
  intros i j Hi Hj. rewrite Hval by assumption.
  unfold init_value, addi.
  rewrite !Z.rem_mod_nonneg by lia.
  pose proof (Z.mod_pos_bound i 16). pose proof (Z.mod_pos_bound j 4).
  apply to_s_small. unfold half. lia.
Qed.

Lemma init_fills_pattern_witness :
  exists img1,
    run_lanes (fun o => init_conv2d_image 6 o 5 3) 2 (constant 9) = Done img1 /\
    forall i j, 0 <= i < 3 -> 0 <= j < 5 ->
                img1 (i * 5 + j) = i mod 16 + j mod 4.
Proof.
  apply (init_fills_pattern (constant 9) 5 3 2 6).
  - unfold fits, half. lia.
  - unfold lanes, half. lia.
  - simpl. lia.
Defined.

(** ** Initialisation, smoothing, verification *)

(** The pattern the verification expects is the initial pattern smoothed
    by the kernel (1 2 1) x (1 2 1): along a row index the weighted sum of
    three consecutive values of [i mod 16] is four times the expected row
    term, and likewise for [j mod 4] along a column index. *)
Lemma row_smoothing y :
  1 <= y ->
  Z.rem (y - 1) 16 + 2 * Z.rem y 16 + Z.rem (y + 1) 16 = 4 * expected_row y.
Proof.
  intros Hy. unfold expected_row. rewrite !Z.rem_mod_nonneg by lia.
  rewrite <- (Zplus_mod_idemp_l y 1 16), <- (Zminus_mod_idemp_l y 1 16).
  pose proof (Z.mod_pos_bound y 16 ltac:(lia)) as Hr.
  generalize dependent (y mod 16). intros r Hr.
  assert (Hc : r = 0 \/ r = 1 \/ r = 2 \/ r = 3 \/ r = 4 \/ r = 5 \/ r = 6 \/
               r = 7 \/ r = 8 \/ r = 9 \/ r = 10 \/ r = 11 \/ r = 12 \/
               r = 13 \/ r = 14 \/ r = 15) by lia.
  repeat (destruct Hc as [-> | Hc]; [reflexivity|]). subst r. reflexivity.
Qed.

Lemma col_smoothing x :
  1 <= x ->
  Z.rem (x - 1) 4 + 2 * Z.rem x 4 + Z.rem (x + 1) 4 = 4 * expected_col x.
Proof.
  intros Hx. unfold expected_col. rewrite !Z.rem_mod_nonneg by lia.
  rewrite <- (Zplus_mod_idemp_l x 1 4), <- (Zminus_mod_idemp_l x 1 4).
  pose proof (Z.mod_pos_bound x 4 ltac:(lia)) as Hr.
  generalize dependent (x mod 4). intros r Hr.
  assert (Hc : r = 0 \/ r = 1 \/ r = 2 \/ r = 3) by lia.
  repeat (destruct Hc as [-> | Hc]; [reflexivity|]). subst r. reflexivity.
Qed.

Lemma expected_row_range y : 0 <= y -> 1 <= expected_row y <= 14.
Proof.
  intros Hy. unfold expected_row. rewrite Z.rem_mod_nonneg by lia.
  pose proof (Z.mod_pos_bound y 16 ltac:(lia)).
  destruct (Z.eqb_spec (y mod 16) 0), (Z.eqb_spec (y mod 16) 15); lia.
Qed.

Lemma expected_col_range x : 0 <= x -> 1 <= expected_col x <= 2.
Proof.
  intros Hx. unfold expected_col. rewrite Z.rem_mod_nonneg by lia.
  pose proof (Z.mod_pos_bound x 4 ltac:(lia)) as Hr.
  generalize dependent (x mod 4). intros r Hr.
  assert (Hc : r = 0 \/ r = 1 \/ r = 2 \/ r = 3) by lia.
  repeat (destruct Hc as [-> | Hc]; [now vm_compute|]). subst r.
  now vm_compute.
Qed.

Lemma expected_value_sum y x :
  0 <= y -> 0 <= x -> expected_value y x = expected_col x + expected_row y.
Proof.
  intros Hy Hx. unfold expected_value, addi.
  pose proof (expected_row_range y Hy). pose proof (expected_col_range x Hx).
  apply to_s_small. unfold half. lia.
Qed.

Lemma init_value_sum i j :
  0 <= i -> 0 <= j -> init_value i j = Z.rem i 16 + Z.rem j 4.
Proof.
  intros Hi Hj. unfold init_value, addi.
  rewrite !Z.rem_mod_nonneg by lia.
  pose proof (Z.mod_pos_bound i 16 ltac:(lia)).
  pose proof (Z.mod_pos_bound j 4 ltac:(lia)).
  apply to_s_small. unfold half. lia.
Qed.

(** The accumulator stays congruent to the sum of the products. *)
Lemma accumulate_congr sum total v w :
  to_u sum = to_u total -> to_u (accumulate sum v w) = to_u (total + v * w).
Proof.
  intros H. unfold accumulate, addu, mulu.
  rewrite to_u_to_s, to_u_idem, to_u_mul_l, H, to_u_add. reflexivity.
Qed.

Section Smoothing.
Variables (img : buffer) (in_x in_y : Z).
Hypothesis Hfit : fits in_x in_y.
Hypothesis Himg :
  forall i j, 0 <= i < in_y -> 0 <= j < in_x ->
              img (i * in_x + j) = init_value i j.

Lemma smooth_sum x y :
  interior in_x in_y 1 1 x y ->
  to_u (sum_3x3_shifted img in_x smooth_3x3 (x - 1) (y - 1))
  = 16 * expected_value y x.
Proof.
  intros [Rx Ry]. unfold sum_3x3_shifted.
  rewrite !(shifted_index in_x in_y Hfit) by lia.
  rewrite !Himg by lia. rewrite !init_value_sum by lia.
  replace (x - 1 + 0) with (x - 1) by ring.
  replace (x - 1 + 1) with x by ring.
  replace (x - 1 + 2) with (x + 1) by ring.
  replace (y - 1 + 0) with (y - 1) by ring.
  replace (y - 1 + 1) with y by ring.
  replace (y - 1 + 2) with (y + 1) by ring.
  change (smooth_3x3 0) with 1. change (smooth_3x3 1) with 2.
  change (smooth_3x3 2) with 1. change (smooth_3x3 3) with 2.
  change (smooth_3x3 4) with 4. change (smooth_3x3 5) with 2.
  change (smooth_3x3 6) with 1. change (smooth_3x3 7) with 2.
  change (smooth_3x3 8) with 1.
  pose proof (row_smoothing y ltac:(lia)) as HR.
  pose proof (col_smoothing x ltac:(lia)) as HC.
  pose proof (expected_row_range y ltac:(lia)).
  pose proof (expected_col_range x ltac:(lia)).
  rewrite expected_value_sum by lia.
  rewrite <- (to_u_small (16 * (expected_col x + expected_row y)))
    by (unfold wB; lia).
  eapply eq_trans; [repeat apply accumulate_congr; reflexivity|].
  f_equal. lia.
Qed.

Lemma smooth_pixel x y :
  interior in_x in_y 1 1 x y ->
  conv2d_3x3_shifted_pixel img in_x smooth_3x3 x y = expected_value y x.
Proof.
  intros HD. unfold conv2d_3x3_shifted_pixel, quotient.
  rewrite smooth_sum by assumption.
  change (weight_sum smooth_3x3 9) with 16.
  destruct HD as [Rx Ry].
  pose proof (expected_row_range y ltac:(lia)).
  pose proof (expected_col_range x ltac:(lia)).
  rewrite Z.mul_comm, Z.div_mul by lia.
  rewrite expected_value_sum by lia.
  apply to_s_small. unfold half. lia.
Qed.
End Smoothing.

(** On a buffer whose interior holds the expected pattern every lane of
    the verification returns 0, and the interior ends up zeroed. *)
Lemma verify_lanes_all_match img img_x img_y numThreads fuel :
  fits img_x img_y -> 1 <= img_x -> 1 <= img_y -> lanes numThreads ->
  (Z.to_nat img_y < fuel)%nat ->
  (forall i j, 1 <= i < img_y - 1 -> 1 <= j < img_x - 1 ->
               img (i * img_x + j) = expected_value i j) ->
  exists img',
    verify_lanes fuel img img_x img_y (lane_ids numThreads) numThreads
    = Some (map (fun _ => 0) (lane_ids numThreads), img') /\
    forall i j, 1 <= i < img_y - 1 -> 1 <= j < img_x - 1 ->
                img' (i * img_x + j) = 0.
Proof.
  intros Hfit Hx1 Hy1 Hlanes Hfuel Himg.
  assert (Hn : 1 <= numThreads) by (destruct Hlanes; lia).
  assert (Hids : forall id, In id (lane_ids numThreads) -> 0 <= id < numThreads)
    by (intros id; apply In_lane_ids).
  destruct (verify_lanes_codes img_x img_y numThreads fuel Hfit Hx1 Hy1 Hlanes
              Hfuel (lane_ids numThreads) img (NoDup_zseq _ _) Hids)
    as (img' & Hrun & _ & Hzero).
  assert (Hcode : forall id, In id (lane_ids numThreads) ->
            lane_code img_x img_y numThreads img id = 0).
  { intros id Hid. unfold lane_code, first_mismatch.
    rewrite find_all_false; [reflexivity|].
    intros [i j] Hc. apply In_verify_scan in Hc; [|lia].
    cbn [fst snd] in Hc. apply Hids in Hid.
    unfold matches, linear. cbn [fst snd].
    rewrite Himg by lia. now rewrite Z.eqb_refl. }
  exists img'. split.
  - rewrite Hrun. f_equal. f_equal. now apply map_ext_in.
  - intros i j Hi Hj.
    assert (Hl : 0 <= (i - 1) mod numThreads < numThreads)
      by (apply Z.mod_pos_bound; lia).
    apply In_lane_ids in Hl.
    apply (Hzero ((i - 1) mod numThreads) (i, j) Hl (Hcode _ Hl)).
    apply In_verify_scan; [lia|]. cbn [fst snd].
    pose proof (Z.mod_le (i - 1) numThreads ltac:(lia) ltac:(lia)).
    split; [|lia]. split; [lia|].
    replace (i - ((i - 1) mod numThreads + 1))
      with (i - 1 - (i - 1) mod numThreads) by ring.
    apply mod0_residue; lia.
Qed.

(** X5.  The round trip of the benchmark: for every image of at least 2x2
    (dimensions within the 32-bit range) and every lane count, running
    [init_conv2d_image] over all lanes, then
    [conv2d_3x3_shifted_unrolled_parallel] with the smoothing kernel
    {1,2,1,2,4,2,1,2,1} over all lanes into any output buffer, then
    [verify_conv2d_image] over all lanes on that output returns 0 from
    every lane and leaves the interior of the output zeroed. *)
Theorem init_smooth_verify_round_trip :
  forall img out img_x img_y numThreads fuel,
    fits img_x img_y -> 2 <= img_x -> 2 <= img_y -> lanes numThreads ->
    (Z.to_nat (Z.max img_x img_y) < fuel)%nat ->
    exists img1 out1 out2,
      run_lanes (fun o => init_conv2d_image fuel o img_x img_y) numThreads img
      = Done img1 /\
      run_lanes
        (conv2d_3x3_shifted_unrolled_parallel fuel img1 img_x img_y smooth_3x3)
        numThreads out = Done out1 /\
      verify_lanes fuel out1 img_x img_y (lane_ids numThreads) numThreads
      = Some (map (fun _ => 0) (lane_ids numThreads), out2) /\
      forall i j, 1 <= i < img_y - 1 -> 1 <= j < img_x - 1 ->
                  out2 (i * img_x + j) = 0.
Proof.
  intros img out img_x img_y n fuel Hfit Hx2 Hy2 Hlanes Hfuel.
  destruct (init_run img_x img_y n fuel Hfit Hlanes Hfuel img)
    as (img1 & Hinit & Hval).
  assert (Hw : weight_sum smooth_3x3 9 <> 0) by now vm_compute.
  destruct (conv2d_3x3_shifted_run img1 smooth_3x3 img_x img_y n Hfit Hlanes
              Hx2 Hy2 Hw fuel out ltac:(lia)) as (out1 & Hconv & Hpix & _).
  destruct (verify_lanes_all_match out1 img_x img_y n fuel Hfit
              ltac:(lia) ltac:(lia) Hlanes ltac:(lia))
    as (out2 & Hverify & Hzero).
  { intros i j Hi Hj. rewrite Hpix by (unfold interior; lia).
    apply (smooth_pixel img1 img_x img_y Hfit Hval). unfold interior. lia. }
  exists img1, out1, out2. auto.
Qed.

Lemma init_smooth_verify_round_trip_witness :
  exists img1 out1 out2,
    run_lanes (fun o => init_conv2d_image 21 o 20 18) 3 (constant 7)
    = Done img1 /\
    run_lanes (conv2d_3x3_shifted_unrolled_parallel 21 img1 20 18 smooth_3x3)
      3 (constant 0) = Done out1 /\
    verify_lanes 21 out1 20 18 (lane_ids 3) 3
    = Some (map (fun _ => 0) (lane_ids 3), out2) /\
    forall i j, 1 <= i < 18 - 1 -> 1 <= j < 20 - 1 -> out2 (i * 20 + j) = 0.
Proof.
  apply (init_smooth_verify_round_trip (constant 7) (constant 0) 20 18 3 21).
  - unfold fits, half. lia.
  - lia.
  - lia.
  - unfold lanes, half. lia.
  - simpl. lia.
Defined.

(** The same round trip computed on a 20x18 image with three lanes, and
    with the block-partitioned variant on a 5x5 image with two lanes,
    where the column that no block holds keeps its 0 and lane 0 of the
    verification returns its index 7. *)
Example round_trip_20x18 :
  match run_lanes (fun o => init_conv2d_image 21 o 20 18) 3 (constant 7) with
  | Done img =>
      match run_lanes
              (conv2d_3x3_shifted_unrolled_parallel 21 img 20 18 smooth_3x3)
              3 (constant 0) with
      | Done out => option_map fst (verify_lanes 21 out 20 18 (lane_ids 3) 3)
      | _ => None
      end
  | _ => None
  end = Some [0; 0; 0].
Proof. vm_compute. reflexivity. Qed.

Example round_trip_block_5x5 :
  match run_lanes (fun o => init_conv2d_image 6 o 5 5) 2 (constant 7) with
  | Done img =>
      match run_lanes (conv2d_3x3_unrolled_parallel img 5 5 smooth_3x3)
              2 (constant 0) with
      | Done out => option_map fst (verify_lanes 6 out 5 5 (lane_ids 2) 2)
      | _ => None
      end
  | _ => None
  end = Some [7; 12].
Proof. vm_compute. reflexivity. Qed.

(** All lanes of the loop shared by the two fill functions, storing
    [v i j] at the element of row [i], column [j]: every element of the
    image ends up holding its value, nothing else is touched. *)
Lemma image_fill_run (v : Z -> Z -> Z) :
  forall img img_x img_y numThreads fuel,
    fits img_x img_y -> lanes numThreads ->
    (Z.to_nat (Z.max img_x img_y) < fuel)%nat ->
    exists img1,
      run_lanes
        (fun o id n =>
           image_fill_loop fuel img_x img_y id n
             (fun i j img => Done (store img (pixel_index img_x i j) (v i j))) o)
        numThreads img = Done img1 /\
      (forall i j, 0 <= i < img_y -> 0 <= j < img_x ->
                   img1 (i * img_x + j) = v i j) /\
      (forall p, ~ 0 <= p < img_x * img_y -> img1 p = img p).
Proof.
  intros img img_x img_y n fuel Hfit Hlanes Hfuel.
  destruct Hlanes as [Hn1 Hn2].
  set (owner := fun id x y : Z =>
    if img_x <? img_y then id <= y /\ (y - id) mod n = 0
    else id <= x /\ (x - id) mod n = 0).
  destruct (run_lanes_pixels
    (fun o id n =>
       image_fill_loop fuel img_x img_y id n
         (fun i j img => Done (store img (pixel_index img_x i j) (v i j))) o)
    img_x n (fun x y => 0 <= x < img_x /\ 0 <= y < img_y) owner
    (fun x y => v y x) img) as (img1 & Hrun & Hhit & Hframe).
  { intros; lia. }
  { intros id Hid.
    destruct (image_fill_loop_spec img_x img_y n fuel Hfit
                (conj Hn1 Hn2) Hfuel id) as (cs & Hcs & Hloop);
      [unfold half in *; lia|].
    exists (map (fun c => (fst c * img_x + snd c, v (fst c) (snd c))) cs).
    split.
    - intros w. rewrite in_map_iff. split.
      + intros ([i j] & <- & Hin). apply Hcs in Hin. cbn [fst snd] in *.
        exists j, i. unfold owner. tauto.
      + intros (x & y & (HD & HL) & ->). exists (y, x).
        split; [reflexivity|]. apply Hcs. cbn [fst snd].
        unfold owner in HL. tauto.
    - intros o. rewrite Hloop.
      apply fold_outcome_writes. intros [i j] o' Hin. cbn [fst snd].
      apply Hcs in Hin. cbn [fst snd] in Hin.
      now rewrite (pixel_index_small img_x img_y) by (assumption || lia). }
  exists img1. split; [assumption|]. split.
  - intros i j Hi Hj. apply Hhit; [lia|].
    unfold owner. destruct (img_x <? img_y).
    + exists (i mod n).
      pose proof (Z.mod_pos_bound i n ltac:(lia)).
      pose proof (Z.mod_le i n ltac:(lia) ltac:(lia)).
      split; [lia|]. split; [lia | apply mod0_residue; lia].
    + exists (j mod n).
      pose proof (Z.mod_pos_bound j n ltac:(lia)).
      pose proof (Z.mod_le j n ltac:(lia) ltac:(lia)).
      split; [lia|]. split; [lia | apply mod0_residue; lia].
  - intros p Hp. apply Hframe. intros x y [Hx Hy] ->. apply Hp. nia.
Qed.

(** X6.  Run over all lanes, [zero_conv2d_image] completes, sets every
    element of the image to 0 and leaves every other element of the buffer
    as it was. *)
Theorem zero_clears_image :
  forall img img_x img_y numThreads fuel,
    fits img_x img_y -> lanes numThreads ->
    (Z.to_nat (Z.max img_x img_y) < fuel)%nat ->
    exists img1,
      run_lanes (fun o => zero_conv2d_image fuel o img_x img_y) numThreads img
      = Done img1 /\
      (forall i j, 0 <= i < img_y -> 0 <= j < img_x ->
                   img1 (i * img_x + j) = 0) /\
      (forall p, ~ 0 <= p < img_x * img_y -> img1 p = img p).
Proof. exact (image_fill_run (fun _ _ => 0)). Qed.

Lemma zero_clears_image_witness :
  exists img1,
    run_lanes (fun o => zero_conv2d_image 6 o 5 3) 2 (constant 9) = Done img1 /\
    (forall i j, 0 <= i < 3 -> 0 <= j < 5 -> img1 (i * 5 + j) = 0) /\
    (forall p, ~ 0 <= p < 5 * 3 -> img1 p = constant 9 p).
Proof.
  apply (zero_clears_image (constant 9) 5 3 2 6).
  - unfold fits, half. lia.
  - unfold lanes, half. lia.
  - simpl. lia.
Defined.

(** ** The exact value of a pixel *)

Lemma weight_sum_range k cnt : 0 <= weight_sum k cnt < wB.
Proof.
  unfold weight_sum, for_pure.
  destruct (Z.to_nat (cnt - 0)) as [|c]; [simpl; unfold wB; lia|].
  assert (H : forall c v (a : Z),
            0 <= loop_up (S c) v
                   (fun iu weight => addu weight (k (to_s iu))) a < wB).
  { clear. induction c as [|c IH]; intros v a.
    - simpl. apply to_u_range.
    - change (loop_up (S (S c)) v ?f a) with (loop_up (S c) (v + 1) f (f v a)).
      apply IH. }
  apply H.
Qed.

(** The divisor is the sum of the weights reduced modulo 2^32. *)
Lemma weight_sum_congr k cnt :
  cnt < half -> weight_sum k cnt = to_u (kernel_total k cnt).
Proof.
  intros Hc. rewrite <- (to_u_small (weight_sum k cnt))
    by apply weight_sum_range.
  unfold weight_sum, kernel_total.
  apply (for_pure_rel (fun a b => to_u a = to_u b)); [reflexivity|].
  intros i w t Hi Hwt. unfold addu.
  rewrite to_s_small by (unfold half in *; lia).
  rewrite to_u_idem, <- to_u_add_l, Hwt, to_u_add_l. reflexivity.
Qed.

Section Exact.
Variables (inp k : buffer) (in_x in_y k_x k_y : Z).
Hypothesis Hfit : fits in_x in_y.
Hypothesis Hkx : 1 <= k_x <= in_x.
Hypothesis Hky : 1 <= k_y <= in_y.

Lemma kernel_size : 1 <= k_x * k_y < half.
Proof. destruct Hfit as (Hx & Hy & Hxy). nia. Qed.

Lemma kernel_count : mulu k_x k_y = k_x * k_y.
Proof.
  pose proof kernel_size. unfold mulu.
  apply to_u_small. unfold half, wB in *. lia.
Qed.

(** The accumulated [int32_t] sum is the weighted window sum modulo 2^32. *)
Lemma shifted_sum_exact x y :
  interior in_x in_y (k_x / 2) (k_y / 2) x y ->
  to_u (conv2d_shifted_sum inp in_x k k_x k_y (x - k_x / 2) (y - k_y / 2))
  = to_u (window_dot inp in_x k k_x k_y x y).
Proof.
  intros [Rx Ry].
  destruct (half_kernel k_x) as [Px Qx]; [lia|].
  destruct (half_kernel k_y) as [Py Qy]; [lia|].
  pose proof kernel_size as Hk.
  destruct Hfit as (Hx & Hy & Hxy).
  unfold conv2d_shifted_sum, window_dot.
  apply (for_pure_rel (fun a b => to_u a = to_u b)); [reflexivity|].
  intros m a b Hm Hab.
  apply (for_pure_rel (fun a b => to_u a = to_u b)); [assumption|].
  intros n a' b' Hn Hab'.
  assert (Ey : addu (y - k_y / 2) m = y - k_y / 2 + m).
  { unfold addu. apply to_u_small. unfold half, wB in *. lia. }
  assert (Ex : addu (x - k_x / 2) n = x - k_x / 2 + n).
  { unfold addu. apply to_u_small. unfold half, wB in *. lia. }
  rewrite Ey, Ex.
  rewrite (index_small in_x in_y) by (unfold fits; lia).
  assert (Ek : addu (mulu m k_x) n = m * k_x + n).
  { assert (0 <= m * k_x + n < k_x * k_y) by nia.
    unfold addu, mulu. rewrite to_u_add_l.
    apply to_u_small. unfold half, wB in *; lia. }
  rewrite Ek. now apply accumulate_congr.
Qed.

Lemma shifted_pixel_closed x y :
  interior in_x in_y (k_x / 2) (k_y / 2) x y ->
  conv2d_shifted_pixel inp in_x k k_x k_y x y
  = to_s (to_u (window_dot inp in_x k k_x k_y x y)
          / to_u (kernel_total k (k_x * k_y))).
Proof.
  intros HD. pose proof kernel_size as Hk.
  unfold conv2d_shifted_pixel, quotient.
  rewrite shifted_sum_exact by assumption.
  rewrite kernel_count, weight_sum_congr by lia. reflexivity.
Qed.

Lemma shifted_pixel_exact x y :
  interior in_x in_y (k_x / 2) (k_y / 2) x y ->
  0 < kernel_total k (k_x * k_y) < wB ->
  0 <= window_dot inp in_x k k_x k_y x y < half ->
  conv2d_shifted_pixel inp in_x k k_x k_y x y
  = window_dot inp in_x k k_x k_y x y / kernel_total k (k_x * k_y).
Proof.
  intros HD Hw Ht. rewrite shifted_pixel_closed by assumption.
  rewrite !to_u_small by (unfold half, wB in *; lia).
  apply to_s_small.
  assert (0 <= window_dot inp in_x k k_x k_y x y / kernel_total k (k_x * k_y)
          <= window_dot inp in_x k k_x k_y x y).
  { split; [apply Z.div_pos; lia | apply Z.div_le_upper_bound; nia]. }
  unfold half in *. lia.
Qed.

(** Both general kernels, run over all lanes, leave the shifted pixel at
    every coordinate of the interior. *)
Lemma conv2d_general_runs numThreads out fuel :
  lanes numThreads -> weight_sum k (mulu k_x k_y) <> 0 ->
  (Z.to_nat in_x < fuel)%nat ->
  exists o1 o2,
    run_lanes (fun o => conv2d_parallel fuel inp in_x in_y k k_x k_y o)
      numThreads out = Done o1 /\
    run_lanes (fun o => conv2d_shifted_parallel fuel inp in_x in_y k k_x k_y o)
      numThreads out = Done o2 /\
    forall x y,
      interior in_x in_y (k_x / 2) (k_y / 2) x y ->
      o1 (y * in_x + x) = conv2d_shifted_pixel inp in_x k k_x k_y x y /\
      o2 (y * in_x + x) = conv2d_shifted_pixel inp in_x k k_x k_y x y.
Proof.
  intros Hlanes Hw Hfuel.
  destruct (half_kernel k_x) as [Px Qx]; [lia|].
  destruct (half_kernel k_y) as [Py Qy]; [lia|].
  destruct (conv2d_parallel_run inp k in_x in_y k_x k_y numThreads Hfit Hlanes
              ltac:(lia) ltac:(lia) Hw fuel out Hfuel) as (o1 & R1 & V1 & _).
  destruct (conv2d_shifted_run inp k in_x in_y k_x k_y numThreads Hfit Hlanes
              ltac:(lia) ltac:(lia) Hw fuel out Hfuel) as (o2 & R2 & V2 & _).
  exists o1, o2. split; [assumption|]. split; [assumption|].
  intros x y HD. rewrite V1, V2 by assumption.
  rewrite (centred_shifted_pixel inp k in_x in_y k_x k_y Hfit)
    by (assumption || lia).
  auto.
Qed.
End Exact.

(** X7.  The closed form of the two general kernels, wrap-around included:
    for a kernel no larger than the image whose weights do not sum to a
    multiple of 2^32, [conv2d_parallel] and [conv2d_shifted_parallel], run
    over all lanes, complete and leave at every coordinate of the valid
    interior the signed reading of the unsigned 32-bit quotient of the
    weighted window sum modulo 2^32 by the weight sum modulo 2^32. *)
Theorem conv2d_closed_form :
  forall inp k in_x in_y k_x k_y numThreads out fuel,
    fits in_x in_y -> lanes numThreads ->
    1 <= k_x <= in_x -> 1 <= k_y <= in_y ->
    to_u (kernel_total k (k_x * k_y)) <> 0 ->
    (Z.to_nat in_x < fuel)%nat ->
    exists o1 o2,
      run_lanes (fun o => conv2d_parallel fuel inp in_x in_y k k_x k_y o)
        numThreads out = Done o1 /\
      run_lanes (fun o => conv2d_shifted_parallel fuel inp in_x in_y k k_x k_y o)
        numThreads out = Done o2 /\
      forall x y,
        interior in_x in_y (k_x / 2) (k_y / 2) x y ->
        o1 (y * in_x + x)
        = to_s (to_u (window_dot inp in_x k k_x k_y x y)
                / to_u (kernel_total k (k_x * k_y))) /\
        o2 (y * in_x + x) = o1 (y * in_x + x).
Proof.
  intros inp k in_x in_y k_x k_y n out fuel Hfit Hlanes Hkx Hky Hw Hfuel.
  pose proof (kernel_size in_x in_y k_x k_y Hfit Hkx Hky) as Hk.
  assert (Hw' : weight_sum k (mulu k_x k_y) <> 0).
  { rewrite (kernel_count in_x in_y k_x k_y Hfit Hkx Hky).
    rewrite weight_sum_congr by lia. exact Hw. }
  destruct (conv2d_general_runs inp k in_x in_y k_x k_y Hfit Hkx Hky n out fuel
              Hlanes Hw' Hfuel) as (o1 & o2 & R1 & R2 & V).
  exists o1, o2. split; [assumption|]. split; [assumption|].
  intros x y HD. destruct (V x y HD) as [V1 V2]. rewrite V1, V2.
  split; [|reflexivity].
  now apply (shifted_pixel_closed inp k in_x in_y k_x k_y).
Qed.

Lemma conv2d_closed_form_witness :
  exists o1 o2,
    run_lanes (fun o => conv2d_parallel 6 ramp 5 5 smooth_3x3 3 3 o)
      2 (constant 0) = Done o1 /\
    run_lanes (fun o => conv2d_shifted_parallel 6 ramp 5 5 smooth_3x3 3 3 o)
      2 (constant 0) = Done o2 /\
    forall x y,
      interior 5 5 (3 / 2) (3 / 2) x y ->
      o1 (y * 5 + x)
      = to_s (to_u (window_dot ramp 5 smooth_3x3 3 3 x y)
              / to_u (kernel_total smooth_3x3 (3 * 3))) /\
      o2 (y * 5 + x) = o1 (y * 5 + x).
Proof.
  apply (conv2d_closed_form ramp smooth_3x3 5 5 3 3 2 (constant 0) 6).
  - unfold fits, half. lia.
  - unfold lanes, half. lia.
  - lia.
  - lia.
  - now vm_compute.
  - simpl. lia.
Defined.

(** X8.  The weighted average: when the weights sum to a positive value
    below 2^32, at every coordinate of the valid interior whose weighted
    window sum lies in [0, 2^31) both general kernels store that sum
    divided by the sum of the weights, rounded down. *)
Theorem conv2d_weighted_average :
  forall inp k in_x in_y k_x k_y numThreads out fuel,
    fits in_x in_y -> lanes numThreads ->
    1 <= k_x <= in_x -> 1 <= k_y <= in_y ->
    0 < kernel_total k (k_x * k_y) < wB ->
    (Z.to_nat in_x < fuel)%nat ->
    exists o1 o2,
      run_lanes (fun o => conv2d_parallel fuel inp in_x in_y k k_x k_y o)
        numThreads out = Done o1 /\
      run_lanes (fun o => conv2d_shifted_parallel fuel inp in_x in_y k k_x k_y o)
        numThreads out = Done o2 /\
      forall x y,
        interior in_x in_y (k_x / 2) (k_y / 2) x y ->
        0 <= window_dot inp in_x k k_x k_y x y < half ->
        o1 (y * in_x + x)
        = window_dot inp in_x k k_x k_y x y / kernel_total k (k_x * k_y) /\
        o2 (y * in_x + x)
        = window_dot inp in_x k k_x k_y x y / kernel_total k (k_x * k_y).
Proof.
  intros inp k in_x in_y k_x k_y n out fuel Hfit Hlanes Hkx Hky Hw Hfuel.
  pose proof (kernel_size in_x in_y k_x k_y Hfit Hkx Hky) as Hk.
  assert (Hw' : weight_sum k (mulu k_x k_y) <> 0).
  { rewrite (kernel_count in_x in_y k_x k_y Hfit Hkx Hky).
    rewrite weight_sum_exact; lia. }
  destruct (conv2d_general_runs inp k in_x in_y k_x k_y Hfit Hkx Hky n out fuel
              Hlanes Hw' Hfuel) as (o1 & o2 & R1 & R2 & V).
  exists o1, o2. split; [assumption|]. split; [assumption|].
  intros x y HD Ht. destruct (V x y HD) as [V1 V2]. rewrite V1, V2.
  split; apply (shifted_pixel_exact inp k in_x in_y k_x k_y); assumption.
Qed.

Lemma conv2d_weighted_average_witness :
  exists o1 o2,
    run_lanes (fun o => conv2d_parallel 6 ramp 5 5 smooth_3x3 3 3 o)
      2 (constant 0) = Done o1 /\
    run_lanes (fun o => conv2d_shifted_parallel 6 ramp 5 5 smooth_3x3 3 3 o)
      2 (constant 0) = Done o2 /\
    forall x y,
      interior 5 5 (3 / 2) (3 / 2) x y ->
      0 <= window_dot ramp 5 smooth_3x3 3 3 x y < half ->
      o1 (y * 5 + x)
      = window_dot ramp 5 smooth_3x3 3 3 x y / kernel_total smooth_3x3 (3 * 3) /\
      o2 (y * 5 + x)
      = window_dot ramp 5 smooth_3x3 3 3 x y / kernel_total smooth_3x3 (3 * 3).
Proof.
  apply (conv2d_weighted_average ramp smooth_3x3 5 5 3 3 2 (constant 0) 6).
  - unfold fits, half. lia.
  - unfold lanes, half. lia.
  - lia.
  - lia.
  - now vm_compute.
  - simpl. lia.
Defined.

(** The value the theorem gives for the centre of a 5x5 ramp under the
    smoothing kernel, against the value the kernel computes. *)
Example weighted_average_5x5 :
  window_dot ramp 5 smooth_3x3 3 3 2 2 / kernel_total smooth_3x3 (3 * 3) = 12 /\
  read (run_lanes (fun o => conv2d_parallel 6 ramp 5 5 smooth_3x3 3 3 o)
          2 (constant 0)) 12 = Some 12.
Proof. split; vm_compute; reflexivity. Qed.

Lemma loop_up_app {A} (f : Z -> A -> A) c1 : forall c2 v a,
  loop_up (c1 + c2) v f a = loop_up c2 (v + Z.of_nat c1) f (loop_up c1 v f a).
Proof.
  induction c1 as [|c IH]; intros c2 v a.
  - simpl. now rewrite Z.add_0_r.
  - change (loop_up (S c + c2) v f a) with (loop_up (c + c2) (v + 1) f (f v a)).
    rewrite IH. simpl loop_up. f_equal. lia.
Qed.

Lemma loop_up_rows k k_x cy : forall m0 a,
  0 <= k_x ->
  loop_up cy m0 (fun m total =>
    loop_up (Z.to_nat k_x) 0 (fun n total => total + k (m * k_x + n)) total) a
  = loop_up (cy * Z.to_nat k_x) (m0 * k_x) (fun i total => total + k i) a.
Proof.
  induction cy as [|cy IH]; intros m0 a Hx; [reflexivity|].
  change (S cy * Z.to_nat k_x)%nat with (Z.to_nat k_x + cy * Z.to_nat k_x)%nat.
  rewrite loop_up_app. simpl loop_up at 1.
  rewrite IH by assumption. rewrite Z2Nat.id by assumption.
  replace ((m0 + 1) * k_x) with (m0 * k_x + k_x) by ring.
  f_equal.
  rewrite (loop_up_shift (Z.to_nat k_x) 0 (m0 * k_x) _
             (fun i total => total + k i)).
  - now rewrite Z.add_0_l.
  - intros t acc _. f_equal. f_equal. ring.
Qed.

(** The weights of a kernel summed row by row are the weights summed in
    storage order. *)
Lemma kernel_rows_total k k_x k_y :
  0 <= k_x -> 0 <= k_y ->
  for_pure 0 k_y (fun m total =>
    for_pure 0 k_x (fun n total => total + k (m * k_x + n)) total) 0
  = kernel_total k (k_x * k_y).
Proof.
  intros Hx Hy. unfold kernel_total, for_pure. rewrite !Z.sub_0_r.
  rewrite loop_up_rows by assumption.
  rewrite (Z.mul_comm k_x k_y), Z2Nat.inj_mul by lia. reflexivity.
Qed.

Lemma window_dot_constant inp k in_x in_y k_x k_y x y c :
  fits in_x in_y -> 1 <= k_x <= in_x -> 1 <= k_y <= in_y ->
  (forall p, 0 <= p < in_x * in_y -> inp p = c) ->
  interior in_x in_y (k_x / 2) (k_y / 2) x y ->
  window_dot inp in_x k k_x k_y x y = c * kernel_total k (k_x * k_y).
Proof.
  intros Hfit Hkx Hky Hc [Rx Ry].
  destruct (half_kernel k_x) as [Px Qx]; [lia|].
  destruct (half_kernel k_y) as [Py Qy]; [lia|].
  rewrite <- kernel_rows_total by lia. unfold window_dot.
  apply (for_pure_rel (fun a b => a = c * b)); [ring|].
  intros m a b Hm Hab.
  apply (for_pure_rel (fun a b => a = c * b)); [assumption|].
  intros n a' b' Hn Hab'.
  rewrite Hc; [subst a'; ring|].
  apply (index_bound in_x in_y); lia.
Qed.

(** X9.  A constant image stays constant: when every element of the image
    holds the same value [c >= 0], the weights sum to a positive value
    below 2^32 and [c] times that sum is below 2^31, both general kernels
    store [c] at every coordinate of the valid interior. *)
Theorem conv2d_constant_image :
  forall inp k in_x in_y k_x k_y numThreads out fuel c,
    fits in_x in_y -> lanes numThreads ->
    1 <= k_x <= in_x -> 1 <= k_y <= in_y ->
    0 < kernel_total k (k_x * k_y) < wB ->
    (forall p, 0 <= p < in_x * in_y -> inp p = c) ->
    0 <= c -> c * kernel_total k (k_x * k_y) < half ->
    (Z.to_nat in_x < fuel)%nat ->
    exists o1 o2,
      run_lanes (fun o => conv2d_parallel fuel inp in_x in_y k k_x k_y o)
        numThreads out = Done o1 /\
      run_lanes (fun o => conv2d_shifted_parallel fuel inp in_x in_y k k_x k_y o)
        numThreads out = Done o2 /\
      forall x y,
        interior in_x in_y (k_x / 2) (k_y / 2) x y ->
        o1 (y * in_x + x) = c /\ o2 (y * in_x + x) = c.
Proof.
  intros inp k in_x in_y k_x k_y n out fuel c
    Hfit Hlanes Hkx Hky Hw Hc Hc0 Hcw Hfuel.
  pose proof (kernel_size in_x in_y k_x k_y Hfit Hkx Hky) as Hk.
  assert (Hw' : weight_sum k (mulu k_x k_y) <> 0).
  { rewrite (kernel_count in_x in_y k_x k_y Hfit Hkx Hky).
    rewrite weight_sum_exact; lia. }
  destruct (conv2d_general_runs inp k in_x in_y k_x k_y Hfit Hkx Hky n out fuel
              Hlanes Hw' Hfuel) as (o1 & o2 & R1 & R2 & V).
  exists o1, o2. split; [assumption|]. split; [assumption|].
  intros x y HD. destruct (V x y HD) as [V1 V2]. rewrite V1, V2.
  pose proof (window_dot_constant inp k in_x in_y k_x k_y x y c
                Hfit Hkx Hky Hc HD) as Hdot.
  rewrite (shifted_pixel_exact inp k in_x in_y k_x k_y Hfit Hkx Hky x y HD Hw)
    by (rewrite Hdot; nia).
  rewrite Hdot, Z.div_mul by lia. auto.
Qed.

Lemma conv2d_constant_image_witness :
  exists o1 o2,
    run_lanes (fun o => conv2d_parallel 6 (constant 7) 5 4 smooth_3x3 3 3 o)
      2 (constant 0) = Done o1 /\
    run_lanes
      (fun o => conv2d_shifted_parallel 6 (constant 7) 5 4 smooth_3x3 3 3 o)
      2 (constant 0) = Done o2 /\
    forall x y,
      interior 5 4 (3 / 2) (3 / 2) x y ->
      o1 (y * 5 + x) = 7 /\ o2 (y * 5 + x) = 7.
Proof.
  apply (conv2d_constant_image (constant 7) smooth_3x3 5 4 3 3 2 (constant 0)
           6 7).
  - unfold fits, half. lia.
  - unfold lanes, half. lia.
  - lia.
  - lia.
  - now vm_compute.
  - reflexivity.
  - lia.
  - now vm_compute.
  - simpl. lia.
Defined.

(** ** The 3x3 variants as instances of the general ones *)

Lemma shifted_sum_3x3 inp k in_x in_y x y :
  fits in_x in_y -> interior in_x in_y 1 1 x y ->
  conv2d_shifted_sum inp in_x k 3 3 (x - 1) (y - 1)
  = sum_3x3_shifted inp in_x k (x - 1) (y - 1).
Proof.
  intros Hfit [Rx Ry]. unfold conv2d_shifted_sum, sum_3x3_shifted, for_pure.
  change (Z.to_nat (3 - 0)) with 3%nat. cbn [loop_up].
  change (0 + 1 + 1) with 2. change (0 + 1) with 1.
  rewrite !(unrolled_index in_x in_y Hfit) by lia.
  rewrite !(shifted_index in_x in_y Hfit) by lia.
  change (addu (mulu 0 3) 0) with 0. change (addu (mulu 0 3) 1) with 1.
  change (addu (mulu 0 3) 2) with 2. change (addu (mulu 1 3) 0) with 3.
  change (addu (mulu 1 3) 1) with 4. change (addu (mulu 1 3) 2) with 5.
  change (addu (mulu 2 3) 0) with 6. change (addu (mulu 2 3) 1) with 7.
  change (addu (mulu 2 3) 2) with 8.
  reflexivity.
Qed.

Lemma shifted_pixel_3x3 inp k in_x in_y x y :
  fits in_x in_y -> interior in_x in_y 1 1 x y ->
  conv2d_shifted_pixel inp in_x k 3 3 x y
  = conv2d_3x3_shifted_pixel inp in_x k x y.
Proof.
  intros Hfit HD. unfold conv2d_shifted_pixel, conv2d_3x3_shifted_pixel.
  change (3 / 2) with 1. change (mulu 3 3) with 9.
  now rewrite (shifted_sum_3x3 inp k in_x in_y).
Qed.

(** X10.  The unrolled shifted 3x3 kernel is the general kernels at
    [k_x = k_y = 3]: on an image of at least 2x2 and a kernel with positive
    weight sum, [conv2d_parallel] and [conv2d_shifted_parallel] called with
    a 3x3 kernel and [conv2d_3x3_shifted_unrolled_parallel], each run over
    all lanes from the same output buffer, complete and leave identical
    buffers. *)
Theorem conv2d_3x3_specialises :
  forall inp k in_x in_y numThreads out fuel,
    fits in_x in_y -> lanes numThreads -> 2 <= in_x -> 2 <= in_y ->
    0 < weight_sum k 9 -> (Z.to_nat in_x < fuel)%nat ->
    exists o1 o2 o3,
      run_lanes (fun o => conv2d_parallel fuel inp in_x in_y k 3 3 o)
        numThreads out = Done o1 /\
      run_lanes (fun o => conv2d_shifted_parallel fuel inp in_x in_y k 3 3 o)
        numThreads out = Done o2 /\
      run_lanes (conv2d_3x3_shifted_unrolled_parallel fuel inp in_x in_y k)
        numThreads out = Done o3 /\
      forall p, o1 p = o3 p /\ o2 p = o3 p.
Proof.
  intros inp k in_x in_y n out fuel Hfit Hlanes Hx2 Hy2 Hw Hfuel.
  assert (Hw' : weight_sum k 9 <> 0) by lia.
  assert (Hk3 : 0 <= 3 /\ 2 * (3 / 2) <= in_x) by (change (3 / 2) with 1; lia).
  assert (Hk3' : 0 <= 3 /\ 2 * (3 / 2) <= in_y) by (change (3 / 2) with 1; lia).
  assert (Hh3 : 0 <= 3 /\ 3 / 2 <= in_x) by (change (3 / 2) with 1; lia).
  assert (Hh3' : 0 <= 3 /\ 3 / 2 <= in_y) by (change (3 / 2) with 1; lia).
  destruct (conv2d_parallel_run inp k in_x in_y 3 3 n Hfit Hlanes Hh3 Hh3'
              Hw' fuel out Hfuel) as (o1 & R1 & V1 & F1).
  destruct (conv2d_shifted_run inp k in_x in_y 3 3 n Hfit Hlanes Hk3 Hk3'
              Hw' fuel out Hfuel) as (o2 & R2 & V2 & F2).
  destruct (conv2d_3x3_shifted_run inp k in_x in_y n Hfit Hlanes Hx2 Hy2
              Hw' fuel out Hfuel) as (o3 & R3 & V3 & F3).
  change (3 / 2) with 1 in V1, F1, V2, F2.
  exists o1, o2, o3.
  split; [assumption|]. split; [assumption|]. split; [assumption|].
  intros p.
  destruct (interior_index_dec in_x in_y 1 1 p ltac:(lia))
    as [(x & y & HD & ->)|Hout].
  - rewrite V1, V2, V3 by assumption.
    rewrite (centred_shifted_pixel inp k in_x in_y 3 3 Hfit Hk3 Hk3')
      by assumption.
    rewrite (shifted_pixel_3x3 inp k in_x in_y) by assumption. auto.
  - rewrite F1, F2, F3 by assumption. auto.
Qed.

Lemma conv2d_3x3_specialises_witness :
  exists o1 o2 o3,
    run_lanes (fun o => conv2d_parallel 6 ramp 5 4 smooth_3x3 3 3 o)
      2 (constant 0) = Done o1 /\
    run_lanes (fun o => conv2d_shifted_parallel 6 ramp 5 4 smooth_3x3 3 3 o)
      2 (constant 0) = Done o2 /\
    run_lanes (conv2d_3x3_shifted_unrolled_parallel 6 ramp 5 4 smooth_3x3)
      2 (constant 0) = Done o3 /\
    forall p, o1 p = o3 p /\ o2 p = o3 p.
Proof.
  apply (conv2d_3x3_specialises ramp smooth_3x3 5 4 2 (constant 0) 6).
  - unfold fits, half. lia.
  - unfold lanes, half. lia.
  - lia.
  - lia.
  - now vm_compute.
  - simpl. lia.
Defined.

Lemma weight_sum_9 k :
  weight_sum k 9
  = to_u (k 0 + k 1 + k 2 + k 3 + k 4 + k 5 + k 6 + k 7 + k 8).
Proof.
  rewrite weight_sum_congr by (unfold half; lia). reflexivity.
Qed.

(** X3.  The kernel that copies the centre pixel: with weight 1 at the
    centre of the 3x3 kernel and 0 elsewhere,
    [conv2d_3x3_shifted_unrolled_parallel] over all lanes copies every
    interior element of an [int32_t] image, negative ones included (the
    unsigned division by 1 changes nothing), and leaves the border of the
    output as it was. *)
Theorem identity_kernel_copies_interior :
  forall inp k in_x in_y numThreads out fuel,
    fits in_x in_y -> lanes numThreads -> 2 <= in_x -> 2 <= in_y ->
    centre_only k ->
    (forall p, 0 <= p < in_x * in_y -> - half <= inp p < half) ->
    (Z.to_nat in_x < fuel)%nat ->
    exists o,
      run_lanes (conv2d_3x3_shifted_unrolled_parallel fuel inp in_x in_y k)
        numThreads out = Done o /\
      (forall x y, interior in_x in_y 1 1 x y ->
                   o (y * in_x + x) = inp (y * in_x + x)) /\
      (forall p, border in_x in_y 1 1 p -> o p = out p).
Proof.
  intros inp k in_x in_y n out fuel Hfit Hlanes Hx2 Hy2 [Hk4 Hk0] Hinp Hfuel.
  assert (Hw : weight_sum k 9 = 1).
  { rewrite weight_sum_9, Hk4, !Hk0 by lia. reflexivity. }
  destruct (conv2d_3x3_shifted_run inp k in_x in_y n Hfit Hlanes Hx2 Hy2
              ltac:(lia) fuel out Hfuel) as (o & R & V & F).
  exists o. split; [assumption|]. split; [|assumption].
  intros x y HD. rewrite V by assumption. destruct HD as [Rx Ry].
  unfold conv2d_3x3_shifted_pixel, quotient. rewrite Hw, Z.div_1_r.
  rewrite to_s_to_u.
  assert (Hsum : to_u (sum_3x3_shifted inp in_x k (x - 1) (y - 1))
                 = to_u (inp (y * in_x + x))).
  { unfold sum_3x3_shifted.
    rewrite !(shifted_index in_x in_y Hfit) by lia.
    rewrite Hk4, !Hk0 by lia.
    eapply eq_trans; [repeat apply accumulate_congr; reflexivity|].
    f_equal. replace (y - 1 + 1) with y by ring.
    replace (x - 1 + 1) with x by ring. ring. }
  rewrite <- to_s_to_u, Hsum, to_s_to_u.
  apply to_s_small. apply Hinp.
  destruct Hfit as (Hx & Hy & Hxy). apply (index_bound in_x in_y); lia.
Qed.

Lemma identity_kernel_copies_interior_witness :
  exists o,
    run_lanes
      (conv2d_3x3_shifted_unrolled_parallel 6 (fun p => 3 - p) 5 4 centre_3x3)
      2 (constant 0) = Done o /\
    (forall x y, interior 5 4 1 1 x y -> o (y * 5 + x) = 3 - (y * 5 + x)) /\
    (forall p, border 5 4 1 1 p -> o p = constant 0 p).
Proof.
  apply (identity_kernel_copies_interior (fun p => 3 - p) centre_3x3 5 4 2
           (constant 0) 6).
  - unfold fits, half. lia.
  - unfold lanes, half. lia.
  - lia.
  - lia.
  - split; [reflexivity|]. intros p Hp Hne.
    assert (Hc : p = 0 \/ p = 1 \/ p = 2 \/ p = 3 \/ p = 5 \/ p = 6 \/
                 p = 7 \/ p = 8) by lia.
    repeat (destruct Hc as [-> | Hc]; [reflexivity|]). now subst p.
  - intros p Hp. unfold half. lia.
  - simpl. lia.
Defined.

(** ** The columns the block partition leaves out *)

(** A column belongs to the block of some lane exactly when it is not one
    of the columns that follow the blocks of the first
    [in_x % numThreads] lanes. *)
Lemma block_cover in_x numThreads x :
  0 <= in_x < wB -> 1 <= numThreads < wB -> 0 <= x < in_x ->
  ((exists id, 0 <= id < numThreads /\ block_owns in_x numThreads id x) <->
   ~ skipped_column in_x numThreads x).
Proof.
  intros Hx Hn Rx.
  pose proof (Z.div_mod in_x numThreads ltac:(lia)) as Hdm.
  pose proof (Z.mod_pos_bound in_x numThreads ltac:(lia)) as Hm.
  assert (Hd : 0 <= in_x / numThreads) by (apply Z.div_pos; lia).
  unfold skipped_column.
  set (d := in_x / numThreads) in *. set (r := in_x mod numThreads) in *.
  split.
  - intros (id & Hid & Hown) (id' & Hid' & Hgap).
    unfold block_owns in Hown.
    rewrite block_range_closed in Hown by assumption.
    fold d r in Hown. cbn [fst snd] in Hown.
    destruct (Z_lt_le_dec id r) as [Hlt|Hge].
    + rewrite Z.min_l in Hown by lia.
      assert (id' < id) by nia. nia.
    + rewrite Z.min_r in Hown by lia. nia.
  - intros Hns. destruct (Z_lt_le_dec x ((d + 1) * r)) as [Hlt|Hge].
    + pose proof (Z.div_mod x (d + 1) ltac:(lia)) as Hxd.
      pose proof (Z.mod_pos_bound x (d + 1) ltac:(lia)) as Hxm.
      assert (Hq : 0 <= x / (d + 1)) by (apply Z.div_pos; lia).
      set (q := x / (d + 1)) in *. set (m := x mod (d + 1)) in *.
      assert (Hqr : q < r) by nia.
      assert (Hmd : m <> d).
      { intros Heq. apply Hns. exists q. split; [lia|]. lia. }
      exists q. split; [lia|]. unfold block_owns.
      rewrite block_range_closed by (assumption || lia).
      fold d r. cbn [fst snd]. rewrite Z.min_l by lia. lia.
    + set (x' := x - (d + 1) * r).
      assert (Hx' : 0 <= x' < d * (numThreads - r)) by (unfold x'; nia).
      assert (Hd1 : 1 <= d) by nia.
      pose proof (Z.div_mod x' d ltac:(lia)) as Hxd.
      pose proof (Z.mod_pos_bound x' d ltac:(lia)) as Hxm.
      assert (Hq : 0 <= x' / d) by (apply Z.div_pos; lia).
      set (q := x' / d) in *. set (m := x' mod d) in *.
      assert (Hqn : q < numThreads - r) by nia.
      exists (r + q). split; [lia|]. unfold block_owns.
      rewrite block_range_closed by (assumption || lia).
      fold d r. cbn [fst snd]. rewrite Z.min_r by lia.
      unfold x' in *. lia.
Qed.

(** All lanes of the block variant: the interior pixels of the columns
    that lie in the block of some lane are computed, everything else is
    left as it was. *)
Lemma conv2d_3x3_unrolled_owned inp k in_x in_y numThreads out :
  fits in_x in_y -> lanes numThreads -> 2 <= in_x -> 2 <= in_y ->
  weight_sum k 9 <> 0 ->
  let owned x :=
    exists id, 0 <= id < numThreads /\ block_owns in_x numThreads id x in
  exists o,
    run_lanes (conv2d_3x3_unrolled_parallel inp in_x in_y k) numThreads out
    = Done o /\
    (forall x y, interior in_x in_y 1 1 x y -> owned x ->
       o (y * in_x + x) = conv2d_3x3_unrolled_pixel inp in_x k x y) /\
    (forall x y, interior in_x in_y 1 1 x y -> ~ owned x ->
       o (y * in_x + x) = out (y * in_x + x)) /\
    (forall p, border in_x in_y 1 1 p -> o p = out p).
Proof.
  intros Hfit Hlanes Hx2 Hy2 Hw owned.
  destruct (run_lanes_pixels (conv2d_3x3_unrolled_parallel inp in_x in_y k)
              in_x numThreads
              (fun x y => interior in_x in_y 1 1 x y /\ owned x)
              (fun id x _ => block_owns in_x numThreads id x)
              (conv2d_3x3_unrolled_pixel inp in_x k) out)
    as (o & Hrun & Hhit & Hframe).
  { unfold interior. intros; lia. }
  { intros id Hid.
    destruct (conv2d_3x3_unrolled_lane inp k in_x in_y numThreads Hfit Hw id)
      as (ws & Hws & Hlane); try lia.
    exists ws. split; [|assumption].
    intros w. rewrite Hws. split.
    - intros (x & y & (HD & Ho) & ->). exists x, y.
      split; [|reflexivity]. split; [|assumption].
      split; [assumption|]. exists id. auto.
    - intros (x & y & ((HD & _) & Ho) & ->). exists x, y. auto. }
  exists o. split; [assumption|]. split; [|split].
  - intros x y HD Ho. apply Hhit; [split; assumption | exact Ho].
  - intros x y HD Hno. apply Hframe.
    intros x' y' [HD' Ho'] Heq.
    destruct (index_inj in_x x y x' y') as [-> _];
      [unfold interior in *; lia .. | assumption |].
    contradiction.
  - intros p Hp. apply Hframe. intros x y [HD _]. now apply Hp.
Qed.

(** X11.  What [conv2d_3x3_unrolled_parallel] computes, for every lane
    count: run over all lanes it completes; an interior pixel is computed
    unless its column is [(d + 1) * id + d] for some [id < in_x %
    numThreads], where [d = in_x / numThreads]; the interior pixels of
    these [in_x % numThreads] columns, like the border, keep the value the
    output buffer held before.  (With more lanes than columns, [d = 0] and
    nothing is computed.) *)
Theorem conv2d_3x3_unrolled_skips_columns :
  forall inp k in_x in_y numThreads out,
    fits in_x in_y -> lanes numThreads -> 2 <= in_x -> 2 <= in_y ->
    0 < weight_sum k 9 ->
    exists o,
      run_lanes (conv2d_3x3_unrolled_parallel inp in_x in_y k) numThreads out
      = Done o /\
      (forall x y, interior in_x in_y 1 1 x y ->
         ~ skipped_column in_x numThreads x ->
         o (y * in_x + x) = conv2d_3x3_unrolled_pixel inp in_x k x y) /\
      (forall x y, interior in_x in_y 1 1 x y ->
         skipped_column in_x numThreads x ->
         o (y * in_x + x) = out (y * in_x + x)) /\
      (forall p, border in_x in_y 1 1 p -> o p = out p).
Proof.
  intros inp k in_x in_y n out Hfit Hlanes Hx2 Hy2 Hw.
  assert (Hxw : 0 <= in_x < wB)
    by (destruct Hfit as (Hx & _); unfold half, wB in *; lia).
  assert (Hnw : 1 <= n < wB)
    by (destruct Hlanes; unfold half, wB in *; lia).
  destruct (conv2d_3x3_unrolled_owned inp k in_x in_y n out Hfit Hlanes
              Hx2 Hy2 ltac:(lia)) as (o & Hrun & Hown & Hskip & Hframe).
  exists o. split; [assumption|]. split; [|split; [|assumption]].
  - intros x y HD Hns. apply Hown; [assumption|].
    apply block_cover; try assumption. unfold interior in HD. lia.
  - intros x y HD Hs. apply Hskip; [assumption|].
    intros Ho. apply (block_cover in_x n x) in Ho; try assumption;
      [contradiction|].
    unfold interior in HD. lia.
Qed.

Lemma conv2d_3x3_unrolled_skips_columns_witness :
  exists o,
    run_lanes (conv2d_3x3_unrolled_parallel ramp 8 3 centre_3x3) 3 (constant 0)
    = Done o /\
    (forall x y, interior 8 3 1 1 x y -> ~ skipped_column 8 3 x ->
       o (y * 8 + x) = conv2d_3x3_unrolled_pixel ramp 8 centre_3x3 x y) /\
    (forall x y, interior 8 3 1 1 x y -> skipped_column 8 3 x ->
       o (y * 8 + x) = constant 0 (y * 8 + x)) /\
    (forall p, border 8 3 1 1 p -> o p = constant 0 p).
Proof.
  apply (conv2d_3x3_unrolled_skips_columns ramp centre_3x3 8 3 3 (constant 0)).
  - unfold fits, half. lia.
  - unfold lanes, half. lia.
  - lia.
  - lia.
  - now vm_compute.
Defined.

(** Eight columns dealt to three lanes: the columns 2 and 5 are left out,
    and their interior pixels (indices 10 and 13) keep the 0 of the output
    buffer; with six lanes for four columns nothing is computed. *)
Example skipped_columns_8x3 :
  skipped_column 8 3 2 /\ skipped_column 8 3 5 /\
  match run_lanes (conv2d_3x3_unrolled_parallel ramp 8 3 centre_3x3)
          3 (constant 0) with
  | Done out => map out [8; 9; 10; 11; 12; 13; 14; 15]
  | _ => []
  end = [0; 9; 0; 11; 12; 0; 14; 0] /\
  match run_lanes (conv2d_3x3_unrolled_parallel ramp 4 3 centre_3x3)
          6 (constant 0) with
  | Done out => map out [4; 5; 6; 7]
  | _ => []
  end = [0; 0; 0; 0].
Proof.
  split; [exists 0; now vm_compute|].
  split; [exists 1; now vm_compute|].
  split; vm_compute; reflexivity.
Qed.

(** ** The schedule of the lanes *)

(** Two traces that store pixels of one image and hold the same stores, in
    whatever order and multiplicity, leave the same buffer. *)
Lemma pixel_traces_agree in_x (D : Z -> Z -> Prop) pix ws ws' out p :
  (forall x y, D x y -> 0 <= x < in_x) ->
  (forall w, In w ws -> exists x y, D x y /\ w = (y * in_x + x, pix x y)) ->
  (forall w, In w ws <-> In w ws') ->
  apply_writes ws out p = apply_writes ws' out p.
Proof.
  intros Hcol Hws Hsame.
  assert (Hws' : forall w, In w ws' ->
            exists x y, D x y /\ w = (y * in_x + x, pix x y)).
  { intros w Hin. apply Hws. now apply Hsame. }
  destruct (in_dec Z.eq_dec p (map fst ws)) as [Hin|Hnin].
  - apply in_map_iff in Hin as (w & <- & Hw).
    destruct (Hws w Hw) as (x & y & HD & ->). cbn [fst].
    rewrite (pixel_trace_hit in_x D pix ws Hcol Hws out x y HD Hw).
    symmetry. apply (pixel_trace_hit in_x D pix ws' Hcol Hws' out x y HD).
    now apply Hsame.
  - rewrite !apply_writes_miss; [reflexivity | |].
    + intros w Hw Heq. apply Hnin. rewrite <- Heq. apply in_map.
      now apply Hsame.
    + intros w Hw Heq. apply Hnin. rewrite <- Heq. now apply in_map.
Qed.

(** The lanes may run in any order, and any lane any number of times: the
    buffer left behind is the one the ascending order leaves. *)
Lemma lanes_any_order {E} (kernel : buffer -> Z -> Z -> outcome E buffer)
    (in_x n : Z) (D : Z -> Z -> Prop) (L : Z -> Z -> Z -> Prop)
    (pix : Z -> Z -> Z) (out : buffer) (ids : list Z) :
  (forall x y, D x y -> 0 <= x < in_x) ->
  (forall id, 0 <= id < n ->
     exists ws,
       (forall w, In w ws <->
          exists x y, (D x y /\ L id x y) /\ w = (y * in_x + x, pix x y)) /\
       forall o, kernel o id n = Done (apply_writes ws o)) ->
  (forall id, In id ids <-> 0 <= id < n) ->
  exists o1 o2,
    run_lanes kernel n out = Done o1 /\
    fold_outcome (fun id o => kernel o id n) ids out = Done o2 /\
    forall p, o1 p = o2 p.
Proof.
  intros Hcol Hlane Hids.
  destruct (finite_choice
    (fun id ws =>
       (forall w, In w ws <->
          exists x y, (D x y /\ L id x y) /\ w = (y * in_x + x, pix x y)) /\
       forall o, kernel o id n = Done (apply_writes ws o)) (lane_ids n))
    with (d := @nil (Z * Z)) as [W HW].
  { intros id Hin. apply In_lane_ids in Hin. now apply Hlane. }
  assert (HW' : forall id, In id ids ->
            (forall w, In w (W id) <->
               exists x y, (D x y /\ L id x y) /\ w = (y * in_x + x, pix x y)) /\
            forall o, kernel o id n = Done (apply_writes (W id) o)).
  { intros id Hin. apply HW, In_lane_ids, Hids, Hin. }
  exists (apply_writes (flat_map W (lane_ids n)) out),
         (apply_writes (flat_map W ids) out).
  split; [|split].
  - unfold run_lanes. apply fold_lanes_writes.
    intros id o Hin. apply (HW id Hin).
  - apply fold_lanes_writes. intros id o Hin. apply (HW' id Hin).
  - intros p. apply (pixel_traces_agree in_x D pix); [assumption | |].
    + intros w Hin. apply in_flat_map in Hin as (id & Hid & Hw).
      apply (HW id Hid) in Hw as (x & y & (HD & _) & ->). eauto.
    + intros w. rewrite !in_flat_map. split; intros (id & Hid & Hw);
        exists id; (split; [|assumption]).
      * apply Hids, In_lane_ids, Hid.
      * apply In_lane_ids, Hids, Hid.
Qed.

(** X12.  The result does not depend on the schedule of the lanes: for
    each of the four convolution variants, calling the lanes one after the
    other in the order of any list that holds exactly the ids
    [0 .. numThreads-1] (in any order, repetitions allowed) completes and
    leaves the same output buffer as calling them in ascending order. *)
Theorem conv2d_lane_order_irrelevant :
  forall inp k in_x in_y k_x k_y numThreads out fuel ids,
    fits in_x in_y -> lanes numThreads ->
    (forall id, In id ids <-> 0 <= id < numThreads) ->
    (Z.to_nat in_x < fuel)%nat ->
    (0 <= k_x /\ 2 * (k_x / 2) <= in_x -> 0 <= k_y /\ 2 * (k_y / 2) <= in_y ->
     0 < weight_sum k (mulu k_x k_y) ->
     (exists o1 o2,
        run_lanes (fun o => conv2d_parallel fuel inp in_x in_y k k_x k_y o)
          numThreads out = Done o1 /\
        fold_outcome
          (fun id o =>
             conv2d_parallel fuel inp in_x in_y k k_x k_y o id numThreads)
          ids out = Done o2 /\
        forall p, o1 p = o2 p) /\
     (exists o1 o2,
        run_lanes (fun o => conv2d_shifted_parallel fuel inp in_x in_y k k_x k_y o)
          numThreads out = Done o1 /\
        fold_outcome
          (fun id o =>
             conv2d_shifted_parallel fuel inp in_x in_y k k_x k_y o id
               numThreads)
          ids out = Done o2 /\
        forall p, o1 p = o2 p)) /\
    (2 <= in_x -> 2 <= in_y -> 0 < weight_sum k 9 ->
     (exists o1 o2,
        run_lanes (conv2d_3x3_unrolled_parallel inp in_x in_y k) numThreads out
        = Done o1 /\
        fold_outcome
          (fun id o =>
             conv2d_3x3_unrolled_parallel inp in_x in_y k o id numThreads)
          ids out = Done o2 /\
        forall p, o1 p = o2 p) /\
     (exists o1 o2,
        run_lanes (conv2d_3x3_shifted_unrolled_parallel fuel inp in_x in_y k)
          numThreads out = Done o1 /\
        fold_outcome
          (fun id o =>
             conv2d_3x3_shifted_unrolled_parallel fuel inp in_x in_y k o id
               numThreads)
          ids out = Done o2 /\
        forall p, o1 p = o2 p)).
Proof.
  intros inp k in_x in_y k_x k_y n out fuel ids Hfit Hlanes Hids Hfuel.
  assert (Hhalf : forall id, 0 <= id < n -> 0 <= id < half)
    by (destruct Hlanes; intros; lia).
  split.
  - intros Hkx Hky Hw.
    assert (Hw' : weight_sum k (mulu k_x k_y) <> 0) by lia.
    destruct (half_kernel k_x) as [Px Qx]; [tauto|].
    destruct (half_kernel k_y) as [Py Qy]; [tauto|].
    split.
    + apply (lanes_any_order
        (fun o => conv2d_parallel fuel inp in_x in_y k k_x k_y o) in_x n
        (interior in_x in_y (k_x / 2) (k_y / 2))
        (fun id x _ => id <= x /\ (x - id) mod n = 0)
        (conv2d_parallel_pixel inp in_x k k_x k_y)); [| |assumption].
      * unfold interior. intros; lia.
      * intros id Hid.
        apply (conv2d_parallel_lane inp k in_x in_y k_x k_y n Hfit Hlanes);
          auto; lia.
    + apply (lanes_any_order
        (fun o => conv2d_shifted_parallel fuel inp in_x in_y k k_x k_y o) in_x n
        (interior in_x in_y (k_x / 2) (k_y / 2))
        (fun id x _ => id <= x - k_x / 2 /\ (x - k_x / 2 - id) mod n = 0)
        (conv2d_shifted_pixel inp in_x k k_x k_y)); [| |assumption].
      * unfold interior. intros; lia.
      * intros id Hid.
        apply (conv2d_shifted_lane inp k in_x in_y k_x k_y n Hfit Hlanes);
          auto.
  - intros Hx2 Hy2 Hw.
    assert (Hw' : weight_sum k 9 <> 0) by lia.
    split.
    + apply (lanes_any_order (conv2d_3x3_unrolled_parallel inp in_x in_y k)
        in_x n (interior in_x in_y 1 1)
        (fun id x _ => block_owns in_x n id x)
        (conv2d_3x3_unrolled_pixel inp in_x k)); [| |assumption].
      * unfold interior. intros; lia.
      * intros id Hid.
        apply (conv2d_3x3_unrolled_lane inp k in_x in_y n Hfit Hw');
          destruct Hlanes; lia.
    + apply (lanes_any_order
        (conv2d_3x3_shifted_unrolled_parallel fuel inp in_x in_y k)
        in_x n (interior in_x in_y 1 1)
        (fun id x _ => id <= x - 1 /\ (x - 1 - id) mod n = 0)
        (conv2d_3x3_shifted_pixel inp in_x k)); [| |assumption].
      * unfold interior. intros; lia.
      * intros id Hid.
        apply (conv2d_3x3_shifted_lane inp k in_x in_y n Hfit Hw' Hlanes);
          auto.
Qed.

Lemma conv2d_lane_order_irrelevant_witness :
  (exists o1 o2,
     run_lanes (fun o => conv2d_parallel 6 ramp 5 5 ones_3x3 3 3 o)
       2 (constant 0) = Done o1 /\
     fold_outcome (fun id o => conv2d_parallel 6 ramp 5 5 ones_3x3 3 3 o id 2)
       [1; 0; 1] (constant 0) = Done o2 /\
     forall p, o1 p = o2 p) /\
  (exists o1 o2,
     run_lanes (conv2d_3x3_unrolled_parallel ramp 5 5 ones_3x3)
       2 (constant 0) = Done o1 /\
     fold_outcome
       (fun id o => conv2d_3x3_unrolled_parallel ramp 5 5 ones_3x3 o id 2)
       [1; 0; 1] (constant 0) = Done o2 /\
     forall p, o1 p = o2 p).
Proof.
  destruct (conv2d_lane_order_irrelevant ramp ones_3x3 5 5 3 3 2 (constant 0)
              6 [1; 0; 1]) as [General Fixed].
  - unfold fits, half. lia.
  - unfold lanes, half. lia.
  - intros id. simpl. lia.
  - simpl. lia.
  - split.
    + apply General; [split; [lia | now vm_compute] ..| now vm_compute].
    + apply Fixed; [lia | lia | now vm_compute].
Defined.

(** The blocks of two lanes do not overlap. *)
Lemma blocks_apart in_x n id1 id2 x :
  0 <= in_x < wB -> 1 <= n < wB ->
  0 <= id1 < n -> 0 <= id2 < n ->
  block_owns in_x n id1 x -> block_owns in_x n id2 x -> id1 = id2.
Proof.
  intros Hx Hn H1 H2. unfold block_owns.
  rewrite !block_range_closed by assumption. cbn [fst snd].
  assert (Hd : 0 <= in_x / n) by (apply Z.div_pos; lia).
  set (d := in_x / n) in *. set (r := in_x mod n).
  intros B1 B2.
  destruct (Z_lt_le_dec id1 id2) as [Hlt|Hge].
  - assert (d * (id1 + 1) <= d * id2) by nia. lia.
  - destruct (Z_lt_le_dec id2 id1) as [Hlt|Hle]; [|lia].
    assert (d * (id2 + 1) <= d * id1) by nia. lia.
Qed.

(** The lane of a strided loop that visits [y] is the residue of [y]. *)
Lemma stride_owner id n y :
  0 <= id < n -> 0 <= y ->
  (id <= y /\ (y - id) mod n = 0 <-> y mod n = id).
Proof.
  intros Hid Hy. split.
  - intros [Hle Hm]. apply Z.mod_divide in Hm; [|lia]. destruct Hm as [q Hq].
    replace y with (id + q * n) by lia.
    rewrite Z_mod_plus_full. apply Z.mod_small. lia.
  - intros <-. split; [apply Z.mod_le; lia | apply mod0_residue; lia].
Qed.

Lemma strides_apart n id1 id2 x :
  1 <= n -> 0 <= id1 < n -> 0 <= id2 < n ->
  id1 <= x /\ (x - id1) mod n = 0 -> id2 <= x /\ (x - id2) mod n = 0 ->
  id1 = id2.
Proof.
  intros Hn H1 H2 L1 L2.
  apply (stride_owner id1 n x) in L1; [|lia|lia].
  apply (stride_owner id2 n x) in L2; [|lia|lia]. lia.
Qed.

(** Lanes whose traces store pixels of different columns store to
    different elements. *)
Lemma traces_apart in_x (D : Z -> Z -> Prop) (L1 L2 : Z -> Prop) pix
    (ws1 ws2 : list (Z * Z)) :
  (forall x y, D x y -> 0 <= x < in_x) ->
  (forall x, L1 x -> L2 x -> False) ->
  (forall w, In w ws1 <->
     exists x y, (D x y /\ L1 x) /\ w = (y * in_x + x, pix x y)) ->
  (forall w, In w ws2 <->
     exists x y, (D x y /\ L2 x) /\ w = (y * in_x + x, pix x y)) ->
  forall w1 w2, In w1 ws1 -> In w2 ws2 -> fst w1 <> fst w2.
Proof.
  intros Hcol Hapart H1 H2 w1 w2 In1 In2 Heq.
  apply H1 in In1 as (x1 & y1 & (HD1 & HL1) & ->).
  apply H2 in In2 as (x2 & y2 & (HD2 & HL2) & ->).
  cbn [fst] in Heq.
  destruct (index_inj in_x x1 y1 x2 y2) as [-> _]; eauto.
Qed.

(** X13.  No two lanes store to the same output element: for
    [conv2d_shifted_parallel], [conv2d_3x3_unrolled_parallel] and
    [conv2d_3x3_shifted_unrolled_parallel], what each of two distinct lanes
    does to any output buffer is a sequence of stores, and no index
    stored to by one lane is stored to by the other. *)
Theorem conv2d_lanes_write_apart :
  forall inp k in_x in_y k_x k_y numThreads id1 id2 fuel,
    fits in_x in_y -> lanes numThreads ->
    0 <= id1 < numThreads -> 0 <= id2 < numThreads -> id1 <> id2 ->
    (Z.to_nat in_x < fuel)%nat ->
    (0 <= k_x /\ 2 * (k_x / 2) <= in_x -> 0 <= k_y /\ 2 * (k_y / 2) <= in_y ->
     0 < weight_sum k (mulu k_x k_y) ->
     exists ws1 ws2,
       (forall out,
          conv2d_shifted_parallel fuel inp in_x in_y k k_x k_y out id1
            numThreads = Done (apply_writes ws1 out)) /\
       (forall out,
          conv2d_shifted_parallel fuel inp in_x in_y k k_x k_y out id2
            numThreads = Done (apply_writes ws2 out)) /\
       forall w1 w2, In w1 ws1 -> In w2 ws2 -> fst w1 <> fst w2) /\
    (2 <= in_x -> 2 <= in_y -> 0 < weight_sum k 9 ->
     (exists ws1 ws2,
        (forall out,
           conv2d_3x3_unrolled_parallel inp in_x in_y k out id1 numThreads
           = Done (apply_writes ws1 out)) /\
        (forall out,
           conv2d_3x3_unrolled_parallel inp in_x in_y k out id2 numThreads
           = Done (apply_writes ws2 out)) /\
        forall w1 w2, In w1 ws1 -> In w2 ws2 -> fst w1 <> fst w2) /\
     (exists ws1 ws2,
        (forall out,
           conv2d_3x3_shifted_unrolled_parallel fuel inp in_x in_y k out id1
             numThreads = Done (apply_writes ws1 out)) /\
        (forall out,
           conv2d_3x3_shifted_unrolled_parallel fuel inp in_x in_y k out id2
             numThreads = Done (apply_writes ws2 out)) /\
        forall w1 w2, In w1 ws1 -> In w2 ws2 -> fst w1 <> fst w2)).
Proof.
  intros inp k in_x in_y k_x k_y n id1 id2 fuel
    Hfit Hlanes H1 H2 Hne Hfuel.
  assert (Hn : 1 <= n < half) by exact Hlanes.
  assert (H1' : 0 <= id1 < half) by lia.
  assert (H2' : 0 <= id2 < half) by lia.
  split.
  - intros Hkx Hky Hw.
    assert (Hw' : weight_sum k (mulu k_x k_y) <> 0) by lia.
    destruct (half_kernel k_x) as [Px Qx]; [tauto|].
    destruct (conv2d_shifted_lane inp k in_x in_y k_x k_y n Hfit Hlanes
                Hkx Hky Hw' fuel id1 H1' Hfuel) as (ws1 & Hws1 & Hrun1).
    destruct (conv2d_shifted_lane inp k in_x in_y k_x k_y n Hfit Hlanes
                Hkx Hky Hw' fuel id2 H2' Hfuel) as (ws2 & Hws2 & Hrun2).
    exists ws1, ws2. split; [assumption|]. split; [assumption|].
    apply (traces_apart in_x (interior in_x in_y (k_x / 2) (k_y / 2))
             (fun x => id1 <= x - k_x / 2 /\ (x - k_x / 2 - id1) mod n = 0)
             (fun x => id2 <= x - k_x / 2 /\ (x - k_x / 2 - id2) mod n = 0)
             (conv2d_shifted_pixel inp in_x k k_x k_y));
      [| | assumption | assumption].
    + unfold interior. intros; lia.
    + intros x L1 L2. apply Hne.
      apply (strides_apart n id1 id2 (x - k_x / 2));
        [lia | assumption | assumption | exact L1 | exact L2].
  - intros Hx2 Hy2 Hw.
    assert (Hw' : weight_sum k 9 <> 0) by lia.
    split.
    + destruct (conv2d_3x3_unrolled_lane inp k in_x in_y n Hfit Hw' id1)
        as (ws1 & Hws1 & Hrun1); try lia.
      destruct (conv2d_3x3_unrolled_lane inp k in_x in_y n Hfit Hw' id2)
        as (ws2 & Hws2 & Hrun2); try lia.
      exists ws1, ws2. split; [assumption|]. split; [assumption|].
      apply (traces_apart in_x (interior in_x in_y 1 1)
               (block_owns in_x n id1) (block_owns in_x n id2)
               (conv2d_3x3_unrolled_pixel inp in_x k));
        [| | assumption | assumption].
      * unfold interior. intros; lia.
      * intros x L1 L2. apply Hne.
        destruct Hfit as (Hx & _). unfold half in *.
        apply (blocks_apart in_x n id1 id2 x);
          [unfold wB; lia | unfold wB; lia | assumption | assumption
          | exact L1 | exact L2].
    + destruct (conv2d_3x3_shifted_lane inp k in_x in_y n Hfit Hw' Hlanes
                  fuel id1 Hx2 Hy2 H1' Hfuel) as (ws1 & Hws1 & Hrun1).
      destruct (conv2d_3x3_shifted_lane inp k in_x in_y n Hfit Hw' Hlanes
                  fuel id2 Hx2 Hy2 H2' Hfuel) as (ws2 & Hws2 & Hrun2).
      exists ws1, ws2. split; [assumption|]. split; [assumption|].
      apply (traces_apart in_x (interior in_x in_y 1 1)
               (fun x => id1 <= x - 1 /\ (x - 1 - id1) mod n = 0)
               (fun x => id2 <= x - 1 /\ (x - 1 - id2) mod n = 0)
               (conv2d_3x3_shifted_pixel inp in_x k));
        [| | assumption | assumption].
      * unfold interior. intros; lia.
      * intros x L1 L2. apply Hne.
        apply (strides_apart n id1 id2 (x - 1));
          [lia | assumption | assumption | exact L1 | exact L2].
Qed.

Lemma conv2d_lanes_write_apart_witness :
  (exists ws1 ws2,
     (forall out,
        conv2d_shifted_parallel 6 ramp 5 5 ones_3x3 3 3 out 0 2
        = Done (apply_writes ws1 out)) /\
     (forall out,
        conv2d_shifted_parallel 6 ramp 5 5 ones_3x3 3 3 out 1 2
        = Done (apply_writes ws2 out)) /\
     forall w1 w2, In w1 ws1 -> In w2 ws2 -> fst w1 <> fst w2) /\
  (exists ws1 ws2,
     (forall out,
        conv2d_3x3_unrolled_parallel ramp 5 5 ones_3x3 out 0 2
        = Done (apply_writes ws1 out)) /\
     (forall out,
        conv2d_3x3_unrolled_parallel ramp 5 5 ones_3x3 out 1 2
        = Done (apply_writes ws2 out)) /\
     forall w1 w2, In w1 ws1 -> In w2 ws2 -> fst w1 <> fst w2).
Proof.
  destruct (conv2d_lanes_write_apart ramp ones_3x3 5 5 3 3 2 0 1 6)
    as [General Fixed].
  - unfold fits, half. lia.
  - unfold lanes, half. lia.
  - lia.
  - lia.
  - lia.
  - simpl. lia.
  - split.
    + apply General; [split; [lia | now vm_compute] ..| now vm_compute].
    + apply Fixed; [lia | lia | now vm_compute].
Defined.

(** What a lane leaves at a pixel of its domain: the computed value when
    the lane owns the column, the old value otherwise. *)
Lemma lane_pixels_if in_x (D : Z -> Z -> Prop) (L : Z -> Prop)
    (own : Z -> bool) pix ws out :
  (forall x y, D x y -> 0 <= x < in_x) ->
  (forall x y, D x y -> (L x <-> own x = true)) ->
  (forall w, In w ws <->
     exists x y, (D x y /\ L x) /\ w = (y * in_x + x, pix x y)) ->
  forall x y, D x y ->
    apply_writes ws out (y * in_x + x)
    = if own x then pix x y else out (y * in_x + x).
Proof.
  intros Hcol Hown Hws x y HD. destruct (own x) eqn:Eo.
  - apply apply_writes_hit.
    + apply Hws. exists x, y. split; [|reflexivity].
      split; [assumption|]. now apply (Hown x y).
    + intros v' Hin. apply Hws in Hin as (x' & y' & (HD' & _) & Heq).
      inversion Heq as [[Hidx Hv]].
      destruct (index_inj in_x x y x' y') as [-> ->]; eauto.
  - apply apply_writes_miss. intros w Hin Heq.
    apply Hws in Hin as (x' & y' & (HD' & HL') & ->). cbn [fst] in Heq.
    destruct (index_inj in_x x' y' x y) as [-> ->]; eauto.
    apply (Hown x y HD) in HL'. congruence.
Qed.

(** X14.  The columns of a lane: lane [id] of [conv2d_parallel] computes
    the interior pixels of the columns [x] with [x mod numThreads = id],
    lane [id] of [conv2d_shifted_parallel] those with
    [(x - k_x / 2) mod numThreads = id], lane [id] of
    [conv2d_3x3_shifted_unrolled_parallel] those with
    [(x - 1) mod numThreads = id], and lane [id] of
    [conv2d_3x3_unrolled_parallel] those of the [d = in_x / numThreads]
    columns from [d * id + min id (in_x % numThreads)] on; the other
    interior pixels keep the value the output buffer held before the call.
    (So one lane of the centred variant and the same lane of the shifted
    variant compute different columns, although all lanes together compute
    the same image.) *)
Theorem conv2d_lane_columns :
  forall inp k in_x in_y k_x k_y numThreads out id fuel,
    fits in_x in_y -> lanes numThreads -> 0 <= id < numThreads ->
    (Z.to_nat in_x < fuel)%nat ->
    (0 <= k_x /\ 2 * (k_x / 2) <= in_x -> 0 <= k_y /\ 2 * (k_y / 2) <= in_y ->
     0 < weight_sum k (mulu k_x k_y) ->
     (exists o,
        conv2d_parallel fuel inp in_x in_y k k_x k_y out id numThreads = Done o /\
        forall x y, interior in_x in_y (k_x / 2) (k_y / 2) x y ->
          o (y * in_x + x)
          = if x mod numThreads =? id
            then conv2d_parallel_pixel inp in_x k k_x k_y x y
            else out (y * in_x + x)) /\
     (exists o,
        conv2d_shifted_parallel fuel inp in_x in_y k k_x k_y out id numThreads
        = Done o /\
        forall x y, interior in_x in_y (k_x / 2) (k_y / 2) x y ->
          o (y * in_x + x)
          = if (x - k_x / 2) mod numThreads =? id
            then conv2d_shifted_pixel inp in_x k k_x k_y x y
            else out (y * in_x + x))) /\
    (2 <= in_x -> 2 <= in_y -> 0 < weight_sum k 9 ->
     (exists o,
        conv2d_3x3_unrolled_parallel inp in_x in_y k out id numThreads = Done o /\
        let d := in_x / numThreads in
        let s := d * id + Z.min id (in_x mod numThreads) in
        forall x y, interior in_x in_y 1 1 x y ->
          o (y * in_x + x)
          = if (s <=? x) && (x <? s + d)
            then conv2d_3x3_unrolled_pixel inp in_x k x y
            else out (y * in_x + x)) /\
     (exists o,
        conv2d_3x3_shifted_unrolled_parallel fuel inp in_x in_y k out id
          numThreads = Done o /\
        forall x y, interior in_x in_y 1 1 x y ->
          o (y * in_x + x)
          = if (x - 1) mod numThreads =? id
            then conv2d_3x3_shifted_pixel inp in_x k x y
            else out (y * in_x + x))).
Proof.
  intros inp k in_x in_y k_x k_y n out id fuel Hfit Hlanes Hid Hfuel.
  assert (Hid' : 0 <= id < half) by (destruct Hlanes; lia).
  split.
  - intros Hkx Hky Hw.
    assert (Hw' : weight_sum k (mulu k_x k_y) <> 0) by lia.
    destruct (half_kernel k_x) as [Px Qx]; [tauto|].
    destruct (half_kernel k_y) as [Py Qy]; [tauto|].
    split.
    + destruct (conv2d_parallel_lane inp k in_x in_y k_x k_y n Hfit Hlanes
                  ltac:(lia) ltac:(lia) Hw' fuel id Hid' Hfuel)
        as (ws & Hws & Hrun).
      exists (apply_writes ws out). split; [apply Hrun|].
      apply (lane_pixels_if in_x (interior in_x in_y (k_x / 2) (k_y / 2))
               (fun x => id <= x /\ (x - id) mod n = 0)
               (fun x => x mod n =? id)); [| |exact Hws].
      * unfold interior. intros; lia.
      * intros x y [Rx _]. rewrite Z.eqb_eq. apply stride_owner; lia.
    + destruct (conv2d_shifted_lane inp k in_x in_y k_x k_y n Hfit Hlanes
                  Hkx Hky Hw' fuel id Hid' Hfuel) as (ws & Hws & Hrun).
      exists (apply_writes ws out). split; [apply Hrun|].
      apply (lane_pixels_if in_x (interior in_x in_y (k_x / 2) (k_y / 2))
               (fun x => id <= x - k_x / 2 /\ (x - k_x / 2 - id) mod n = 0)
               (fun x => (x - k_x / 2) mod n =? id)); [| |exact Hws].
      * unfold interior. intros; lia.
      * intros x y [Rx _]. rewrite Z.eqb_eq. apply stride_owner; lia.
  - intros Hx2 Hy2 Hw.
    assert (Hw' : weight_sum k 9 <> 0) by lia.
    split.
    + destruct (conv2d_3x3_unrolled_lane inp k in_x in_y n Hfit Hw' id)
        as (ws & Hws & Hrun); try (destruct Hlanes; lia).
      exists (apply_writes ws out). split; [apply Hrun|].
      intros d s.
      apply (lane_pixels_if in_x (interior in_x in_y 1 1)
               (block_owns in_x n id)
               (fun x => (s <=? x) && (x <? s + d))); [| |exact Hws].
      * unfold interior. intros; lia.
      * intros x y _. unfold block_owns.
        rewrite block_range_closed
          by (destruct Hfit as (Hx & _), Hlanes; unfold half, wB in *; lia).
        cbn [fst snd]. fold d. fold s.
        rewrite andb_true_iff, Z.leb_le, Z.ltb_lt.
        replace (d * (id + 1) + Z.min id (in_x mod n)) with (s + d)
          by (unfold s; ring).
        reflexivity.
    + destruct (conv2d_3x3_shifted_lane inp k in_x in_y n Hfit Hw' Hlanes
                  fuel id Hx2 Hy2 Hid' Hfuel) as (ws & Hws & Hrun).
      exists (apply_writes ws out). split; [apply Hrun|].
      apply (lane_pixels_if in_x (interior in_x in_y 1 1)
               (fun x => id <= x - 1 /\ (x - 1 - id) mod n = 0)
               (fun x => (x - 1) mod n =? id)); [| |exact Hws].
      * unfold interior. intros; lia.
      * intros x y [Rx _]. rewrite Z.eqb_eq. apply stride_owner; lia.
Qed.

Lemma conv2d_lane_columns_witness :
  ((exists o,
      conv2d_parallel 6 ramp 5 5 ones_3x3 3 3 (constant 0) 1 2 = Done o /\
      forall x y, interior 5 5 (3 / 2) (3 / 2) x y ->
        o (y * 5 + x)
        = if x mod 2 =? 1 then conv2d_parallel_pixel ramp 5 ones_3x3 3 3 x y
          else constant 0 (y * 5 + x)) /\
   (exists o,
      conv2d_shifted_parallel 6 ramp 5 5 ones_3x3 3 3 (constant 0) 1 2 = Done o /\
      forall x y, interior 5 5 (3 / 2) (3 / 2) x y ->
        o (y * 5 + x)
        = if (x - 3 / 2) mod 2 =? 1
          then conv2d_shifted_pixel ramp 5 ones_3x3 3 3 x y
          else constant 0 (y * 5 + x))) /\
  ((exists o,
      conv2d_3x3_unrolled_parallel ramp 5 5 ones_3x3 (constant 0) 1 2 = Done o /\
      let d := 5 / 2 in
      let s := d * 1 + Z.min 1 (5 mod 2) in
      forall x y, interior 5 5 1 1 x y ->
        o (y * 5 + x)
        = if (s <=? x) && (x <? s + d)
          then conv2d_3x3_unrolled_pixel ramp 5 ones_3x3 x y
          else constant 0 (y * 5 + x)) /\
   (exists o,
      conv2d_3x3_shifted_unrolled_parallel 6 ramp 5 5 ones_3x3 (constant 0) 1 2
      = Done o /\
      forall x y, interior 5 5 1 1 x y ->
        o (y * 5 + x)
        = if (x - 1) mod 2 =? 1 then conv2d_3x3_shifted_pixel ramp 5 ones_3x3 x y
          else constant 0 (y * 5 + x))).
Proof.
  destruct (conv2d_lane_columns ramp ones_3x3 5 5 3 3 2 (constant 0) 1 6)
    as [General Fixed].
  - unfold fits, half. lia.
  - unfold lanes, half. lia.
  - lia.
  - simpl. lia.
  - split.
    + apply General; [split; [lia | now vm_compute] ..| now vm_compute].
    + apply Fixed; [lia | lia | now vm_compute].
Defined.

(** Lane 1 of two, on a 5x5 ramp under the all-ones kernel: the centred
    variant computes the columns 1 and 3, the shifted variant column 2. *)
Example lane_columns_5x5 :
  match conv2d_parallel 6 ramp 5 5 ones_3x3 3 3 (constant 0) 1 2,
        conv2d_shifted_parallel 6 ramp 5 5 ones_3x3 3 3 (constant 0) 1 2 with
  | Done o1, Done o2 => (map o1 [6; 7; 8], map o2 [6; 7; 8])
  | _, _ => ([], [])
  end = ([6; 0; 8], [0; 7; 0]).
Proof. vm_compute. reflexivity. Qed.

(** ** The memory a lane reads *)

Lemma weight_sum_agree k k' cnt :
  cnt < half -> agree_below cnt k k' -> weight_sum k cnt = weight_sum k' cnt.
Proof.
  intros Hc Hk. unfold weight_sum.
  apply (for_pure_rel eq); [reflexivity|].
  intros i w w' Hi ->. rewrite to_s_small by (unfold half in *; lia).
  now rewrite Hk.
Qed.

Lemma window_dot_agree inp inp' k k' in_x in_y k_x k_y x y :
  fits in_x in_y -> 1 <= k_x <= in_x -> 1 <= k_y <= in_y ->
  agree_below (in_x * in_y) inp inp' -> agree_below (k_x * k_y) k k' ->
  interior in_x in_y (k_x / 2) (k_y / 2) x y ->
  window_dot inp in_x k k_x k_y x y = window_dot inp' in_x k' k_x k_y x y.
Proof.
  intros Hfit Hkx Hky Hi Hk [Rx Ry].
  destruct (half_kernel k_x) as [Px Qx]; [lia|].
  destruct (half_kernel k_y) as [Py Qy]; [lia|].
  unfold window_dot.
  apply (for_pure_rel eq); [reflexivity|]. intros m a b Hm ->.
  apply (for_pure_rel eq); [reflexivity|]. intros n a b' Hn ->.
  rewrite Hi by (apply (index_bound in_x in_y); lia).
  rewrite Hk by nia. reflexivity.
Qed.

Lemma shifted_pixel_agree inp inp' k k' in_x in_y k_x k_y x y :
  fits in_x in_y -> 1 <= k_x <= in_x -> 1 <= k_y <= in_y ->
  agree_below (in_x * in_y) inp inp' -> agree_below (k_x * k_y) k k' ->
  interior in_x in_y (k_x / 2) (k_y / 2) x y ->
  conv2d_shifted_pixel inp in_x k k_x k_y x y
  = conv2d_shifted_pixel inp' in_x k' k_x k_y x y.
Proof.
  intros Hfit Hkx Hky Hi Hk HD.
  pose proof (kernel_size in_x in_y k_x k_y Hfit Hkx Hky) as Hs.
  rewrite !(shifted_pixel_closed _ _ in_x in_y k_x k_y Hfit Hkx Hky x y HD).
  rewrite (window_dot_agree inp inp' k k' in_x in_y) by assumption.
  rewrite <- !weight_sum_congr by lia.
  now rewrite (weight_sum_agree k k') by (assumption || lia).
Qed.

Lemma shifted_3x3_pixel_agree inp inp' k k' in_x in_y x y :
  fits in_x in_y ->
  agree_below (in_x * in_y) inp inp' -> agree_below 9 k k' ->
  interior in_x in_y 1 1 x y ->
  conv2d_3x3_shifted_pixel inp in_x k x y
  = conv2d_3x3_shifted_pixel inp' in_x k' x y.
Proof.
  intros Hfit Hi Hk [Rx Ry].
  unfold conv2d_3x3_shifted_pixel.
  rewrite (weight_sum_agree k k') by (assumption || unfold half; lia).
  f_equal. unfold sum_3x3_shifted.
  rewrite !(shifted_index in_x in_y Hfit) by lia.
  rewrite !Hi by (apply (index_bound in_x in_y); lia).
  rewrite !Hk by lia. reflexivity.
Qed.

(** Two lanes whose traces store the same pixels leave the same buffer. *)
Lemma lane_traces_agree in_x (D : Z -> Z -> Prop) pix pix' ws ws' out p :
  (forall x y, D x y -> 0 <= x < in_x) ->
  (forall x y, D x y -> pix x y = pix' x y) ->
  (forall w, In w ws <->
     exists x y, D x y /\ w = (y * in_x + x, pix x y)) ->
  (forall w, In w ws' <->
     exists x y, D x y /\ w = (y * in_x + x, pix' x y)) ->
  apply_writes ws out p = apply_writes ws' out p.
Proof.
  intros Hcol Hpix Hws Hws'.
  apply (pixel_traces_agree in_x D pix); [assumption | apply Hws |].
  intros w. rewrite Hws, Hws'. split; intros (x & y & HD & ->);
    exists x, y; (split; [assumption|]); now rewrite Hpix.
Qed.

(** X15.  A lane reads nothing outside the image and the kernel: for each
    of the four variants, two calls of one lane whose input buffers agree
    on the [in_x * in_y] elements of the image and whose kernel buffers
    agree on the [k_x * k_y] (or 9) weights complete and leave the same
    output buffer, whatever the buffers hold elsewhere. *)
Theorem conv2d_reads_in_bounds :
  forall inp inp' k k' in_x in_y k_x k_y numThreads out id fuel,
    fits in_x in_y -> lanes numThreads -> 0 <= id < numThreads ->
    (Z.to_nat in_x < fuel)%nat ->
    agree_below (in_x * in_y) inp inp' ->
    (1 <= k_x <= in_x -> 1 <= k_y <= in_y ->
     agree_below (k_x * k_y) k k' -> 0 < weight_sum k (mulu k_x k_y) ->
     (exists o o',
        conv2d_parallel fuel inp in_x in_y k k_x k_y out id numThreads = Done o /\
        conv2d_parallel fuel inp' in_x in_y k' k_x k_y out id numThreads
        = Done o' /\
        forall p, o p = o' p) /\
     (exists o o',
        conv2d_shifted_parallel fuel inp in_x in_y k k_x k_y out id numThreads
        = Done o /\
        conv2d_shifted_parallel fuel inp' in_x in_y k' k_x k_y out id numThreads
        = Done o' /\
        forall p, o p = o' p)) /\
    (2 <= in_x -> 2 <= in_y -> agree_below 9 k k' -> 0 < weight_sum k 9 ->
     (exists o o',
        conv2d_3x3_unrolled_parallel inp in_x in_y k out id numThreads = Done o /\
        conv2d_3x3_unrolled_parallel inp' in_x in_y k' out id numThreads
        = Done o' /\
        forall p, o p = o' p) /\
     (exists o o',
        conv2d_3x3_shifted_unrolled_parallel fuel inp in_x in_y k out id
          numThreads = Done o /\
        conv2d_3x3_shifted_unrolled_parallel fuel inp' in_x in_y k' out id
          numThreads = Done o' /\
        forall p, o p = o' p)).
Proof.
  intros inp inp' k k' in_x in_y k_x k_y n out id fuel
    Hfit Hlanes Hid Hfuel Hi.
  assert (Hid' : 0 <= id < half) by (destruct Hlanes; lia).
  split.
  - intros Hkx Hky Hk Hw.
    pose proof (kernel_size in_x in_y k_x k_y Hfit Hkx Hky) as Hs.
    pose proof (kernel_count in_x in_y k_x k_y Hfit Hkx Hky) as Hcnt.
    destruct (half_kernel k_x) as [Px Qx]; [lia|].
    destruct (half_kernel k_y) as [Py Qy]; [lia|].
    assert (Hw1 : weight_sum k (mulu k_x k_y) <> 0) by lia.
    assert (Hw2 : weight_sum k' (mulu k_x k_y) <> 0).
    { rewrite Hcnt in *.
      rewrite <- (weight_sum_agree k k'); [assumption | lia | assumption]. }
    assert (Hkx2 : 0 <= k_x /\ 2 * (k_x / 2) <= in_x) by lia.
    assert (Hky2 : 0 <= k_y /\ 2 * (k_y / 2) <= in_y) by lia.
    assert (Hkx1 : 0 <= k_x /\ k_x / 2 <= in_x) by lia.
    assert (Hky1 : 0 <= k_y /\ k_y / 2 <= in_y) by lia.
    split.
    + destruct (conv2d_parallel_lane inp k in_x in_y k_x k_y n Hfit Hlanes
                  Hkx1 Hky1 Hw1 fuel id Hid' Hfuel) as (ws & Hws & Hrun).
      destruct (conv2d_parallel_lane inp' k' in_x in_y k_x k_y n Hfit Hlanes
                  Hkx1 Hky1 Hw2 fuel id Hid' Hfuel) as (ws' & Hws' & Hrun').
      exists (apply_writes ws out), (apply_writes ws' out).
      split; [apply Hrun|]. split; [apply Hrun'|]. intros p.
      apply (lane_traces_agree in_x
               (fun x y => interior in_x in_y (k_x / 2) (k_y / 2) x y /\
                           id <= x /\ (x - id) mod n = 0)
               (conv2d_parallel_pixel inp in_x k k_x k_y)
               (conv2d_parallel_pixel inp' in_x k' k_x k_y));
        [| | assumption | assumption].
      * unfold interior. intros; lia.
      * intros x y [HD _].
        rewrite (centred_shifted_pixel inp k in_x in_y k_x k_y Hfit Hkx2 Hky2
                   x y HD).
        rewrite (centred_shifted_pixel inp' k' in_x in_y k_x k_y Hfit Hkx2 Hky2
                   x y HD).
        now apply (shifted_pixel_agree inp inp' k k' in_x in_y).
    + destruct (conv2d_shifted_lane inp k in_x in_y k_x k_y n Hfit Hlanes
                  Hkx2 Hky2 Hw1 fuel id Hid' Hfuel) as (ws & Hws & Hrun).
      destruct (conv2d_shifted_lane inp' k' in_x in_y k_x k_y n Hfit Hlanes
                  Hkx2 Hky2 Hw2 fuel id Hid' Hfuel) as (ws' & Hws' & Hrun').
      exists (apply_writes ws out), (apply_writes ws' out).
      split; [apply Hrun|]. split; [apply Hrun'|]. intros p.
      apply (lane_traces_agree in_x
               (fun x y => interior in_x in_y (k_x / 2) (k_y / 2) x y /\
                           id <= x - k_x / 2 /\
                           (x - k_x / 2 - id) mod n = 0)
               (conv2d_shifted_pixel inp in_x k k_x k_y)
               (conv2d_shifted_pixel inp' in_x k' k_x k_y));
        [| | assumption | assumption].
      * unfold interior. intros; lia.
      * intros x y [HD _].
        now apply (shifted_pixel_agree inp inp' k k' in_x in_y).
  - intros Hx2 Hy2 Hk Hw.
    assert (Hw1 : weight_sum k 9 <> 0) by lia.
    assert (Hw2 : weight_sum k' 9 <> 0).
    { rewrite <- (weight_sum_agree k k'); [assumption | unfold half; lia |].
      assumption. }
    split.
    + destruct (conv2d_3x3_unrolled_lane inp k in_x in_y n Hfit Hw1 id)
        as (ws & Hws & Hrun); try (destruct Hlanes; lia).
      destruct (conv2d_3x3_unrolled_lane inp' k' in_x in_y n Hfit Hw2 id)
        as (ws' & Hws' & Hrun'); try (destruct Hlanes; lia).
      exists (apply_writes ws out), (apply_writes ws' out).
      split; [apply Hrun|]. split; [apply Hrun'|]. intros p.
      apply (lane_traces_agree in_x
               (fun x y => interior in_x in_y 1 1 x y /\
                           block_owns in_x n id x)
               (conv2d_3x3_unrolled_pixel inp in_x k)
               (conv2d_3x3_unrolled_pixel inp' in_x k'));
        [| | assumption | assumption].
      * unfold interior. intros; lia.
      * intros x y [HD _].
        rewrite (unrolled_shifted_pixel inp k in_x in_y Hfit x y HD).
        rewrite (unrolled_shifted_pixel inp' k' in_x in_y Hfit x y HD).
        now apply (shifted_3x3_pixel_agree inp inp' k k' in_x in_y).
    + destruct (conv2d_3x3_shifted_lane inp k in_x in_y n Hfit Hw1 Hlanes
                  fuel id) as (ws & Hws & Hrun); try assumption.
      destruct (conv2d_3x3_shifted_lane inp' k' in_x in_y n Hfit Hw2 Hlanes
                  fuel id) as (ws' & Hws' & Hrun'); try assumption.
      exists (apply_writes ws out), (apply_writes ws' out).
      split; [apply Hrun|]. split; [apply Hrun'|]. intros p.
      apply (lane_traces_agree in_x
               (fun x y => interior in_x in_y 1 1 x y /\
                           id <= x - 1 /\ (x - 1 - id) mod n = 0)
               (conv2d_3x3_shifted_pixel inp in_x k)
               (conv2d_3x3_shifted_pixel inp' in_x k'));
        [| | assumption | assumption].
      * unfold interior. intros; lia.
      * intros x y [HD _].
        now apply (shifted_3x3_pixel_agree inp inp' k k' in_x in_y).
Qed.

Lemma conv2d_reads_in_bounds_witness :
  (exists o o',
     conv2d_parallel 6 ramp 5 5 ones_3x3 3 3 (constant 0) 1 2 = Done o /\
     conv2d_parallel 6 (fun p => if p <? 25 then p else 99) 5 5
       (fun p => if p <? 9 then 1 else 7) 3 3 (constant 0) 1 2 = Done o' /\
     forall p, o p = o' p) /\
  (exists o o',
     conv2d_3x3_unrolled_parallel ramp 5 5 ones_3x3 (constant 0) 1 2 = Done o /\
     conv2d_3x3_unrolled_parallel (fun p => if p <? 25 then p else 99) 5 5
       (fun p => if p <? 9 then 1 else 7) (constant 0) 1 2 = Done o' /\
     forall p, o p = o' p).
Proof.
  assert (Hk : forall n, n <= 9 ->
            agree_below n ones_3x3 (fun p => if p <? 9 then 1 else 7)).
  { intros n Hn p Hp. destruct (Z.ltb_spec p 9); [|lia].
    assert (Hc : p = 0 \/ p = 1 \/ p = 2 \/ p = 3 \/ p = 4 \/ p = 5 \/
                 p = 6 \/ p = 7 \/ p = 8) by lia.
    repeat (destruct Hc as [-> | Hc]; [reflexivity|]). now subst p. }
  destruct (conv2d_reads_in_bounds ramp (fun p => if p <? 25 then p else 99)
              ones_3x3 (fun p => if p <? 9 then 1 else 7) 5 5 3 3 2
              (constant 0) 1 6) as [General Fixed].
  - unfold fits, half. lia.
  - unfold lanes, half. lia.
  - lia.
  - simpl. lia.
  - intros p Hp. unfold ramp. destruct (Z.ltb_spec p 25); [reflexivity | lia].
  - split.
    + apply General; [lia | lia | apply Hk; lia | now vm_compute].
    + apply Fixed; [lia | lia | apply Hk; lia | now vm_compute].
Defined.

(** ** One lane of the initialisation *)

Lemma image_fill_lane_spec (v : Z -> Z -> Z) img img_x img_y n id fuel :
  fits img_x img_y -> lanes n -> 0 <= id < n ->
  (Z.to_nat (Z.max img_x img_y) < fuel)%nat ->
  exists img1,
    image_fill_loop fuel img_x img_y id n
      (fun i j o => Done (store o (pixel_index img_x i j) (v i j))) img
    = Done img1 /\
    (forall i j, 0 <= i < img_y -> 0 <= j < img_x ->
       img1 (i * img_x + j)
       = if fill_lane img_x img_y n i j =? id then v i j
         else img (i * img_x + j)) /\
    (forall p, ~ 0 <= p < img_x * img_y -> img1 p = img p).
Proof.
  intros Hfit Hlanes Hid Hfuel.
  assert (Hid' : 0 <= id < half) by (destruct Hlanes; lia).
  destruct (image_fill_loop_spec img_x img_y n fuel Hfit Hlanes Hfuel id Hid')
    as (cs & Hcs & Hloop).
  assert (Hown : forall i j, In (i, j) cs <->
            (0 <= j < img_x /\ 0 <= i < img_y) /\
            fill_lane img_x img_y n i j = id).
  { intros i j. rewrite Hcs. cbn [fst snd]. unfold fill_lane.
    split; intros [HD Ho]; (split; [assumption|]);
      destruct (img_x <? img_y); apply (stride_owner id n) in Ho;
      try assumption; lia. }
  set (wr := fun c : Z * Z => (fst c * img_x + snd c, v (fst c) (snd c))).
  exists (apply_writes (map wr cs) img). split; [|split].
  - rewrite Hloop. apply fold_outcome_writes.
    intros [i j] o Hin. unfold wr. cbn [fst snd].
    apply Hown in Hin as [[Hj Hi] _].
    now rewrite (pixel_index_small img_x img_y) by assumption.
  - intros i j Hi Hj.
    destruct (Z.eqb_spec (fill_lane img_x img_y n i j) id) as [Heq|Hne].
    + apply apply_writes_hit.
      * apply in_map_iff. exists (i, j). split; [reflexivity|].
        apply Hown. auto.
      * intros v' Hin. apply in_map_iff in Hin as ([i' j'] & Heq' & Hin).
        unfold wr in Heq'. cbn [fst snd] in Heq'. inversion Heq' as [[Hidx Hv]].
        apply Hown in Hin as [[Hj' Hi'] _].
        destruct (index_inj img_x j' i' j i) as [-> ->]; auto.
    + apply apply_writes_miss. intros w Hin.
      apply in_map_iff in Hin as ([i' j'] & <- & Hin).
      unfold wr. cbn [fst snd]. intros Heq.
      apply Hown in Hin as [[Hj' Hi'] Ho].
      destruct (index_inj img_x j' i' j i) as [-> ->]; auto.
  - intros p Hp. apply apply_writes_miss. intros w Hin.
    apply in_map_iff in Hin as ([i j] & <- & Hin).
    unfold wr. cbn [fst snd]. intros Heq.
    apply Hown in Hin as [[Hj Hi] _]. apply Hp. subst p.
    destruct Hfit as (Hx & Hy & Hxy). nia.
Qed.

(** X16.  One lane of the two fill functions: lane [id] of
    [init_conv2d_image] (of [zero_conv2d_image]) completes and stores
    [(i mod 16) + (j mod 4)] (stores 0) at exactly the elements of the rows
    [i] with [i mod numThreads = id] when the image is taller than wide, of
    the columns [j] with [j mod numThreads = id] otherwise; every other
    element, inside or outside the image, keeps its value. *)
Theorem image_fill_lane :
  forall img img_x img_y numThreads id fuel,
    fits img_x img_y -> lanes numThreads -> 0 <= id < numThreads ->
    (Z.to_nat (Z.max img_x img_y) < fuel)%nat ->
    (exists img1,
       init_conv2d_image fuel img img_x img_y id numThreads = Done img1 /\
       (forall i j, 0 <= i < img_y -> 0 <= j < img_x ->
          img1 (i * img_x + j)
          = if fill_lane img_x img_y numThreads i j =? id
            then i mod 16 + j mod 4 else img (i * img_x + j)) /\
       (forall p, ~ 0 <= p < img_x * img_y -> img1 p = img p)) /\
    (exists img1,
       zero_conv2d_image fuel img img_x img_y id numThreads = Done img1 /\
       (forall i j, 0 <= i < img_y -> 0 <= j < img_x ->
          img1 (i * img_x + j)
          = if fill_lane img_x img_y numThreads i j =? id
            then 0 else img (i * img_x + j)) /\
       (forall p, ~ 0 <= p < img_x * img_y -> img1 p = img p)).
Proof.
  intros img img_x img_y n id fuel Hfit Hlanes Hid Hfuel. split.
  - destruct (image_fill_lane_spec init_value img img_x img_y n id fuel
                Hfit Hlanes Hid Hfuel) as (img1 & Hrun & Hval & Hframe).
    exists img1. split; [exact Hrun|]. split; [|assumption].
    intros i j Hi Hj. rewrite Hval by assumption.
    destruct (fill_lane img_x img_y n i j =? id); [|reflexivity].
    rewrite init_value_sum by lia. now rewrite !Z.rem_mod_nonneg by lia.
  - destruct (image_fill_lane_spec (fun _ _ => 0) img img_x img_y n id fuel
                Hfit Hlanes Hid Hfuel) as (img1 & Hrun & Hval & Hframe).
    exists img1. split; [exact Hrun|]. split; assumption.
Qed.

Lemma image_fill_lane_witness :
  (exists img1,
     init_conv2d_image 6 (constant 9) 5 3 1 2 = Done img1 /\
     (forall i j, 0 <= i < 3 -> 0 <= j < 5 ->
        img1 (i * 5 + j)
        = if fill_lane 5 3 2 i j =? 1 then i mod 16 + j mod 4
          else constant 9 (i * 5 + j)) /\
     (forall p, ~ 0 <= p < 5 * 3 -> img1 p = constant 9 p)) /\
  (exists img1,
     zero_conv2d_image 6 (constant 9) 5 3 1 2 = Done img1 /\
     (forall i j, 0 <= i < 3 -> 0 <= j < 5 ->
        img1 (i * 5 + j)
        = if fill_lane 5 3 2 i j =? 1 then 0 else constant 9 (i * 5 + j)) /\
     (forall p, ~ 0 <= p < 5 * 3 -> img1 p = constant 9 p)).
Proof.
  apply (image_fill_lane (constant 9) 5 3 2 1 6).
  - unfold fits, half. lia.
  - unfold lanes, half. lia.
  - lia.
  - simpl. lia.
Defined.

(** Lane 1 of two on a 5x3 image (columns are dealt out) and on a 2x3
    image (rows are dealt out), over a buffer of 9's. *)
Example init_lane_1_of_2 :
  match init_conv2d_image 6 (constant 9) 5 3 1 2,
        init_conv2d_image 6 (constant 9) 2 3 1 2 with
  | Done a, Done b =>
      (map a [0; 1; 2; 3; 4; 5; 6; 7; 8; 9; 10; 11; 12; 13; 14; 15],
       map b [0; 1; 2; 3; 4; 5; 6])
  | _, _ => ([], [])
  end = ([9; 1; 9; 3; 9; 9; 2; 9; 4; 9; 9; 3; 9; 5; 9; 9],
         [9; 9; 1; 2; 9; 9; 9]).
Proof. vm_compute. reflexivity. Qed.

(** ** The lanes of the verification do not disturb each other *)

(** X17.  Every lane of the verification returns what it returns when it
    runs alone on the image as it was before any lane ran: for any list of
    distinct lane ids, run in that order, the values returned are those of
    the single-lane calls on the original image; the lanes leave every
    element either as it was or zeroed, and the border rows and columns as
    they were. *)
Theorem verify_lanes_independent :
  forall img img_x img_y numThreads fuel ids,
    fits img_x img_y -> 1 <= img_x -> 1 <= img_y -> lanes numThreads ->
    (Z.to_nat img_y < fuel)%nat ->
    NoDup ids -> (forall id, In id ids -> 0 <= id < numThreads) ->
    exists img',
      verify_lanes fuel img img_x img_y ids numThreads
      = Some (map (verify_code fuel img img_x img_y numThreads) ids, img') /\
      (forall p, img' p = 0 \/ img' p = img p) /\
      (forall p, border img_x img_y 1 1 p -> img' p = img p).
Proof.
  intros img img_x img_y n fuel ids Hfit Hx1 Hy1 Hlanes Hfuel Hnd Hids.
  assert (Hn : 1 <= n) by (destruct Hlanes; lia).
  revert img Hnd Hids.
  induction ids as [|id ids IH]; intros img Hnd Hids.
  - exists img. split; [reflexivity|]. split; auto.
  - inversion Hnd as [|? ? Hnin Hnd']; subst.
    assert (Hid : 0 <= id < n) by (apply Hids; now left).
    destruct (verify_lane_code img_x img_y n fuel Hfit Hx1 Hy1 Hlanes Hfuel
                img id Hid) as (cs & Hincl & Hrun & _).
    set (img1 := reset_all img_x cs img) in *.
    destruct (IH img1 Hnd') as (img' & Hrest & Hval & Hframe).
    { intros; apply Hids; now right. }
    assert (Hsame : forall id2, In id2 ids ->
              verify_code fuel img1 img_x img_y n id2
              = verify_code fuel img img_x img_y n id2).
    { intros id2 Hin2.
      assert (Hid2 : 0 <= id2 < n) by (apply Hids; now right).
      destruct (verify_lane_code img_x img_y n fuel Hfit Hx1 Hy1 Hlanes Hfuel
                  img id2 Hid2) as (cs2 & _ & Hrun2 & _).
      destruct (verify_lane_code img_x img_y n fuel Hfit Hx1 Hy1 Hlanes Hfuel
                  img1 id2 Hid2) as (cs2' & _ & Hrun2' & _).
      unfold verify_code. rewrite Hrun2, Hrun2'.
      unfold lane_code, first_mismatch.
      rewrite (find_ext_in _ (fun c => negb (matches img_x img c)));
        [reflexivity|].
      intros c Hc. f_equal. unfold img1. apply matches_reset.
      rewrite in_map_iff. intros (c' & Heq & Hc').
      apply (verify_scans_apart img_x img_y n fuel Hy1 Hlanes Hfuel id id2 c' c);
        auto.
      intros ->. contradiction. }
    exists img'. split; [|split].
    + simpl. rewrite Hrun. fold img1. rewrite Hrest.
      unfold verify_code at 2. rewrite Hrun.
      f_equal. f_equal. f_equal. apply map_ext_in. exact Hsame.
    + intros p. destruct (Hval p) as [H|H]; [now left|].
      rewrite H. apply reset_all_value.
    + intros p Hp. rewrite Hframe by assumption.
      unfold img1. apply reset_all_miss. intros [i j] Hc Heq.
      apply Hincl, In_verify_scan in Hc; [|lia]. cbn [fst snd] in Hc.
      apply (Hp j i); [unfold interior; lia|].
      unfold linear in Heq. cbn [fst snd] in Heq. lia.
Qed.

Lemma verify_lanes_independent_witness :
  exists img',
    verify_lanes 5
      (of_list [0; 0; 0; 0; 0; 2; 3; 0; 0; 3; 9; 0; 0; 0; 0; 0]) 4 4 [1; 0] 2
    = Some (map (verify_code 5
                   (of_list [0; 0; 0; 0; 0; 2; 3; 0; 0; 3; 9; 0; 0; 0; 0; 0])
                   4 4 2) [1; 0], img') /\
    (forall p,
       img' p = 0 \/
       img' p = of_list [0; 0; 0; 0; 0; 2; 3; 0; 0; 3; 9; 0; 0; 0; 0; 0] p) /\
    (forall p,
       border 4 4 1 1 p ->
       img' p = of_list [0; 0; 0; 0; 0; 2; 3; 0; 0; 3; 9; 0; 0; 0; 0; 0] p).
Proof.
  apply (verify_lanes_independent
           (of_list [0; 0; 0; 0; 0; 2; 3; 0; 0; 3; 9; 0; 0; 0; 0; 0])
           4 4 2 5 [1; 0]).
  - unfold fits, half. lia.
  - lia.
  - lia.
  - unfold lanes, half. lia.
  - simpl. lia.
  - constructor; [simpl; intros [H|[]]; discriminate H|].
    constructor; [intros [] | constructor].
  - intros id. simpl. lia.
Defined.

(** On that 4x4 image, whose row 2 holds a wrong value in column 2, lane 0
    returns 0 and lane 1 returns the index 10, in either order. *)
Example verify_either_order :
  option_map fst
    (verify_lanes 5 (of_list [0; 0; 0; 0; 0; 2; 3; 0; 0; 3; 9; 0; 0; 0; 0; 0])
       4 4 [1; 0] 2) = Some [10; 0] /\
  option_map fst
    (verify_lanes 5 (of_list [0; 0; 0; 0; 0; 2; 3; 0; 0; 3; 9; 0; 0; 0; 0; 0])
       4 4 [0; 1] 2) = Some [0; 10].
Proof. split; vm_compute; reflexivity. Qed.

(** ** What a lane of the verification does to the image *)

(** X18.  The effect of one lane of [verify_conv2d_image]: it returns a
    value and leaves untouched every element it does not scan; if the
    value is 0, every scanned element matched and now holds 0; if it is
    not 0, it is the index of a scanned element that does not match, and
    that element still holds its value. *)
Theorem verify_lane_effect :
  forall img img_x img_y numThreads id fuel,
    fits img_x img_y -> 1 <= img_x -> 1 <= img_y -> lanes numThreads ->
    0 <= id < numThreads -> (Z.to_nat img_y < fuel)%nat ->
    let scan := verify_scan img_x img_y id numThreads in
    exists code img1,
      verify_conv2d_image fuel img img_x img_y id numThreads
      = Some (code, img1) /\
      (forall p, (forall c, In c scan -> p <> linear img_x c) ->
                 img1 p = img p) /\
      (code = 0 ->
       forall c, In c scan ->
                 matches img_x img c = true /\ img1 (linear img_x c) = 0) /\
      (code <> 0 ->
       exists c, In c scan /\ code = linear img_x c /\
                 matches img_x img c = false /\ img1 code = img code).
Proof.
  intros img img_x img_y n id fuel Hfit Hx1 Hy1 Hlanes Hid Hfuel scan.
  assert (Hn : 1 <= n) by (destruct Hlanes; lia).
  destruct (first_mismatch img_x img scan) as [c|] eqn:Ef;
    unfold first_mismatch in Ef.
  - apply find_split in Ef as (pre & post & Hscan & Hpre & Hc).
    apply negb_true_iff in Hc.
    assert (Hin : In c scan) by (rewrite Hscan; apply in_or_app; right; now left).
    assert (Hpos : 0 < linear img_x c < half).
    { apply (verify_scan_index img_x img_y n Hfit Hlanes id); [lia|exact Hin]. }
    assert (Hkeep : reset_all img_x pre img (linear img_x c)
                    = img (linear img_x c)).
    { apply reset_all_miss. intros c' Hc' Heq.
      pose proof (NoDup_verify_scan img_x img_y id n Hn) as Hnd.
      fold scan in Hnd. rewrite Hscan, map_app in Hnd. simpl in Hnd.
      apply NoDup_remove_2 in Hnd. apply Hnd. apply in_or_app. left.
      rewrite <- Heq. now apply in_map. }
    exists (linear img_x c), (reset_all img_x pre img).
    split; [|split; [|split]].
    + apply (verify_lane_failure img_x img_y n Hfit Hx1 Hy1 Hlanes fuel img id
               pre c post); try assumption.
      intros c' Hc'. apply Hpre in Hc'. now apply negb_false_iff in Hc'.
    + intros p Hp. apply reset_all_miss. intros c' Hc' Heq.
      apply (Hp c'); [|congruence].
      rewrite Hscan. apply in_or_app. now left.
    + lia.
    + intros _. exists c. auto.
  - exists 0, (reset_all img_x scan img).
    assert (Hall : forall c, In c scan -> matches img_x img c = true).
    { intros c Hc. eapply find_none in Ef; [|exact Hc].
      now apply negb_false_iff in Ef. }
    split; [|split; [|split]].
    + now apply (verify_lane_success img_x img_y n).
    + intros p Hp. apply reset_all_miss. intros c' Hc' Heq.
      apply (Hp c'); [assumption | congruence].
    + intros _ c Hc. split; [now apply Hall | now apply reset_all_hit].
    + intros H. now contradiction H.
Qed.

Lemma verify_lane_effect_witness :
  let img := of_list [0; 0; 0; 0; 0; 2; 3; 0; 0; 3; 9; 0; 0; 0; 0; 0] in
  let scan := verify_scan 4 4 1 2 in
  exists code img1,
    verify_conv2d_image 5 img 4 4 1 2 = Some (code, img1) /\
    (forall p, (forall c, In c scan -> p <> linear 4 c) -> img1 p = img p) /\
    (code = 0 ->
     forall c, In c scan -> matches 4 img c = true /\ img1 (linear 4 c) = 0) /\
    (code <> 0 ->
     exists c, In c scan /\ code = linear 4 c /\
               matches 4 img c = false /\ img1 code = img code).
Proof.
  apply (verify_lane_effect
           (of_list [0; 0; 0; 0; 0; 2; 3; 0; 0; 3; 9; 0; 0; 0; 0; 0]) 4 4 2 1 5).
  - unfold fits, half. lia.
  - lia.
  - lia.
  - unfold lanes, half. lia.
  - lia.
  - simpl. lia.
Defined.

(** ** Verification of a cleared image *)

(** The first element a lane scans. *)
Lemma verify_scan_head img_x img_y id n :
  3 <= img_x -> id + 1 < img_y - 1 ->
  exists post, verify_scan img_x img_y id n = (id + 1, 1) :: post.
Proof.
  intros Hx Hy. unfold verify_scan, strided, zrange.
  destruct (Z.to_nat (img_y - 1 - (id + 1))) as [|c] eqn:Ec; [lia|].
  destruct (Z.to_nat (img_x - 1 - 1)) as [|c'] eqn:Ec'; [lia|].
  cbn [stride_from zseq].
  destruct (Z.ltb_spec (id + 1) (img_y - 1)); [|lia].
  cbn [grid flat_map map app]. eexists. reflexivity.
Qed.

(** No element is expected to hold 0. *)
Lemma expected_value_positive i j : 0 <= i -> 0 <= j -> 2 <= expected_value i j.
Proof.
  intros Hi Hj. rewrite expected_value_sum by assumption.
  pose proof (expected_row_range i Hi). pose proof (expected_col_range j Hj).
  lia.
Qed.

(** A lane whose first scanned element holds 0 returns the index of that
    element and changes nothing. *)
Lemma verify_first_zero img img_x img_y n id fuel :
  fits img_x img_y -> 3 <= img_x -> lanes n ->
  0 <= id < n -> id + 1 < img_y - 1 -> (Z.to_nat img_y < fuel)%nat ->
  img ((id + 1) * img_x + 1) = 0 ->
  verify_conv2d_image fuel img img_x img_y id n
  = Some ((id + 1) * img_x + 1, img).
Proof.
  intros Hfit Hx3 Hlanes Hid Hrow Hfuel Hzero.
  destruct (verify_scan_head img_x img_y id n Hx3 Hrow) as (post & Hscan).
  apply (verify_lane_failure img_x img_y n Hfit ltac:(lia) ltac:(lia) Hlanes
           fuel img id [] (id + 1, 1) post); try assumption.
  - intros c' [].
  - unfold matches, linear. cbn [fst snd]. rewrite Hzero.
    apply Z.eqb_neq.
    pose proof (expected_value_positive (id + 1) 1). lia.
Qed.

(** X19.  The verification consumes the image: a lane that has at least
    one element to scan (image at least 3 wide, row [id + 1] inside the
    interior) and has returned 0 returns, when called again on the image
    it left, the index [(id + 1) * img_x + 1] of the first element it
    scans and changes nothing; it returns the same on an image cleared by
    [zero_conv2d_image]. *)
Theorem verify_rejects_cleared_image :
  forall img img_x img_y numThreads id fuel,
    fits img_x img_y -> 3 <= img_x -> lanes numThreads ->
    0 <= id < numThreads -> id + 1 < img_y - 1 ->
    (Z.to_nat (Z.max img_x img_y) < fuel)%nat ->
    (forall img1,
       verify_conv2d_image fuel img img_x img_y id numThreads = Some (0, img1) ->
       verify_conv2d_image fuel img1 img_x img_y id numThreads
       = Some ((id + 1) * img_x + 1, img1)) /\
    (exists img0,
       run_lanes (fun o => zero_conv2d_image fuel o img_x img_y) numThreads img
       = Done img0 /\
       verify_conv2d_image fuel img0 img_x img_y id numThreads
       = Some ((id + 1) * img_x + 1, img0)).
Proof.
  intros img img_x img_y n id fuel Hfit Hx3 Hlanes Hid Hrow Hfuel.
  assert (Hfuel' : (Z.to_nat img_y < fuel)%nat) by lia.
  assert (Hx1 : 1 <= img_x) by lia. assert (Hy1 : 1 <= img_y) by lia.
  split.
  - intros img1 Hrun.
    destruct (verify_lane_code img_x img_y n fuel Hfit Hx1 Hy1 Hlanes Hfuel'
                img id Hid) as (cs & _ & Hrun' & Hall).
    rewrite Hrun in Hrun'. inversion Hrun' as [[Hcode Himg]].
    symmetry in Hcode. specialize (Hall Hcode). subst cs.
    apply verify_first_zero; try assumption.
    destruct (verify_scan_head img_x img_y id n Hx3 Hrow) as (post & Hscan).
    change ((id + 1) * img_x + 1) with (linear img_x (id + 1, 1)).
    apply reset_all_hit. rewrite Hscan. now left.
  - destruct (image_fill_run (fun _ _ => 0) img img_x img_y n fuel
                Hfit Hlanes Hfuel) as (img0 & Hrun & Hzero & _).
    exists img0. split; [exact Hrun|].
    apply verify_first_zero; try assumption.
    apply Hzero; lia.
Qed.

Lemma verify_rejects_cleared_image_witness :
  (forall img1,
     verify_conv2d_image 6 (of_list [0; 0; 0; 0; 0; 2; 3; 0; 0; 0; 0; 0])
       4 3 0 1 = Some (0, img1) ->
     verify_conv2d_image 6 img1 4 3 0 1 = Some ((0 + 1) * 4 + 1, img1)) /\
  (exists img0,
     run_lanes (fun o => zero_conv2d_image 6 o 4 3) 1
       (of_list [0; 0; 0; 0; 0; 2; 3; 0; 0; 0; 0; 0]) = Done img0 /\
     verify_conv2d_image 6 img0 4 3 0 1 = Some ((0 + 1) * 4 + 1, img0)).
Proof.
  apply (verify_rejects_cleared_image
           (of_list [0; 0; 0; 0; 0; 2; 3; 0; 0; 0; 0; 0]) 4 3 1 0 6).
  - unfold fits, half. lia.
  - lia.
  - unfold lanes, half. lia.
  - lia.
  - lia.
  - simpl. lia.
Defined.

(** A 4x3 image whose interior holds the expected 2 and 3: the first call
    returns 0, the second the index 5. *)
Example verify_twice_4x3 :
  match verify_conv2d_image 4 (of_list [0; 0; 0; 0; 0; 2; 3; 0; 0; 0; 0; 0])
          4 3 0 1 with
  | Some (code, img1) =>
      (code, option_map fst (verify_conv2d_image 4 img1 4 3 0 1))
  | None => (-1, None)
  end = (0, Some 5).
Proof. vm_compute. reflexivity. Qed.

(** ** A lane count of zero *)

(** A strided loop with stride 0 whose body completes never leaves. *)
Lemma for_stride_stuck {E A} (body : Z -> A -> outcome E A) i bound :
  0 <= i < bound -> i < wB ->
  (forall a, exists a', body i a = Done a') ->
  forall fuel a, for_stride fuel i bound 0 body a = OutOfFuel.
Proof.
  intros Hi Hw Hbody. induction fuel as [|f IH]; intros a; [reflexivity|].
  simpl. destruct (Z.ltb_spec i bound); [|lia].
  destruct (Hbody a) as [a' ->]. simpl.
  unfold addu. rewrite Z.add_0_r, to_u_small by lia. apply IH.
Qed.

Lemma skip_boundary_stuck {E} id b :
  0 <= id < b -> id < wB ->
  forall fuel, skip_boundary (E := E) fuel id b 0 = OutOfFuel.
Proof.
  intros Hi Hw. induction fuel as [|f IH]; [reflexivity|].
  simpl. destruct (Z.ltb_spec id b); [|lia].
  unfold addu. rewrite Z.add_0_r, to_u_small by lia. apply IH.
Qed.

Lemma for_range_done {E A} lo hi (body : Z -> A -> outcome E A) :
  (forall x a, exists a', body x a = Done a') ->
  forall a, exists a', for_range lo hi body a = Done a'.
Proof.
  intros Hbody. unfold for_range. generalize (Z.to_nat (hi - lo)) as cnt.
  intros cnt. revert lo.
  induction cnt as [|c IH]; intros lo a; simpl; [eauto|].
  destruct (Hbody lo a) as [a' ->]. simpl. apply IH.
Qed.

(** X20.  Nothing guards against [numThreads = 0].  The block variant
    divides by it and faults.  The strided functions add it to their
    counter: a lane whose id lies below the loop bound (it has a column, or
    a row, to process) runs its loop body at that id again and again and
    never returns, whatever the iteration budget -- [conv2d_parallel],
    [conv2d_shifted_parallel] and [conv2d_3x3_shifted_unrolled_parallel]
    with a positive weight sum, [init_conv2d_image] and
    [zero_conv2d_image]. *)
Theorem zero_lane_count :
  forall inp k in_x in_y k_x k_y out img id fuel,
    fits in_x in_y -> 0 <= id < half ->
    conv2d_3x3_unrolled_parallel inp in_x in_y k out id 0 = Abort DivFault /\
    (0 <= k_x /\ 2 * (k_x / 2) <= in_x ->
     0 < weight_sum k (mulu k_x k_y) ->
     (id < in_x - k_x / 2 ->
      conv2d_parallel fuel inp in_x in_y k k_x k_y out id 0 = OutOfFuel) /\
     (id < in_x - 2 * (k_x / 2) ->
      conv2d_shifted_parallel fuel inp in_x in_y k k_x k_y out id 0
      = OutOfFuel)) /\
    (0 < weight_sum k 9 -> id < in_x - 2 ->
     conv2d_3x3_shifted_unrolled_parallel fuel inp in_x in_y k out id 0
     = OutOfFuel) /\
    (id < Z.max in_x in_y ->
     init_conv2d_image fuel img in_x in_y id 0 = OutOfFuel /\
     zero_conv2d_image fuel img in_x in_y id 0 = OutOfFuel).
Proof.
  intros inp k in_x in_y k_x k_y out img id fuel Hfit Hid.
  destruct Hfit as (Hx & Hy & Hxy). unfold half in *.
  split; [reflexivity|]. split; [|split].
  - intros Hkx Hw.
    destruct (half_kernel k_x) as [Px Qx]; [tauto|].
    assert (Hw' : weight_sum k (mulu k_x k_y) <> 0) by lia.
    split; intros Hcol.
    + unfold conv2d_parallel, conv2d_parallel_loop.
      rewrite (to_s_small (k_x / 2)) by (unfold half; lia).
      rewrite (to_u_small (k_x / 2)) by (unfold wB; lia).
      destruct (Z_lt_le_dec id (k_x / 2)) as [Hlt|Hge].
      * rewrite skip_boundary_stuck by (unfold wB; lia). reflexivity.
      * destruct fuel as [|f]; [reflexivity|].
        simpl skip_boundary. destruct (Z.ltb_spec id (k_x / 2)); [lia|].
        cbn [bind]. rewrite to_u_to_s, (to_u_small id) by (unfold wB; lia).
        apply for_stride_stuck.
        -- unfold subu. rewrite to_u_small by (unfold wB; lia). lia.
        -- unfold wB; lia.
        -- intros a. apply for_range_done. intros ju a'.
           unfold conv2d_parallel_body.
           rewrite store_quotient_done by assumption. eauto.
    + unfold conv2d_shifted_parallel, conv2d_shifted_loop.
      apply for_stride_stuck.
      * unfold subu, mulu. rewrite (to_u_small (2 * (k_x / 2)))
          by (unfold wB; lia).
        rewrite to_u_small by (unfold wB; lia). lia.
      * unfold wB; lia.
      * intros a. apply for_range_done. intros j a'.
        unfold conv2d_shifted_body.
        rewrite store_quotient_done by assumption. eauto.
  - intros Hw Hcol.
    assert (Hw' : weight_sum k 9 <> 0) by lia.
    unfold conv2d_3x3_shifted_unrolled_parallel, conv2d_3x3_shifted_loop.
    rewrite to_u_to_s, (to_u_small id) by (unfold wB; lia).
    apply for_stride_stuck.
    + unfold subu. rewrite to_u_small by (unfold wB; lia). lia.
    + unfold wB; lia.
    + intros a. apply for_range_done. intros j a'.
      unfold conv2d_3x3_shifted_body.
      rewrite store_quotient_done by assumption. eauto.
  - intros Hmax.
    unfold init_conv2d_image, zero_conv2d_image, image_fill_loop.
    rewrite to_u_to_s, (to_u_small id) by (unfold wB; lia).
    destruct (Z.ltb_spec in_x in_y); split;
      (apply for_stride_stuck; [lia | unfold wB; lia |]);
      intros a; apply for_range_done; eauto.
Qed.

Lemma zero_lane_count_witness :
  conv2d_3x3_unrolled_parallel ramp 5 4 ones_3x3 (constant 0) 1 0
  = Abort DivFault /\
  conv2d_parallel 1000 ramp 5 4 ones_3x3 3 3 (constant 0) 1 0 = OutOfFuel /\
  conv2d_shifted_parallel 1000 ramp 5 4 ones_3x3 3 3 (constant 0) 1 0
  = OutOfFuel /\
  conv2d_3x3_shifted_unrolled_parallel 1000 ramp 5 4 ones_3x3 (constant 0) 1 0
  = OutOfFuel /\
  init_conv2d_image 1000 (constant 0) 5 4 1 0 = OutOfFuel /\
  zero_conv2d_image 1000 (constant 0) 5 4 1 0 = OutOfFuel.
Proof.
  destruct (zero_lane_count ramp ones_3x3 5 4 3 3 (constant 0) (constant 0)
              1 1000) as (Block & General & Fixed & Fill).
  - unfold fits, half. lia.
  - unfold half. lia.
  - destruct General as [Centred Shifted];
      [split; [lia | now vm_compute] | now vm_compute |].
    split; [exact Block|].
    split; [apply Centred; now vm_compute|].
    split; [apply Shifted; now vm_compute|].
    split; [apply Fixed; [now vm_compute | lia]|].
    apply Fill. now vm_compute.
Defined.

(** ** What a zero from every lane means *)

(** X21.  The verification over all lanes is sound and complete: the lanes
    return values, and all of them return 0 exactly when every interior
    element of the image (rows [1 .. img_y-2], columns [1 .. img_x-2])
    held the expected value [((j % 4) / 2) + 1] plus the row term before
    the call. *)
Theorem verify_all_zero_iff :
  forall img img_x img_y numThreads fuel,
    fits img_x img_y -> 1 <= img_x -> 1 <= img_y -> lanes numThreads ->
    (Z.to_nat img_y < fuel)%nat ->
    exists codes img',
      verify_lanes fuel img img_x img_y (lane_ids numThreads) numThreads
      = Some (codes, img') /\
      ((forall code, In code codes -> code = 0) <->
       (forall i j, 1 <= i < img_y - 1 -> 1 <= j < img_x - 1 ->
                    img (i * img_x + j) = expected_value i j)).
Proof.
  intros img img_x img_y n fuel Hfit Hx1 Hy1 Hlanes Hfuel.
  assert (Hn : 1 <= n) by (destruct Hlanes; lia).
  assert (Hids : forall id, In id (lane_ids n) -> 0 <= id < n)
    by (intros id; apply In_lane_ids).
  destruct (verify_lanes_codes img_x img_y n fuel Hfit Hx1 Hy1 Hlanes Hfuel
              (lane_ids n) img (NoDup_zseq _ _) Hids) as (img' & Hrun & _).
  exists (map (lane_code img_x img_y n img) (lane_ids n)), img'.
  split; [assumption|]. split.
  - intros Hzero i j Hi Hj.
    assert (Hl : 0 <= (i - 1) mod n < n) by (apply Z.mod_pos_bound; lia).
    set (id := (i - 1) mod n) in *.
    assert (Hin : In (i, j) (verify_scan img_x img_y id n)).
    { apply In_verify_scan; [lia|]. cbn [fst snd]. unfold id.
      pose proof (Z.mod_le (i - 1) n ltac:(lia) ltac:(lia)).
      split; [|lia]. split; [lia|].
      replace (i - ((i - 1) mod n + 1)) with (i - 1 - (i - 1) mod n) by ring.
      apply mod0_residue; lia. }
    assert (Hcode : lane_code img_x img_y n img id = 0).
    { apply Hzero. apply in_map. now apply In_lane_ids. }
    unfold lane_code in Hcode.
    destruct (first_mismatch img_x img (verify_scan img_x img_y id n))
      as [c|] eqn:Ef.
    + unfold first_mismatch in Ef. apply find_some in Ef as [Hc _].
      pose proof (verify_scan_index img_x img_y n Hfit Hlanes id c
                    ltac:(lia) Hc). lia.
    + unfold first_mismatch in Ef.
      eapply find_none in Ef; [|exact Hin].
      apply negb_false_iff in Ef. unfold matches, linear in Ef.
      cbn [fst snd] in Ef. now apply Z.eqb_eq in Ef.
  - intros Hall code Hin. apply in_map_iff in Hin as (id & <- & Hid).
    apply Hids in Hid. unfold lane_code, first_mismatch.
    rewrite find_all_false; [reflexivity|].
    intros [i j] Hc. apply In_verify_scan in Hc; [|lia].
    cbn [fst snd] in Hc. unfold matches, linear. cbn [fst snd].
    rewrite Hall by lia. now rewrite Z.eqb_refl.
Qed.

Lemma verify_all_zero_iff_witness :
  exists codes img',
    verify_lanes 5
      (of_list [0; 0; 0; 0; 0; 2; 3; 0; 0; 3; 9; 0; 0; 0; 0; 0]) 4 4
      (lane_ids 2) 2 = Some (codes, img') /\
    ((forall code, In code codes -> code = 0) <->
     (forall i j, 1 <= i < 4 - 1 -> 1 <= j < 4 - 1 ->
        of_list [0; 0; 0; 0; 0; 2; 3; 0; 0; 3; 9; 0; 0; 0; 0; 0] (i * 4 + j)
        = expected_value i j)).
Proof.
  apply (verify_all_zero_iff
           (of_list [0; 0; 0; 0; 0; 2; 3; 0; 0; 3; 9; 0; 0; 0; 0; 0]) 4 4 2 5).
  - unfold fits, half. lia.
  - lia.
  - lia.
  - unfold lanes, half. lia.
  - simpl. lia.
Defined.

(** ** The benchmark round trip with the block variant *)

Lemma zseq_app c1 : forall c2 v,
  zseq (c1 + c2) v = zseq c1 v ++ zseq c2 (v + Z.of_nat c1).
Proof.
  induction c1 as [|c IH]; intros c2 v.
  - simpl. now rewrite Z.add_0_r.
  - change (zseq (S c + c2) v) with (v :: zseq (c + c2) (v + 1)).
    rewrite IH. simpl. do 3 f_equal. lia.
Qed.

Lemma zrange_split lo m hi :
  lo <= m < hi -> zrange lo hi = zrange lo m ++ m :: zrange (m + 1) hi.
Proof.
  intros H. unfold zrange.
  replace (Z.to_nat (hi - lo))
    with (Z.to_nat (m - lo) + S (Z.to_nat (hi - (m + 1))))%nat by lia.
  rewrite zseq_app. f_equal.
  replace (lo + Z.of_nat (Z.to_nat (m - lo))) with m by lia. reflexivity.
Qed.

(** The scan of a lane up to column [x0] of its first row. *)
Lemma verify_scan_split img_x img_y id n x0 :
  id + 1 < img_y - 1 -> 1 <= x0 < img_x - 1 ->
  exists post,
    verify_scan img_x img_y id n
    = map (pair (id + 1)) (zrange 1 x0) ++ (id + 1, x0) :: post.
Proof.
  intros Hrow Hcol. unfold verify_scan, strided.
  destruct (Z.to_nat (img_y - 1 - (id + 1))) as [|c] eqn:Ec; [lia|].
  cbn [stride_from]. destruct (Z.ltb_spec (id + 1) (img_y - 1)); [|lia].
  cbn [grid flat_map].
  rewrite (zrange_split 1 x0 (img_x - 1)) by assumption.
  rewrite map_app. cbn [map]. rewrite <- app_assoc. cbn [app].
  eexists. reflexivity.
Qed.

Section BlockRoundTrip.
Variables (img out : buffer) (img_x img_y numThreads : Z) (fuel : nat).
Hypothesis Hfit : fits img_x img_y.
Hypothesis Hx2 : 2 <= img_x.
Hypothesis Hy2 : 2 <= img_y.
Hypothesis Hlanes : lanes numThreads.
Hypothesis Hfuel : (Z.to_nat (Z.max img_x img_y) < fuel)%nat.

(** The image after initialisation and the output after the block variant
    has smoothed it: the pixels of the computed columns hold the expected
    pattern, those of the skipped columns what the output held before. *)
Lemma block_smoothed :
  exists img1 out1,
    run_lanes (fun o => init_conv2d_image fuel o img_x img_y) numThreads img
    = Done img1 /\
    run_lanes (conv2d_3x3_unrolled_parallel img1 img_x img_y smooth_3x3)
      numThreads out = Done out1 /\
    (forall i j, 1 <= i < img_y - 1 -> 1 <= j < img_x - 1 ->
       ~ skipped_column img_x numThreads j ->
       out1 (i * img_x + j) = expected_value i j) /\
    (forall i j, 1 <= i < img_y - 1 -> 1 <= j < img_x - 1 ->
       skipped_column img_x numThreads j ->
       out1 (i * img_x + j) = out (i * img_x + j)).
Proof.
  destruct (init_run img_x img_y numThreads fuel Hfit Hlanes Hfuel img)
    as (img1 & Hinit & Hval).
  assert (Hw : weight_sum smooth_3x3 9 <> 0) by now vm_compute.
  assert (Hxw : 0 <= img_x < wB)
    by (destruct Hfit as (Hx & _); unfold half, wB in *; lia).
  assert (Hnw : 1 <= numThreads < wB)
    by (destruct Hlanes; unfold half, wB in *; lia).
  destruct (conv2d_3x3_unrolled_owned img1 smooth_3x3 img_x img_y numThreads
              out Hfit Hlanes Hx2 Hy2 Hw) as (out1 & Hconv & Hown & Hskip & _).
  exists img1, out1. split; [assumption|]. split; [assumption|]. split.
  - intros i j Hi Hj Hns.
    assert (HD : interior img_x img_y 1 1 j i) by (unfold interior; lia).
    rewrite Hown; [| assumption | apply block_cover; (assumption || lia)].
    rewrite (unrolled_shifted_pixel img1 smooth_3x3 img_x img_y Hfit j i HD).
    now apply (smooth_pixel img1 img_x img_y Hfit Hval).
  - intros i j Hi Hj Hs.
    assert (HD : interior img_x img_y 1 1 j i) by (unfold interior; lia).
    apply Hskip; [assumption|].
    intros Ho. apply (block_cover img_x numThreads j) in Ho;
      [contradiction | assumption | assumption | lia].
Qed.
End BlockRoundTrip.

(** X22.  The benchmark round trip with the block variant succeeds when no
    interior column is skipped, in particular when [numThreads] divides
    [img_x]: [init_conv2d_image] over all lanes, then
    [conv2d_3x3_unrolled_parallel] with the kernel {1,2,1,2,4,2,1,2,1} over
    all lanes into any output buffer, then [verify_conv2d_image] over all
    lanes on the output returns 0 from every lane and leaves the interior
    of the output zeroed. *)
Theorem block_round_trip :
  forall img out img_x img_y numThreads fuel,
    fits img_x img_y -> 2 <= img_x -> 2 <= img_y -> lanes numThreads ->
    (Z.to_nat (Z.max img_x img_y) < fuel)%nat ->
    (forall x, 1 <= x < img_x - 1 -> ~ skipped_column img_x numThreads x) ->
    exists img1 out1 out2,
      run_lanes (fun o => init_conv2d_image fuel o img_x img_y) numThreads img
      = Done img1 /\
      run_lanes (conv2d_3x3_unrolled_parallel img1 img_x img_y smooth_3x3)
        numThreads out = Done out1 /\
      verify_lanes fuel out1 img_x img_y (lane_ids numThreads) numThreads
      = Some (map (fun _ => 0) (lane_ids numThreads), out2) /\
      forall i j, 1 <= i < img_y - 1 -> 1 <= j < img_x - 1 ->
                  out2 (i * img_x + j) = 0.
Proof.
  intros img out img_x img_y n fuel Hfit Hx2 Hy2 Hlanes Hfuel Hall.
  destruct (block_smoothed img out img_x img_y n fuel Hfit Hx2 Hy2 Hlanes Hfuel)
    as (img1 & out1 & Hinit & Hconv & Hgood & _).
  destruct (verify_lanes_all_match out1 img_x img_y n fuel Hfit
              ltac:(lia) ltac:(lia) Hlanes ltac:(lia))
    as (out2 & Hverify & Hzero).
  { intros i j Hi Hj. apply Hgood; auto. }
  exists img1, out1, out2. auto.
Qed.

Lemma block_round_trip_witness :
  exists img1 out1 out2,
    run_lanes (fun o => init_conv2d_image 21 o 20 18) 4 (constant 7)
    = Done img1 /\
    run_lanes (conv2d_3x3_unrolled_parallel img1 20 18 smooth_3x3)
      4 (constant 0) = Done out1 /\
    verify_lanes 21 out1 20 18 (lane_ids 4) 4
    = Some (map (fun _ => 0) (lane_ids 4), out2) /\
    forall i j, 1 <= i < 18 - 1 -> 1 <= j < 20 - 1 -> out2 (i * 20 + j) = 0.
Proof.
  apply (block_round_trip (constant 7) (constant 0) 20 18 4 21).
  - unfold fits, half. lia.
  - lia.
  - lia.
  - unfold lanes, half. lia.
  - simpl. lia.
  - intros x _ (id & Hid & _). change (20 mod 4) with 0 in Hid. lia.
Defined.

(** X23.  The benchmark round trip with the block variant fails when an
    interior column is skipped: with [x0] the first skipped interior
    column and an output buffer that held 0 at the interior elements of
    that column, after [init_conv2d_image] and
    [conv2d_3x3_unrolled_parallel] with the kernel {1,2,1,2,4,2,1,2,1} over
    all lanes, every lane of [verify_conv2d_image] that has a row to scan
    returns the index [(id + 1) * img_x + x0] of the element of its first
    row in that column. *)
Theorem block_round_trip_fails :
  forall img out img_x img_y numThreads fuel x0,
    fits img_x img_y -> 2 <= img_x -> 2 <= img_y -> lanes numThreads ->
    (Z.to_nat (Z.max img_x img_y) < fuel)%nat ->
    1 <= x0 < img_x - 1 -> skipped_column img_x numThreads x0 ->
    (forall x, 1 <= x < x0 -> ~ skipped_column img_x numThreads x) ->
    (forall i, 1 <= i < img_y - 1 -> out (i * img_x + x0) = 0) ->
    exists img1 out1,
      run_lanes (fun o => init_conv2d_image fuel o img_x img_y) numThreads img
      = Done img1 /\
      run_lanes (conv2d_3x3_unrolled_parallel img1 img_x img_y smooth_3x3)
        numThreads out = Done out1 /\
      forall id, 0 <= id < numThreads -> id + 1 < img_y - 1 ->
        exists out2,
          verify_conv2d_image fuel out1 img_x img_y id numThreads
          = Some ((id + 1) * img_x + x0, out2).
Proof.
  intros img out img_x img_y n fuel x0 Hfit Hx2 Hy2 Hlanes Hfuel
    Hx0 Hskip0 Hfirst Hout.
  destruct (block_smoothed img out img_x img_y n fuel Hfit Hx2 Hy2 Hlanes Hfuel)
    as (img1 & out1 & Hinit & Hconv & Hgood & Hkept).
  exists img1, out1. split; [assumption|]. split; [assumption|].
  intros id Hid Hrow.
  destruct (verify_scan_split img_x img_y id n x0 Hrow Hx0) as (post & Hscan).
  eexists.
  apply (verify_lane_failure img_x img_y n Hfit ltac:(lia) ltac:(lia) Hlanes
           fuel out1 id (map (pair (id + 1)) (zrange 1 x0)) (id + 1, x0) post);
    [assumption | lia | exact Hscan | |].
  - intros c Hc. apply in_map_iff in Hc as (x & <- & Hx).
    apply In_zrange in Hx. unfold matches, linear. cbn [fst snd].
    rewrite Hgood by (try apply Hfirst; lia). apply Z.eqb_refl.
  - unfold matches, linear. cbn [fst snd].
    rewrite Hkept, Hout by (assumption || lia).
    apply Z.eqb_neq.
    pose proof (expected_value_positive (id + 1) x0). lia.
Qed.

Lemma block_round_trip_fails_witness :
  exists img1 out1,
    run_lanes (fun o => init_conv2d_image 6 o 5 5) 2 (constant 7) = Done img1 /\
    run_lanes (conv2d_3x3_unrolled_parallel img1 5 5 smooth_3x3)
      2 (constant 0) = Done out1 /\
    forall id, 0 <= id < 2 -> id + 1 < 5 - 1 ->
      exists out2,
        verify_conv2d_image 6 out1 5 5 id 2 = Some ((id + 1) * 5 + 2, out2).
Proof.
  apply (block_round_trip_fails (constant 7) (constant 0) 5 5 2 6 2).
  - unfold fits, half. lia.
  - lia.
  - lia.
  - unfold lanes, half. lia.
  - simpl. lia.
  - lia.
  - exists 0. now vm_compute.
  - intros x Hx (id & Hid & Heq).
    change (5 mod 2) with 1 in Hid. change (5 / 2) with 2 in Heq. lia.
  - reflexivity.
Defined.

(** ** Division faults and the sum of the weights *)

Lemma conv2d_3x3_unrolled_loop_spec in_x in_y numThreads id :
  fits in_x in_y -> 1 <= in_x -> 1 <= in_y -> numThreads <> 0 ->
  exists cs,
    (forall x y, In (x, y) cs <->
       interior in_x in_y 1 1 x y /\ block_owns in_x numThreads id x) /\
    forall A (body : Z -> Z -> A -> outcome fault A) (a : A),
      conv2d_3x3_unrolled_loop in_x in_y id numThreads body a
      = fold_outcome (fun c => body (fst c) (snd c)) cs a.
Proof.
  intros (Hx & Hy & Hxy) Hx1 Hy1 Hn. unfold half in *.
  unfold conv2d_3x3_unrolled_loop, block_owns.
  destruct (block_range in_x id numThreads) as [[s e]| |] eqn:Eb;
    try (unfold block_range in Eb;
         destruct (Z.eqb_spec numThreads 0); [contradiction | discriminate]).
  cbn [bind fst snd].
  unfold clamp_range, subu. cbn [fst snd].
  rewrite (to_u_small (in_x - 1)), (to_u_small (in_y - 1)) by (unfold wB; lia).
  set (s' := if s <? 1 then 1 else s).
  set (e' := if in_x - 1 <? e then in_x - 1 else e).
  assert (Hs : forall x, s' <= x <-> 1 <= x /\ s <= x).
  { intros x. unfold s'. destruct (Z.ltb_spec s 1); lia. }
  assert (He : forall x, x < e' <-> x < in_x - 1 /\ x < e).
  { intros x. unfold e'. destruct (Z.ltb_spec (in_x - 1) e); lia. }
  exists (grid (zrange s' e') (zrange 1 (in_y - 1))). split.
  - intros x y. rewrite In_grid, !In_zrange. cbn [fst snd]. unfold interior.
    pose proof (Hs x). pose proof (He x). tauto.
  - intros A body a. rewrite for_range_fold.
    rewrite (fold_outcome_ext _
      (fun i => fold_outcome (body i) (zrange 1 (in_y - 1))))
      by (intros; apply for_range_fold).
    apply fold_outcome_grid.
Qed.

Lemma conv2d_3x3_shifted_loop_spec fuel in_x in_y numThreads id :
  fits in_x in_y -> lanes numThreads -> 2 <= in_x -> 2 <= in_y ->
  0 <= id < half -> (Z.to_nat in_x < fuel)%nat ->
  forall A (body : Z -> Z -> A -> outcome fault A) (a : A),
    conv2d_3x3_shifted_loop fuel in_x in_y id numThreads body a
    = fold_outcome (fun c => body (fst c) (snd c))
        (grid (strided id (in_x - 2) numThreads) (zrange 0 (in_y - 2))) a.
Proof.
  intros (Hx & Hy & Hxy) [Hn1 Hn2] Hx2 Hy2 Hid Hfuel A body a.
  unfold half in *. unfold conv2d_3x3_shifted_loop, subu.
  rewrite to_u_to_s, (to_u_small id), (to_u_small (in_x - 2)),
    (to_u_small (in_y - 2)) by (unfold wB; lia).
  rewrite for_stride_fold by (unfold wB; lia).
  rewrite <- fold_outcome_grid.
  apply fold_outcome_ext. intros iu o Hin.
  apply In_strided in Hin; [|lia].
  rewrite for_range_fold, (to_s_small iu) by (unfold half; lia).
  apply fold_outcome_ext. intros ju o' Hj. apply In_zrange in Hj.
  now rewrite (to_s_small ju) by (unfold half; lia).
Qed.

(** The divisor of the general kernels is the sum of the [k_x * k_y]
    weights modulo 2^32. *)
Lemma general_divisor k k_x k_y :
  0 <= k_x * k_y < half ->
  weight_sum k (mulu k_x k_y) = to_u (kernel_total k (k_x * k_y)).
Proof.
  intros Hc. unfold mulu.
  rewrite (to_u_small (k_x * k_y)) by (unfold half, wB in *; lia).
  apply weight_sum_congr. lia.
Qed.

Lemma fixed_divisor k : weight_sum k 9 = to_u (kernel_total k 9).
Proof. apply weight_sum_congr. unfold half. lia. Qed.

Section ZeroDivisor.
Variables (inp k : buffer) (in_x in_y numThreads id : Z) (fuel : nat).
Variable out : buffer.
Hypothesis Hfit : fits in_x in_y.
Hypothesis Hlanes : lanes numThreads.
Hypothesis Hid : 0 <= id < numThreads.
Hypothesis Hfuel : (Z.to_nat in_x < fuel)%nat.

Lemma conv2d_parallel_faults k_x k_y :
  0 <= k_x /\ 2 * (k_x / 2) <= in_x -> 0 <= k_y /\ 2 * (k_y / 2) <= in_y ->
  weight_sum k (mulu k_x k_y) = 0 ->
  (exists x y, interior in_x in_y (k_x / 2) (k_y / 2) x y /\
               x mod numThreads = id) ->
  conv2d_parallel fuel inp in_x in_y k k_x k_y out id numThreads
  = Abort DivFault.
Proof.
  intros Hkx Hky Hw (x & y & HD & Hx).
  destruct (half_kernel k_x) as [Px Qx]; [tauto|].
  destruct (half_kernel k_y) as [Py Qy]; [tauto|].
  assert (Hid' : 0 <= id < half) by (destruct Hlanes; lia).
  destruct (conv2d_parallel_loop_spec in_x in_y k_x k_y numThreads
              Hfit Hlanes ltac:(lia) ltac:(lia) fuel id Hid' Hfuel)
    as (cols & Hcols & Hrun).
  unfold conv2d_parallel. rewrite Hrun.
  apply fold_outcome_first_abort with (x := (x, y)).
  - apply In_grid. cbn [fst snd]. rewrite Hcols, In_zrange.
    unfold interior in HD.
    assert (id <= x /\ (x - id) mod numThreads = 0)
      by (apply stride_owner; lia).
    tauto.
  - intros c a. unfold conv2d_parallel_body. rewrite Hw.
    apply store_quotient_fault.
Qed.

Lemma conv2d_shifted_faults k_x k_y :
  0 <= k_x /\ 2 * (k_x / 2) <= in_x -> 0 <= k_y /\ 2 * (k_y / 2) <= in_y ->
  weight_sum k (mulu k_x k_y) = 0 ->
  (exists x y, interior in_x in_y (k_x / 2) (k_y / 2) x y /\
               (x - k_x / 2) mod numThreads = id) ->
  conv2d_shifted_parallel fuel inp in_x in_y k k_x k_y out id numThreads
  = Abort DivFault.
Proof.
  intros Hkx Hky Hw (x & y & HD & Hx).
  destruct (half_kernel k_x) as [Px Qx]; [tauto|].
  destruct (half_kernel k_y) as [Py Qy]; [tauto|].
  assert (Hid' : 0 <= id < half) by (destruct Hlanes; lia).
  unfold conv2d_shifted_parallel.
  rewrite (conv2d_shifted_loop_spec in_x in_y k_x k_y numThreads
             Hfit Hlanes Hkx Hky fuel id Hid' Hfuel).
  apply fold_outcome_first_abort with (x := (x - k_x / 2, y - k_y / 2)).
  - apply In_grid. cbn [fst snd].
    rewrite In_strided, In_zrange by (destruct Hlanes; lia).
    unfold interior in HD.
    assert (id <= x - k_x / 2 /\ (x - k_x / 2 - id) mod numThreads = 0)
      by (apply stride_owner; lia).
    lia.
  - intros c a. unfold conv2d_shifted_body. rewrite Hw.
    apply store_quotient_fault.
Qed.

Lemma conv2d_3x3_unrolled_faults :
  2 <= in_x -> 2 <= in_y -> weight_sum k 9 = 0 ->
  (exists x y, interior in_x in_y 1 1 x y /\ block_owns in_x numThreads id x) ->
  conv2d_3x3_unrolled_parallel inp in_x in_y k out id numThreads
  = Abort DivFault.
Proof.
  clear Hfuel Hid. intros Hx2 Hy2 Hw (x & y & HD & Hx).
  destruct (conv2d_3x3_unrolled_loop_spec in_x in_y numThreads id Hfit)
    as (cs & Hcs & Hrun); try (destruct Hlanes; lia).
  unfold conv2d_3x3_unrolled_parallel. rewrite Hrun.
  apply fold_outcome_first_abort with (x := (x, y)).
  - apply Hcs. auto.
  - intros c a. unfold conv2d_3x3_unrolled_body. rewrite Hw.
    apply store_quotient_fault.
Qed.

Lemma conv2d_3x3_shifted_faults :
  2 <= in_x -> 2 <= in_y -> weight_sum k 9 = 0 ->
  (exists x y, interior in_x in_y 1 1 x y /\ (x - 1) mod numThreads = id) ->
  conv2d_3x3_shifted_unrolled_parallel fuel inp in_x in_y k out id numThreads
  = Abort DivFault.
Proof.
  intros Hx2 Hy2 Hw (x & y & HD & Hx).
  assert (Hid' : 0 <= id < half) by (destruct Hlanes; lia).
  unfold conv2d_3x3_shifted_unrolled_parallel.
  rewrite (conv2d_3x3_shifted_loop_spec fuel in_x in_y numThreads id
             Hfit Hlanes Hx2 Hy2 Hid' Hfuel).
  apply fold_outcome_first_abort with (x := (x - 1, y - 1)).
  - apply In_grid. cbn [fst snd].
    rewrite In_strided, In_zrange by (destruct Hlanes; lia).
    unfold interior in HD.
    assert (id <= x - 1 /\ (x - 1 - id) mod numThreads = 0)
      by (apply stride_owner; lia).
    lia.
  - intros c a. unfold conv2d_3x3_shifted_body. rewrite Hw.
    apply store_quotient_fault.
Qed.
End ZeroDivisor.

(** C9, as stated, fails: the weights 2^31, 2^31, 0, ..., 0 of a 3x3
    kernel sum to the positive value 2^32, the divisor the kernels compute
    for them is 0, and each of the four variants, called for the one lane
    of a 3x3 image, stops with a division fault. *)
Lemma conv2d_weight_sum_wraps :
  kernel_total wrap_3x3 9 = 4294967296 /\
  weight_sum wrap_3x3 9 = 0 /\
  conv2d_parallel 4 ramp 3 3 wrap_3x3 3 3 (constant 0) 0 1 = Abort DivFault /\
  conv2d_shifted_parallel 4 ramp 3 3 wrap_3x3 3 3 (constant 0) 0 1
  = Abort DivFault /\
  conv2d_3x3_unrolled_parallel ramp 3 3 wrap_3x3 (constant 0) 0 1
  = Abort DivFault /\
  conv2d_3x3_shifted_unrolled_parallel 4 ramp 3 3 wrap_3x3 (constant 0) 0 1
  = Abort DivFault.
Proof. repeat split; vm_compute; reflexivity. Qed.

(** C9, amended.  A convolution call whose kernel weights sum to a value
    that is not a multiple of 2^32 never stops with a division fault,
    whatever the image, the lane and the iteration budget: the divisor of
    every [sum / weight] is the sum of the weights modulo 2^32 (for the
    general variants with fewer than 2^31 weights), and the divisor of the
    block variant's [in_x / numThreads] and [in_x % numThreads] is the lane
    count, taken to be other than 0.  Weights with a positive sum below
    2^32 satisfy the condition.  The kernels do not guard the divisor: when
    the weights sum to 0 or to another multiple of 2^32, a lane that has an
    output element to compute stops with a division fault, in each of the
    four variants (the lane [x mod numThreads] of [conv2d_parallel], the
    lane [(x - k_x / 2) mod numThreads] of the two shifted variants and the
    lane whose block holds [x] of the block variant, for an interior
    column [x]). *)
Theorem conv2d_division_safe :
  forall inp k in_x in_y k_x k_y numThreads out id fuel,
    (0 <= k_x * k_y < half -> to_u (kernel_total k (k_x * k_y)) <> 0 ->
     conv2d_parallel fuel inp in_x in_y k k_x k_y out id numThreads
       <> Abort DivFault /\
     conv2d_shifted_parallel fuel inp in_x in_y k k_x k_y out id numThreads
       <> Abort DivFault) /\
    (to_u (kernel_total k 9) <> 0 -> numThreads <> 0 ->
     conv2d_3x3_unrolled_parallel inp in_x in_y k out id numThreads
       <> Abort DivFault /\
     conv2d_3x3_shifted_unrolled_parallel fuel inp in_x in_y k out id numThreads
       <> Abort DivFault) /\
    (forall cnt, 0 < kernel_total k cnt < wB ->
                 to_u (kernel_total k cnt) <> 0) /\
    (fits in_x in_y -> lanes numThreads -> 0 <= id < numThreads ->
     (Z.to_nat in_x < fuel)%nat ->
     (0 <= k_x /\ 2 * (k_x / 2) <= in_x -> 0 <= k_y /\ 2 * (k_y / 2) <= in_y ->
      0 <= k_x * k_y < half -> to_u (kernel_total k (k_x * k_y)) = 0 ->
      ((exists x y, interior in_x in_y (k_x / 2) (k_y / 2) x y /\
                    x mod numThreads = id) ->
       conv2d_parallel fuel inp in_x in_y k k_x k_y out id numThreads
       = Abort DivFault) /\
      ((exists x y, interior in_x in_y (k_x / 2) (k_y / 2) x y /\
                    (x - k_x / 2) mod numThreads = id) ->
       conv2d_shifted_parallel fuel inp in_x in_y k k_x k_y out id numThreads
       = Abort DivFault)) /\
     (2 <= in_x -> 2 <= in_y -> to_u (kernel_total k 9) = 0 ->
      ((exists x y, interior in_x in_y 1 1 x y /\
                    block_owns in_x numThreads id x) ->
       conv2d_3x3_unrolled_parallel inp in_x in_y k out id numThreads
       = Abort DivFault) /\
      ((exists x y, interior in_x in_y 1 1 x y /\
                    (x - 1) mod numThreads = id) ->
       conv2d_3x3_shifted_unrolled_parallel fuel inp in_x in_y k out id
         numThreads = Abort DivFault))).
Proof.
  intros inp k in_x in_y k_x k_y n out id fuel.
  split; [|split; [|split]].
  - intros Hc Hw.
    assert (Hw' : weight_sum k (mulu k_x k_y) <> 0)
      by (rewrite general_divisor; assumption).
    split.
    + unfold conv2d_parallel, conv2d_parallel_loop.
      destruct (skip_boundary fuel id _ n) as [id'| e |] eqn:Es; simpl;
        [| exfalso; eapply skip_boundary_no_abort; eassumption | discriminate].
      apply for_stride_no_abort. intros iu a e.
      apply for_range_no_abort. intros ju a' e'.
      now apply store_quotient_no_abort.
    + unfold conv2d_shifted_parallel, conv2d_shifted_loop.
      apply for_stride_no_abort. intros i a e.
      apply for_range_no_abort. intros j a' e'.
      now apply store_quotient_no_abort.
  - intros Hw Hn.
    assert (Hw' : weight_sum k 9 <> 0) by (rewrite fixed_divisor; assumption).
    split.
    + unfold conv2d_3x3_unrolled_parallel, conv2d_3x3_unrolled_loop,
        block_range.
      destruct (Z.eqb_spec n 0); [contradiction|]. cbn [bind].
      apply for_range_no_abort. intros i a e.
      apply for_range_no_abort. intros j a' e'.
      now apply store_quotient_no_abort.
    + unfold conv2d_3x3_shifted_unrolled_parallel, conv2d_3x3_shifted_loop.
      apply for_stride_no_abort. intros i a e.
      apply for_range_no_abort. intros j a' e'.
      now apply store_quotient_no_abort.
  - intros cnt Ht. rewrite to_u_small; lia.
  - intros Hfit Hlanes Hid Hfuel. split.
    + intros Hkx Hky Hc Hw.
      assert (Hw' : weight_sum k (mulu k_x k_y) = 0)
        by (rewrite general_divisor; assumption).
      split; intros Hown.
      * now apply conv2d_parallel_faults.
      * now apply conv2d_shifted_faults.
    + intros Hx2 Hy2 Hw.
      assert (Hw' : weight_sum k 9 = 0) by (rewrite fixed_divisor; assumption).
      split; intros Hown.
      * now apply conv2d_3x3_unrolled_faults.
      * now apply conv2d_3x3_shifted_faults.
Qed.

Lemma conv2d_division_safe_witness :
  (conv2d_parallel 5 ramp 4 4 smooth_3x3 3 3 (constant 0) 1 2
     <> Abort DivFault /\
   conv2d_shifted_parallel 5 ramp 4 4 smooth_3x3 3 3 (constant 0) 1 2
     <> Abort DivFault) /\
  (conv2d_3x3_unrolled_parallel ramp 4 4 smooth_3x3 (constant 0) 1 2
     <> Abort DivFault /\
   conv2d_3x3_shifted_unrolled_parallel 5 ramp 4 4 smooth_3x3 (constant 0) 1 2
     <> Abort DivFault) /\
  to_u (kernel_total smooth_3x3 9) <> 0 /\
  (conv2d_parallel 5 ramp 4 4 wrap_3x3 3 3 (constant 0) 1 2
     = Abort DivFault /\
   conv2d_shifted_parallel 5 ramp 4 4 wrap_3x3 3 3 (constant 0) 1 2
     = Abort DivFault) /\
  (conv2d_3x3_unrolled_parallel ramp 4 4 wrap_3x3 (constant 0) 1 2
     = Abort DivFault /\
   conv2d_3x3_shifted_unrolled_parallel 5 ramp 4 4 wrap_3x3 (constant 0) 1 2
     = Abort DivFault).
Proof.
  destruct (conv2d_division_safe ramp smooth_3x3 4 4 3 3 2 (constant 0) 1 5)
    as (Ha & Hb & Hc & _).
  destruct (conv2d_division_safe ramp wrap_3x3 4 4 3 3 2 (constant 0) 1 5)
    as (_ & _ & _ & Hd).
  assert (Hfit : fits 4 4) by (unfold fits, half; lia).
  assert (Hlanes : lanes 2) by (unfold lanes, half; lia).
  destruct (Hd Hfit Hlanes ltac:(lia) ltac:(simpl; lia)) as (Hg & Hf).
  assert (Hk : 0 <= 3 /\ 2 * (3 / 2) <= 4) by (now vm_compute).
  split; [apply Ha; [unfold half; lia | now vm_compute]|].
  split; [apply Hb; [now vm_compute | lia]|].
  split; [apply (Hc 9); now vm_compute|].
  split.
  - destruct (Hg Hk Hk ltac:(unfold half; lia) ltac:(now vm_compute))
      as (Hg1 & Hg2).
    split; [apply Hg1; exists 1, 1 | apply Hg2; exists 2, 1];
      (split; [unfold interior; now vm_compute | now vm_compute]).
  - destruct (Hf ltac:(lia) ltac:(lia) ltac:(now vm_compute)) as (Hf1 & Hf2).
    split; [apply Hf1 | apply Hf2]; exists 2, 1;
      (split; [unfold interior; lia | now vm_compute]).
Defined.

(** ** The value stored for a negative weighted sum *)

(** The quotient stored for a negative [int32_t] sum: the unsigned quotient
    of [sum + 2^32], which is positive for a divisor between 2 and 2^31 and
    is the sum itself for the divisor 1. *)
Lemma quotient_stored_as_unsigned sum weight :
  - half <= sum < 0 ->
  stored_as_unsigned (quotient sum weight) sum weight.
Proof.
  intros Hs. unfold stored_as_unsigned.
  rewrite (quotient_negative sum weight Hs).
  split; [reflexivity|]. split.
  - intros Hw. unfold half, wB in *.
    assert (Hq1 : 1 <= (sum + 4294967296) / weight).
    { apply Z.div_le_lower_bound; lia. }
    assert (Hq2 : (sum + 4294967296) / weight < 2147483648).
    { apply Z.div_lt_upper_bound; nia. }
    rewrite to_s_small by (unfold half; lia).
    split; [lia|].
    replace sum with (- (- sum)) by lia.
    rewrite Z.quot_opp_l by lia.
    assert (0 <= Z.quot (- sum) weight) by (apply Z.quot_pos; lia).
    lia.
  - intros ->. rewrite Z.div_1_r, Z.quot_1_r.
    replace (sum + wB) with (sum + 1 * wB) by ring.
    rewrite <- to_s_to_u, to_u_shift, to_s_to_u.
    apply to_s_small. unfold half in *. lia.
Qed.

Lemma sum_3x3_unrolled_range inp in_x k i j :
  - half <= sum_3x3_unrolled inp in_x k i j < half.
Proof. unfold sum_3x3_unrolled. apply to_s_range. Qed.

Lemma sum_3x3_shifted_range inp in_x k i j :
  - half <= sum_3x3_shifted inp in_x k i j < half.
Proof. unfold sum_3x3_shifted. apply to_s_range. Qed.

(** C10, as stated, fails for the divisor 1: under the 3x3 kernel whose
    only weight is a 1 at the centre, the weighted sum of the interior
    pixel of a 3x3 image of -5s is -5, and each of the four variants stores
    -5 there, which is the quotient of the signed division of -5 by 1 (and
    the signed reading of the unsigned quotient as well). *)
Lemma conv2d_quotient_weight_one :
  weight_sum centre_3x3 9 = 1 /\
  conv2d_parallel_sum (constant (-5)) 3 centre_3x3 3 3 1 1 = -5 /\
  conv2d_shifted_sum (constant (-5)) 3 centre_3x3 3 3 0 0 = -5 /\
  sum_3x3_unrolled (constant (-5)) 3 centre_3x3 1 1 = -5 /\
  sum_3x3_shifted (constant (-5)) 3 centre_3x3 0 0 = -5 /\
  read (run_lanes
          (fun o => conv2d_parallel 4 (constant (-5)) 3 3 centre_3x3 3 3 o)
          1 (constant 0)) 4 = Some (-5) /\
  read (run_lanes
          (fun o => conv2d_shifted_parallel 4 (constant (-5)) 3 3 centre_3x3
                      3 3 o)
          1 (constant 0)) 4 = Some (-5) /\
  read (run_lanes
          (conv2d_3x3_unrolled_parallel (constant (-5)) 3 3 centre_3x3)
          1 (constant 0)) 4 = Some (-5) /\
  read (run_lanes
          (conv2d_3x3_shifted_unrolled_parallel 4 (constant (-5)) 3 3
             centre_3x3)
          1 (constant 0)) 4 = Some (-5) /\
  to_s ((-5 + wB) / 1) = -5 /\
  Z.quot (-5) 1 = -5.
Proof. repeat split; vm_compute; reflexivity. Qed.

(** C10, amended.  In all four convolution variants, run over all lanes,
    the stored result [sum / weight] is computed with the signed 32-bit
    weighted sum converted to unsigned 32-bit before the division: at every
    output element the variant computes (every interior element; for the
    block variant those outside the columns its partition leaves out) whose
    weighted sum is negative, the value stored is the signed
    reinterpretation of [(sum + 2^32) / weight].  For a divisor between 2
    and 2^31 this value is positive, hence not the quotient of the signed
    division truncated toward zero, which is at most 0; for the divisor 1
    the two are the same value. *)
Theorem conv2d_quotient_is_unsigned :
  forall inp k in_x in_y numThreads out fuel,
    fits in_x in_y -> lanes numThreads -> (Z.to_nat in_x < fuel)%nat ->
    (forall k_x k_y,
       0 <= k_x /\ 2 * (k_x / 2) <= in_x ->
       0 <= k_y /\ 2 * (k_y / 2) <= in_y ->
       weight_sum k (mulu k_x k_y) <> 0 ->
       exists o1 o2,
         run_lanes (fun o => conv2d_parallel fuel inp in_x in_y k k_x k_y o)
           numThreads out = Done o1 /\
         run_lanes
           (fun o => conv2d_shifted_parallel fuel inp in_x in_y k k_x k_y o)
           numThreads out = Done o2 /\
         forall x y, interior in_x in_y (k_x / 2) (k_y / 2) x y ->
           (conv2d_parallel_sum inp in_x k k_x k_y x y < 0 ->
            stored_as_unsigned (o1 (y * in_x + x))
              (conv2d_parallel_sum inp in_x k k_x k_y x y)
              (weight_sum k (mulu k_x k_y))) /\
           (conv2d_shifted_sum inp in_x k k_x k_y
              (x - k_x / 2) (y - k_y / 2) < 0 ->
            stored_as_unsigned (o2 (y * in_x + x))
              (conv2d_shifted_sum inp in_x k k_x k_y
                 (x - k_x / 2) (y - k_y / 2))
              (weight_sum k (mulu k_x k_y)))) /\
    (2 <= in_x -> 2 <= in_y -> weight_sum k 9 <> 0 ->
     exists o3 o4,
       run_lanes (conv2d_3x3_unrolled_parallel inp in_x in_y k)
         numThreads out = Done o3 /\
       run_lanes (conv2d_3x3_shifted_unrolled_parallel fuel inp in_x in_y k)
         numThreads out = Done o4 /\
       forall x y, interior in_x in_y 1 1 x y ->
         (~ skipped_column in_x numThreads x ->
          sum_3x3_unrolled inp in_x k x y < 0 ->
          stored_as_unsigned (o3 (y * in_x + x))
            (sum_3x3_unrolled inp in_x k x y) (weight_sum k 9)) /\
         (sum_3x3_shifted inp in_x k (x - 1) (y - 1) < 0 ->
          stored_as_unsigned (o4 (y * in_x + x))
            (sum_3x3_shifted inp in_x k (x - 1) (y - 1)) (weight_sum k 9))).
Proof.
  intros inp k in_x in_y n out fuel Hfit Hlanes Hfuel. split.
  - intros k_x k_y Hkx Hky Hw.
    destruct (half_kernel k_x) as [Px _]; [tauto|].
    destruct (half_kernel k_y) as [Py _]; [tauto|].
    destruct (conv2d_parallel_run inp k in_x in_y k_x k_y n Hfit Hlanes
                ltac:(lia) ltac:(lia) Hw fuel out Hfuel)
      as (o1 & R1 & P1 & _).
    destruct (conv2d_shifted_run inp k in_x in_y k_x k_y n Hfit Hlanes
                Hkx Hky Hw fuel out Hfuel)
      as (o2 & R2 & P2 & _).
    exists o1, o2. split; [exact R1|]. split; [exact R2|].
    intros x y HD. split; intros Hneg.
    + rewrite (P1 x y HD). unfold conv2d_parallel_pixel.
      apply quotient_stored_as_unsigned.
      pose proof (conv2d_parallel_sum_range inp in_x k k_x k_y x y). lia.
    + rewrite (P2 x y HD). unfold conv2d_shifted_pixel.
      apply quotient_stored_as_unsigned.
      pose proof (conv2d_shifted_sum_range inp in_x k k_x k_y
                    (x - k_x / 2) (y - k_y / 2)). lia.
  - intros Hx2 Hy2 Hw.
    destruct (conv2d_3x3_unrolled_owned inp k in_x in_y n out Hfit Hlanes
                Hx2 Hy2 Hw) as (o3 & R3 & P3 & _).
    destruct (conv2d_3x3_shifted_run inp k in_x in_y n Hfit Hlanes
                Hx2 Hy2 Hw fuel out Hfuel) as (o4 & R4 & P4 & _).
    exists o3, o4. split; [exact R3|]. split; [exact R4|].
    intros x y HD. split.
    + intros Hown Hneg.
      rewrite (P3 x y HD).
      * unfold conv2d_3x3_unrolled_pixel.
        apply quotient_stored_as_unsigned.
        pose proof (sum_3x3_unrolled_range inp in_x k x y). lia.
      * apply block_cover; [| |  | exact Hown];
          destruct Hfit as (Hx & _), Hlanes, HD as [Hc _];
          unfold half, wB in *; lia.
    + intros Hneg. rewrite (P4 x y HD). unfold conv2d_3x3_shifted_pixel.
      apply quotient_stored_as_unsigned.
      pose proof (sum_3x3_shifted_range inp in_x k (x - 1) (y - 1)). lia.
Qed.

Lemma conv2d_quotient_is_unsigned_witness :
  exists o1 o2 o3 o4,
    run_lanes (fun o => conv2d_parallel 4 (constant (-1)) 3 3 ones_3x3 3 3 o)
      1 (constant 0) = Done o1 /\
    run_lanes
      (fun o => conv2d_shifted_parallel 4 (constant (-1)) 3 3 ones_3x3 3 3 o)
      1 (constant 0) = Done o2 /\
    run_lanes (conv2d_3x3_unrolled_parallel (constant (-1)) 3 3 ones_3x3)
      1 (constant 0) = Done o3 /\
    run_lanes
      (conv2d_3x3_shifted_unrolled_parallel 4 (constant (-1)) 3 3 ones_3x3)
      1 (constant 0) = Done o4 /\
    stored_as_unsigned (o1 4) (-9) 9 /\
    stored_as_unsigned (o2 4) (-9) 9 /\
    stored_as_unsigned (o3 4) (-9) 9 /\
    stored_as_unsigned (o4 4) (-9) 9 /\
    to_s ((-9 + wB) / 9) = 477218587 /\ Z.quot (-9) 9 = -1.
Proof.
  assert (Hfit : fits 3 3) by (unfold fits, half; lia).
  assert (Hlanes : lanes 1) by (unfold lanes, half; lia).
  destruct (conv2d_quotient_is_unsigned (constant (-1)) ones_3x3 3 3 1
              (constant 0) 4 Hfit Hlanes ltac:(simpl; lia)) as (Hg & Hf).
  assert (Hk : 0 <= 3 /\ 2 * (3 / 2) <= 3) by (now vm_compute).
  destruct (Hg 3 3 Hk Hk ltac:(now vm_compute)) as (o1 & o2 & R1 & R2 & P12).
  destruct (Hf ltac:(lia) ltac:(lia) ltac:(now vm_compute))
    as (o3 & o4 & R3 & R4 & P34).
  assert (HD : interior 3 3 (3 / 2) (3 / 2) 1 1)
    by (unfold interior; now vm_compute).
  assert (HD' : interior 3 3 1 1 1 1) by (unfold interior; lia).
  destruct (P12 1 1 HD) as (Q1 & Q2). destruct (P34 1 1 HD') as (Q3 & Q4).
  exists o1, o2, o3, o4.
  split; [exact R1|]. split; [exact R2|].
  split; [exact R3|]. split; [exact R4|].
  split; [apply Q1; now vm_compute|].
  split; [apply Q2; now vm_compute|].
  split; [apply Q3; [intros (id & Hid & _);
                      change (3 mod 1) with 0 in Hid; lia
                    | now vm_compute]|].
  split; [apply Q4; now vm_compute|].
  split; reflexivity.
Defined.
